(* ===== verification/_CoqProject ===== *)
-Q . S2P
Prelude.v
Bases.v
Variants.v
MdParse.v
Walker.v
MdStore.v
Overlap.v
Primer.v
Aggregate.v
Output.v
Args.v
Runner.v
