(* ===== verification/Prelude.v ===== *)
(** * A verification development of ROVER-PCR (rli99/rover)

    ROVER calls variants from paired-end amplicon reads.  The whole
    program is the Python 2 file [src/rover/rover.py]; this library models
    its algorithmic core as executable Rocq definitions and proves what
    that core does, including where it departs from what it means to do.

    ** The program and how its parts interact

    - [parse_md] / [parse_md_snv] / [parse_md_del] (rover.py 421-476)
      decode the MD tag of a read into [MD_match] / [MD_mismatch] /
      [MD_deletion] tokens.
    - [Base], [ascii_to_phred], [make_base_seq] (rover.py 266-299) pair the
      read's bases with phred qualities, padding short quality strings.
    - [SNV], [Insertion], [Deletion] (rover.py 301-419): the variant
      records; their equality and hash are those of [as_tuple].
    - [read_variants] (rover.py 119-257) walks the CIGAR list and the MD
      token list in lock step and emits the variants of one read; it calls
      [exit()] on a contradiction between the two.
    - [proportion_overlap] and [lookup_reads] (rover.py 83-100, 478-505)
      select the reads of a block and group them by name.
    - [reverse_complement], [possible_primer], [primer_diff],
      [check_primers] (rover.py 526-604) score the primer regions.
    - [process_blocks] (rover.py 624-771) pairs the mates, intersects the
      two variant sets, discards pairs with bad primers, counts support and
      applies the absolute and proportion thresholds.
    - [process_bams] (rover.py 773-836) reads the primer sequence table,
      writes the VCF metadata and header, and runs [process_blocks] on
      each BAM file under the sample name taken from the file name.
    - [parse_args] (rover.py 21-70) declares the command line and runs
      argparse on it; [main] (rover.py 838-852) passes its namespace to
      [process_bams].

    Data flows downward: [main] calls [parse_args] and [process_bams];
    [process_bams] calls [process_blocks], which
    calls [lookup_reads], [make_base_seq], [parse_md], [read_variants] and
    [check_primers].

    ** Files

    - [Prelude] (this file): the [res] error monad with its notation
      [let! x := m in k] in [rover_scope], Python's list indexing and
      slicing ([py_index], [py_slice]) with negative indices, [int()] and
      [str()] on digit strings, generic list lemmas, the hint databases
      [rover] and [rover_rw] and the tactic [res_inv].
    - [Bases]: [Base], [ascii_to_phred], [make_base_seq] and its indexing
      law.
    - [Variants]: the three variant classes, their constructors (which
      normalise an unknown indel context into an info tag), [as_tuple],
      [fil], [ref], [alt], [position] and the filter and info updates of
      [process_blocks]; that equality is [as_tuple] equality, and that an
      insertion equals a deletion of the same bases.
    - [MdParse]: the MD token type and the three mutually recursive
      parsers, run with fuel [2 * length md + 2] (of two successive
      calls at least one consumes a character or stops); fuel adequacy, the grammar of well-formed
      token lists, the round trip parse (print t) = t on it, and the two
      ways the parse loses information (leading zeros, silent truncation).
    - [Walker]: [read_variants] as a step function [walk_step] on a
      record of the local variables of the Python loop, run by [walk] with
      fuel [1 + length cigar + length md] (every step that continues pops
      a CIGAR operation or an MD token, so [walk_measure], the sum of the
      two lengths, decreases); termination,
      the step relation [walk_star] with its span invariant proved by rule
      induction, the refinement of reads without indels by
      [expected_snvs], the error paths, and the behaviours that are bugs
      (soft clip, anchor after an SNV, unchecked deletion length).
    - [MdStore]: the MD token objects in a store, with the in-place
      mutation of [next_md.size] (rover.py 179); the store model refines
      [Walker]'s list model on distinct references, extraction is
      idempotent when the tag is parsed anew for each call (as
      [process_blocks] does), and not on a shared token list.
    - [Overlap]: the block rows read from the table with [int()]
      ([block_of_row]), [proportion_overlap] and [lookup_reads] against the
      interface [BamFile] of the alignment file; the overlap proportion's
      range and monotonicity, and which reads are grouped under which
      name.
    - [Primer]: [reverse_complement], [possible_primer], [primer_diff],
      [check_primers]; Biopython's [pairwise2.align.globalxs] score is
      modelled from the spec by the recursion [align_score]; the involution
      of reverse complement, the range of the mismatch score, exact primers
      scoring 0, and the negative slice of [possible_primer].
    - [Aggregate]: the per-block state of [process_blocks]
      ([block_acc]), the CPython semantics of [set] and
      [set.intersection], the loop over pairs in the section [Process]
      (with the primer checker as a section variable, so that the
      theorems hold for [Primer.check_primers] and for any other), the
      annotation of counted variants; support counts, their order
      independence, the safety of the division by [num_pairs], the filter
      tags and the primer histograms; one iteration of the block loop
      ([process_block]) as the composition of these.
    - [Output]: [write_variant] against the interface [VcfReader] and the
      sorted coverage rows; the ID lookup that reports the last fetched
      record, and the stability of the sort; [process_blocks], the loop
      over the block rows.
    - [Args]: the [add_argument] table of [parse_args] and a model of
      Python 2.7's argparse running it (classification of the strings
      with abbreviations, the positional [bams], [--name=value], [--],
      type conversion, the errors in argparse's order), with fuel
      [1 + length argv] for its loop (every iteration moves past at least
      one string) and [1 + length] of an explicit argument for the chain
      of single-dash options; that the fuel suffices, that on command
      lines [--name=value ... -- bam ...] the loop equals a reference
      fold, the round trip of typed arguments, and that an ambiguous
      abbreviation pre-empts every other outcome.
    - [Runner]: [process_bams] with the primer sequence table, the sample
      name, [write_metadata], [output_header] and the coverage files by
      name, and [main]; the composition theorems of the run and of
      [main] on a printed command line, the table's last-row-wins
      and IndexError behaviour, the dead [exit] of the sample name, and
      that the metadata declares every filter the run can add.

    ** Modelling conventions

    - Python ints are [Z]; Python strings are [string]; a one-character
      string is built with [str1].  Python 2 dicts are [gmap]s whose
      iteration order is taken from the list [map_to_list] gives; the
      theorems that depend on no order say so ([process_pairs_perm]).
    - An exception or [exit()] is a value [Err e] of [res]; [e] says which
      ([IndexError], [KeyError], [ZeroDivisionError], [ValueError], the
      [exit()] calls of [read_variants]).  [exit()] without argument raises
      [SystemExit] with status 0.
    - The comparison [q >= None] of line 231 is Python 2's, where [None]
      is below every int ([py2_ge]).
    - Python floats are rationals [Q] (see [Overlap] for when the exact
      comparison agrees with the floating-point one); the gap penalty, a
      float option, is a whole number.
    - Loops that shrink a measure are run with fuel equal to the measure
      plus one; each such loop has a theorem that this fuel never runs out
      and that more fuel gives the same result.
    - The libraries the code calls (pysam, PyVCF, Biopython) are
      interfaces ([BamFile], [VcfReader]) or, for [pairwise2], a model
      written from the spec.

    ** Not modelled

    Logging ([logging.basicConfig], [logging.info] and [logging.warning]
    throughout) is output only and is not modelled; nor are the help,
    usage and error texts argparse prints (an outcome carries the kind
    of error and the strings it names).  Opening the files is modelled
    by functions from file names to their content ([get_block_coords]
    and [get_primer_sequence] give the rows [csv.reader] returns).  In
    [main], a namespace value the model does not take (a list, which only
    [--name=--] produces, or a gap penalty that is not a whole number)
    gives [UnmodelledArgs].  The primer histogram lines
    written to [data.dat] and [data2.dat] are not modelled: they print
    [str(score)], which is ["2"] or ["2.0"] depending on whether
    [pairwise2] returned an int or a float, a distinction the model of
    the scores as [Z] does not keep (it would need the float-ness of each
    score through [check_primers] and the block loop).  The date is the string [str(datetime.date.today())],
    and [str] of a float a parameter of [write_metadata].  A coverage file
    whose name is that of the output VCF is not modelled (the run writes
    the VCF lines and the coverage files as separate results).  Python's recursion limit in [parse_md] (an MD tag of about a
    thousand tokens would raise [RuntimeError]) is not modelled.
*)

From Stdlib Require Export ZArith Ascii String Lia.
From Stdlib Require Import DecimalString DecimalN.
From stdpp Require Export base list gmap strings.

Declare Scope rover_scope.
Delimit Scope rover_scope with rover.
Open Scope Z_scope.

(** ** The error monad *)

(** What aborts a run: an exception of the Python code, or the [exit()]
    calls of [read_variants].  [OutOfFuel] is not a behaviour of the
    program: the fuel theorems show it is never returned. *)
Inductive rover_error :=
| MdDelInCigarMatch
| NonDelMdInDelCigar
| UnexpectedCigarCode (code : Z)
| IndexError
| KeyError
| ZeroDivisionError
| ValueError
| OutOfFuel.

Inductive res (A : Type) :=
| Ok (a : A)
| Err (e : rover_error).
Arguments Ok {A} a.
Arguments Err {A} e.

Definition res_bind {A B} (m : res A) (f : A -> res B) : res B :=
  match m with
  | Ok a => f a
  | Err e => Err e
  end.

Definition res_map {A B} (f : A -> B) (m : res A) : res B :=
  match m with
  | Ok a => Ok (f a)
  | Err e => Err e
  end.

Definition of_option {A} (e : rover_error) (o : option A) : res A :=
  match o with
  | Some a => Ok a
  | None => Err e
  end.

Notation "'let!' x ':=' m 'in' k" := (res_bind m (fun x => k))
  (at level 10, x name, m at level 100, k at level 200) : rover_scope.
Open Scope rover_scope.

Lemma res_bind_Ok {A B} (m : res A) (f : A -> res B) b :
  res_bind m f = Ok b <-> exists a, m = Ok a /\ f a = Ok b.
Proof. destruct m; simpl; split; [eauto | intros (? & ? & ?); congruence | done | intros (? & ? & ?); done]. Qed.

Lemma res_bind_Err {A B} (m : res A) (f : A -> res B) e :
  res_bind m f = Err e <-> m = Err e \/ exists a, m = Ok a /\ f a = Err e.
Proof.
  destruct m as [a|e']; simpl; split.
  - eauto.
  - intros [? | (? & ? & ?)]; congruence.
  - intros H; injection H as ->; auto.
  - intros [? | (? & ? & ?)]; congruence.
Qed.

Lemma of_option_Ok {A} e (o : option A) a : of_option e o = Ok a <-> o = Some a.
Proof. destruct o; simpl; split; congruence. Qed.

(** ** Python sequences *)

(** [l[i]]: a negative index counts from the end; out of range raises
    [IndexError], here [None]. *)
Definition py_index {A} (l : list A) (i : Z) : option A :=
  if 0 <=? i then l !! Z.to_nat i
  else if - Z.of_nat (length l) <=? i
       then l !! Z.to_nat (Z.of_nat (length l) + i)
       else None.

(** The bound of a slice: negative counts from the end, then clamped to
    [0, len]. *)
Definition py_slice_bound (n i : Z) : Z :=
  if i <? 0 then Z.max 0 (i + n) else Z.min i n.

(** [l[i:j]] with step 1. *)
Definition py_slice {A} (l : list A) (i j : Z) : list A :=
  let n := Z.of_nat (length l) in
  let a := py_slice_bound n i in
  let b := py_slice_bound n j in
  take (Z.to_nat (b - a)) (drop (Z.to_nat a) l).

(** [s[-1]], the last character of a string. *)
Definition py_last_char (s : string) : option ascii :=
  py_index (list_ascii_of_string s) (-1).

Definition str1 (c : ascii) : string := String c EmptyString.

(** Python 2 orders [None] below every int: [q >= None] is [True]. *)
Definition py2_ge (q : Z) (t : option Z) : bool :=
  match t with
  | None => true
  | Some t => t <=? q
  end.

Lemma py_index_nonneg {A} (l : list A) (i : Z) :
  0 <= i -> py_index l i = l !! Z.to_nat i.
Proof. intros. unfold py_index. destruct (Z.leb_spec 0 i); [done | lia]. Qed.

Lemma py_index_Some_nonneg {A} (l : list A) (i : nat) :
  (i < length l)%nat -> is_Some (py_index l (Z.of_nat i)).
Proof.
  intros. rewrite py_index_nonneg by lia. rewrite Nat2Z.id.
  by apply lookup_lt_is_Some_2.
Qed.

Lemma py_index_is_Some {A} (l : list A) (i : Z) :
  - Z.of_nat (length l) <= i < Z.of_nat (length l) -> is_Some (py_index l i).
Proof.
  intros Hi. unfold py_index.
  destruct (Z.leb_spec 0 i), (Z.leb_spec (- Z.of_nat (length l)) i);
    try lia; apply lookup_lt_is_Some_2; lia.
Qed.

Lemma py_index_minus_one {A} (l : list A) :
  l <> [] -> py_index l (-1) = last l.
Proof.
  intros Hl. unfold py_index. simpl.
  destruct (Z.leb_spec (- Z.of_nat (length l)) (-1)).
  - rewrite last_lookup. f_equal. destruct l; [done|]. simpl length. lia.
  - destruct l; [done | simpl in *; lia].
Qed.

Lemma py_slice_from_zero {A} (l : list A) (j : nat) :
  (j <= length l)%nat -> py_slice l 0 (Z.of_nat j) = take j l.
Proof.
  intros. unfold py_slice, py_slice_bound.
  destruct (Z.ltb_spec 0 0), (Z.ltb_spec (Z.of_nat j) 0); try lia.
  rewrite !Z.min_l by lia. replace (Z.of_nat j - 0) with (Z.of_nat j) by lia.
  rewrite Nat2Z.id. done.
Qed.

Lemma py_slice_nonneg {A} (l : list A) (i j : Z) :
  0 <= i <= j -> j <= Z.of_nat (length l) ->
  py_slice l i j = take (Z.to_nat (j - i)) (drop (Z.to_nat i) l).
Proof.
  intros. unfold py_slice, py_slice_bound.
  destruct (Z.ltb_spec i 0), (Z.ltb_spec j 0); try lia.
  rewrite !Z.min_l by lia. done.
Qed.

(** ** Generic list lemmas *)

Lemma filter_none {A} (f : A -> bool) l :
  (forall x, In x l -> f x = false) -> List.filter f l = [].
Proof.
  induction l as [|x l IH]; intros Hf; simpl; [done|].
  rewrite (Hf x) by (left; done). apply IH. intros y Hy. apply Hf. by right.
Qed.

(** [String.append] is [simpl never]; these are its two equations. *)
Lemma append_String c s t : String c s +:+ t = String c (s +:+ t).
Proof. reflexivity. Qed.

Lemma append_Empty t : EmptyString +:+ t = t.
Proof. reflexivity. Qed.

Lemma append_assoc_str s t u : (s +:+ t) +:+ u = s +:+ (t +:+ u).
Proof. induction s as [|c s IH]; [done|]. rewrite !append_String. by rewrite IH. Qed.

(** ** Python [int(digits)] and [str(n)] *)

Definition is_digit (c : ascii) : bool :=
  (48 <=? N_of_ascii c)%N && (N_of_ascii c <=? 57)%N.

Definition is_upper (c : ascii) : bool :=
  (65 <=? N_of_ascii c)%N && (N_of_ascii c <=? 90)%N.

Fixpoint string_forallb (p : ascii -> bool) (s : string) : bool :=
  match s with
  | EmptyString => true
  | String c s' => p c && string_forallb p s'
  end.

Definition digit_value (c : ascii) : N := (N_of_ascii c - 48)%N.

(** [int(s)] on a string of decimal digits, read left to right. *)
Fixpoint digits_value_acc (acc : N) (s : string) : N :=
  match s with
  | EmptyString => acc
  | String c s' => digits_value_acc (10 * acc + digit_value c)%N s'
  end.

Definition py_int (s : string) : Z := Z.of_N (digits_value_acc 0 s).

(** [str(n)] for [n >= 0]: Stdlib's decimal printer. *)
Definition py_str_N (n : N) : string := NilZero.string_of_uint (N.to_uint n).

Definition py_str_Z (z : Z) : string :=
  if z <? 0 then "-" +:+ py_str_N (Z.to_N (- z)) else py_str_N (Z.to_N z).

Fixpoint uint_value_acc (acc : N) (u : Decimal.uint) : N :=
  match u with
  | Decimal.Nil => acc
  | Decimal.D0 l => uint_value_acc (10 * acc) l
  | Decimal.D1 l => uint_value_acc (10 * acc + 1) l
  | Decimal.D2 l => uint_value_acc (10 * acc + 2) l
  | Decimal.D3 l => uint_value_acc (10 * acc + 3) l
  | Decimal.D4 l => uint_value_acc (10 * acc + 4) l
  | Decimal.D5 l => uint_value_acc (10 * acc + 5) l
  | Decimal.D6 l => uint_value_acc (10 * acc + 6) l
  | Decimal.D7 l => uint_value_acc (10 * acc + 7) l
  | Decimal.D8 l => uint_value_acc (10 * acc + 8) l
  | Decimal.D9 l => uint_value_acc (10 * acc + 9) l
  end%N.

Lemma digits_string_of_uint acc u :
  digits_value_acc acc (NilEmpty.string_of_uint u) = uint_value_acc acc u.
Proof.
  revert acc; induction u; intros acc;
    cbn [NilEmpty.string_of_uint digits_value_acc uint_value_acc];
    rewrite ?IHu; try reflexivity.
  f_equal. unfold digit_value. simpl. lia.
Qed.

Lemma of_uint_acc_value l p :
  N.pos (Pos.of_uint_acc l p) = uint_value_acc (N.pos p) l.
Proof.
  revert p; induction l; intros p; cbn [Pos.of_uint_acc uint_value_acc];
    rewrite ?IHl; try reflexivity; f_equal; lia.
Qed.

Lemma of_uint_value u : N.of_uint u = uint_value_acc 0 u.
Proof.
  induction u; simpl; rewrite ?of_uint_acc_value; try reflexivity.
  exact IHu.
Qed.

Lemma py_str_N_value n : digits_value_acc 0 (py_str_N n) = n.
Proof.
  unfold py_str_N, NilZero.string_of_uint.
  destruct (N.to_uint n) eqn:E;
    try (rewrite digits_string_of_uint, <- of_uint_value, <- E;
         apply DecimalN.Unsigned.of_to).
  rewrite <- (DecimalN.Unsigned.of_to n), E. reflexivity.
Qed.

Lemma string_of_uint_digits u :
  string_forallb is_digit (NilEmpty.string_of_uint u) = true.
Proof. induction u; simpl; rewrite ?IHu; reflexivity. Qed.

(** [str(n)] is a non-empty string of digits. *)
Lemma py_str_N_digits n :
  exists c s, py_str_N n = String c s /\ is_digit c = true /\
              string_forallb is_digit s = true.
Proof.
  unfold py_str_N, NilZero.string_of_uint.
  pose proof (string_of_uint_digits (N.to_uint n)) as Hd.
  destruct (N.to_uint n); simpl in *;
    match goal with
    | |- exists c s, String ?c' ?s' = String c s /\ _ => exists c', s'
    | |- _ => exists "0"%char, EmptyString
    end; rewrite ?Hd; auto.
Qed.

(** ** [int(s)] on arbitrary text *)

(** The characters [str.strip()] removes: space, [\t], [\n], [\x0b],
    [\x0c], [\r]. *)
Definition is_space (c : ascii) : bool :=
  Ascii.eqb c " "%char || ((9 <=? N_of_ascii c)%N && (N_of_ascii c <=? 13)%N).

Fixpoint drop_spaces (l : list ascii) : list ascii :=
  match l with
  | [] => []
  | c :: l' => if is_space c then drop_spaces l' else l
  end.

(** [s.strip()]. *)
Definition py_strip (s : string) : string :=
  string_of_list_ascii (rev (drop_spaces (rev (drop_spaces (list_ascii_of_string s))))).

Definition digits_int (ds : list ascii) : res Z :=
  match ds with
  | [] => Err ValueError
  | _ => if forallb is_digit ds then Ok (py_int (string_of_list_ascii ds)) else Err ValueError
  end.

(** Python's [int(s)] for a string [s]: surrounding white space, an
    optional sign, then one or more decimal digits; anything else raises
    [ValueError]. *)
Definition py_int_str (s : string) : res Z :=
  match list_ascii_of_string (py_strip s) with
  | c :: ds =>
      if Ascii.eqb c "-"%char then res_map Z.opp (digits_int ds)
      else if Ascii.eqb c "+"%char then digits_int ds
      else digits_int (c :: ds)
  | [] => Err ValueError
  end.

Lemma drop_spaces_id c l : is_space c = false -> drop_spaces (c :: l) = c :: l.
Proof. simpl. by intros ->. Qed.

Lemma forallb_digits_string s :
  string_forallb is_digit s = true -> forallb is_digit (list_ascii_of_string s) = true.
Proof. induction s; simpl; [done|]. intros [-> ?]%andb_true_iff. by apply IHs. Qed.

Lemma digit_not_space c : is_digit c = true -> is_space c = false.
Proof.
  unfold is_digit, is_space. intros [H1 H2]%andb_true_iff.
  apply N.leb_le in H1, H2. destruct (Ascii.eqb_spec c " "%char) as [->|]; [simpl in *; lia|].
  simpl. destruct (N.leb_spec 9 (N_of_ascii c)), (N.leb_spec (N_of_ascii c) 13); simpl; lia.
Qed.

Lemma drop_spaces_nospace l : forallb (fun c => negb (is_space c)) l = true -> drop_spaces l = l.
Proof. destruct l as [|c l]; [done|]. simpl. by intros [->%negb_true_iff _]%andb_true_iff. Qed.

Lemma forallb_rev_ascii (f : ascii -> bool) l : forallb f (rev l) = forallb f l.
Proof. induction l; simpl; [done|]. rewrite forallb_app, IHl. simpl. by destruct (f a), (forallb f l). Qed.

Lemma py_strip_id s :
  forallb (fun c => negb (is_space c)) (list_ascii_of_string s) = true -> py_strip s = s.
Proof.
  intros H. unfold py_strip. rewrite (drop_spaces_nospace _ H), drop_spaces_nospace.
  - rewrite rev_involutive. apply string_of_list_ascii_of_string.
  - by rewrite forallb_rev_ascii.
Qed.

Lemma digits_nospace l : forallb is_digit l = true -> forallb (fun c => negb (is_space c)) l = true.
Proof.
  induction l as [|c l IH]; [done|]. simpl. intros [Hc Hl]%andb_true_iff.
  by rewrite (digit_not_space c Hc), IH.
Qed.

(** [str(n)] read back by [int]. *)
Lemma py_int_str_py_str_Z z : py_int_str (py_str_Z z) = Ok z.
Proof.
  destruct (py_str_N_digits (Z.to_N (Z.abs z))) as (c & s0 & Hs & Hc & Hd).
  pose proof (forallb_digits_string s0 Hd) as Hd'.
  assert (Hv : py_int (String c s0) = Z.abs z).
  { unfold py_int. rewrite <- Hs, py_str_N_value. lia. }
  assert (Hc' : Ascii.eqb c "-"%char = false /\ Ascii.eqb c "+"%char = false).
  { split; apply Ascii.eqb_neq; intros ->; discriminate Hc. }
  unfold py_str_Z, py_int_str. destruct (Z.ltb_spec z 0).
  - replace (Z.to_N (- z)) with (Z.to_N (Z.abs z)) by lia. rewrite Hs.
    rewrite py_strip_id; cbn [list_ascii_of_string forallb]; rewrite ?append_String, ?append_Empty;
      cbn [list_ascii_of_string forallb].
    + simpl. rewrite Hc, Hd'. cbn. rewrite string_of_list_ascii_of_string, Hv. f_equal. lia.
    + rewrite (digit_not_space c Hc), digits_nospace; done.
  - replace (Z.to_N z) with (Z.to_N (Z.abs z)) by lia. rewrite Hs.
    rewrite py_strip_id; cbn [list_ascii_of_string forallb].
    + destruct Hc' as [-> ->]. unfold digits_int. cbn [forallb]. rewrite Hc, Hd'. simpl.
      rewrite string_of_list_ascii_of_string, Hv. f_equal. lia.
    + rewrite (digit_not_space c Hc), digits_nospace; done.
Qed.

(** ** Automation *)

Create HintDb rover discriminated.
Create Rewrite HintDb rover_rw.
#[export] Hint Rewrite @res_bind_Ok @of_option_Ok append_String append_Empty : rover_rw.
#[export] Hint Resolve py_index_Some_nonneg : rover.

(** Take apart [res_bind m f = Ok b] and [of_option e o = Ok a]
    hypotheses produced by unfolding a definition written in [res]. *)
Ltac res_inv :=
  repeat match goal with
  | H : res_bind _ _ = Ok _ |- _ =>
      apply res_bind_Ok in H as (? & ? & ?)
  | H : of_option _ _ = Ok _ |- _ => apply of_option_Ok in H
  | H : Ok _ = Ok _ |- _ => injection H as H
  | H : Err _ = Ok _ |- _ => discriminate H
  | H : Ok _ = Err _ |- _ => discriminate H
  end.
