(* ===== verification/Bases.v ===== *)
(** * Bases: a read's bases paired with their phred qualities

    Models [ascii_to_phred], [make_base_seq] and the class [Base] of
    rover.py (lines 266-299).  The theorem [make_base_seq_get] states the
    result position by position for both branches of [make_base_seq]. *)

From S2P Require Import Prelude.

(** [class Base]: a base (a one-character string) and its quality. *)
Record Base := mkBase { base : ascii; qual : Z }.

#[export] Instance Base_eq_dec : EqDecision Base.
Proof. solve_decision. Defined.

(** [ord(ascii) - 33]. *)
Definition ascii_to_phred (c : ascii) : Z := Z.of_nat (nat_of_ascii c) - 33.

(** [[Base(b, ascii_to_phred(q)) for (b, q) in izip(bases, qualities)]]:
    [izip] stops at the shorter string. *)
Fixpoint izip_bases (bases qualities : string) : list Base :=
  match bases, qualities with
  | String b bs, String q qs => mkBase b (ascii_to_phred q) :: izip_bases bs qs
  | _, _ => []
  end.

(** The same over [chain(qualities, repeat('!'))]: once the qualities are
    used up every base gets [ascii_to_phred '!'], that is 0. *)
Fixpoint izip_bases_padded (bases qualities : string) : list Base :=
  match bases, qualities with
  | EmptyString, _ => []
  | String b bs, String q qs => mkBase b (ascii_to_phred q) :: izip_bases_padded bs qs
  | String b bs, EmptyString =>
      mkBase b (ascii_to_phred "!"%char) :: izip_bases_padded bs EmptyString
  end.

(** [make_base_seq(name, bases, qualities)]; the warning it logs in the
    second branch is not modelled. *)
Definition make_base_seq (name bases qualities : string) : list Base :=
  if (String.length bases <=? String.length qualities)%nat
  then izip_bases bases qualities
  else izip_bases_padded bases qualities.

(** The quality a base at index [i] gets: its own, or 0 past the end of
    the quality string. *)
Definition padded_quality (qualities : string) (i : nat) : Z :=
  match String.get i qualities with
  | Some q => ascii_to_phred q
  | None => 0
  end.

Lemma ascii_to_phred_bang : ascii_to_phred "!"%char = 0.
Proof. reflexivity. Qed.

Lemma ascii_to_phred_bounds c : -33 <= ascii_to_phred c <= 222.
Proof.
  unfold ascii_to_phred. pose proof (nat_ascii_bounded c). lia.
Qed.

Lemma izip_bases_length bs qs :
  (String.length bs <= String.length qs)%nat ->
  length (izip_bases bs qs) = String.length bs.
Proof.
  revert qs; induction bs as [|b bs IH]; intros [|q qs] H; simpl in *; try lia.
  rewrite IH; lia.
Qed.

Lemma izip_bases_padded_length bs qs :
  length (izip_bases_padded bs qs) = String.length bs.
Proof.
  revert qs; induction bs as [|b bs IH]; intros [|q qs]; simpl; rewrite ?IH; done.
Qed.

Lemma izip_bases_get bs qs i b :
  (String.length bs <= String.length qs)%nat -> String.get i bs = Some b ->
  izip_bases bs qs !! i = Some (mkBase b (padded_quality qs i)).
Proof.
  unfold padded_quality.
  revert qs i; induction bs as [|b' bs IH]; intros [|q qs] [|i] Hl Hg;
    simpl in *; try lia; try discriminate.
  - by injection Hg as ->.
  - apply IH; [lia | done].
Qed.

Lemma izip_bases_padded_get bs qs i b :
  String.get i bs = Some b ->
  izip_bases_padded bs qs !! i = Some (mkBase b (padded_quality qs i)).
Proof.
  unfold padded_quality.
  revert qs i; induction bs as [|b' bs IH]; intros [|q qs] [|i] Hg;
    simpl in *; try discriminate.
  - by injection Hg as ->.
  - rewrite IH by done. by destruct i.
  - by injection Hg as ->.
  - by apply IH.
Qed.

(** [make_base_seq] keeps one [Base] per read base, whichever branch
    it takes. *)
Lemma make_base_seq_length name bs qs :
  length (make_base_seq name bs qs) = String.length bs.
Proof.
  unfold make_base_seq. destruct (Nat.leb_spec (String.length bs) (String.length qs)).
  - by apply izip_bases_length.
  - apply izip_bases_padded_length.
Qed.

(** the [i]-th [Base] pairs the [i]-th read base with the [i]-th
    quality, or with phred 0 when the quality string is shorter. *)
Lemma make_base_seq_get name bs qs i b :
  String.get i bs = Some b ->
  make_base_seq name bs qs !! i = Some (mkBase b (padded_quality qs i)).
Proof.
  unfold make_base_seq. destruct (Nat.leb_spec (String.length bs) (String.length qs)).
  - by apply izip_bases_get.
  - apply izip_bases_padded_get.
Qed.

(** ** Witness *)

Lemma make_base_seq_get_witness :
  String.get 3 "ACGTA" = Some "T"%char /\
  make_base_seq "r1" "ACGTA" "II" !! 3%nat = Some (mkBase "T" (padded_quality "II" 3)).
Proof. split; [reflexivity | apply make_base_seq_get; reflexivity]. Defined.
