(* ===== verification/Variants.v ===== *)
(** * Variants: the classes [SNV], [Insertion] and [Deletion]

    Models rover.py lines 301-419.  A variant object carries its position,
    its alleles, a [filter] (Python [None] or a string of [";tag"]s), an
    [info] list, and for an indel the [context] (anchor) base.  Python
    compares and hashes variants by [as_tuple], which drops quality,
    filter, info and context; sets and dicts of variants use it. *)

From S2P Require Import Prelude.

Record SNV := mkSNV {
  snv_chr : string; snv_pos : Z; snv_ref_base : string; snv_seq_base : string;
  snv_qual : Z; snv_filter : option string; snv_info : list string }.

Record Insertion := mkInsertion {
  ins_chr : string; ins_pos : Z; ins_inserted_bases : string; ins_qual : string;
  ins_filter : option string; ins_info : list string; ins_context : string }.

Record Deletion := mkDeletion {
  del_chr : string; del_pos : Z; del_deleted_bases : string; del_qual : string;
  del_filter : option string; del_info : list string; del_context : string }.

(** A variant object is an instance of one of the three classes. *)
Inductive variant :=
| VSNV (s : SNV)
| VIns (i : Insertion)
| VDel (d : Deletion).

(** [SNV.__init__]: [info] starts empty. *)
Definition new_SNV chr pos ref_base seq_base qual filter : variant :=
  VSNV (mkSNV chr pos ref_base seq_base qual filter []).

(** The context normalisation of [Insertion.__init__] and
    [Deletion.__init__]: an unknown anchor ([None], ['S'] or ['H']) becomes
    ['-'] with the tag [BS=T], [SC=T] or [HC=T]. *)
Definition context_info (context : option string) : list string * string :=
  match context with
  | None => (["BS=T"], "-")
  | Some c =>
      if String.eqb c "S" then (["SC=T"], "-")
      else if String.eqb c "H" then (["HC=T"], "-")
      else ([], c)
  end.

Definition new_Insertion chr pos inserted_bases qual filter context : variant :=
  let '(info, ctx) := context_info context in
  VIns (mkInsertion chr pos inserted_bases qual filter info ctx).

Definition new_Deletion chr pos deleted_bases qual filter context : variant :=
  let '(info, ctx) := context_info context in
  VDel (mkDeletion chr pos deleted_bases qual filter info ctx).

(** The tuples [as_tuple] returns: four fields for an SNV, three for an
    insertion or a deletion. *)
Inductive pytuple :=
| Tup4 (a : string) (b : Z) (c d : string)
| Tup3 (a : string) (b : Z) (c : string).

#[export] Instance pytuple_eq_dec : EqDecision pytuple.
Proof. solve_decision. Defined.

#[export] Instance pytuple_countable : Countable pytuple.
Proof.
  refine (inj_countable'
    (fun t => match t with
              | Tup4 a b c d => inl (a, b, c, d)
              | Tup3 a b c => inr (a, b, c) end)
    (fun s => match s with
              | inl (a, b, c, d) => Tup4 a b c d
              | inr (a, b, c) => Tup3 a b c end) _).
  by intros [].
Defined.

Definition as_tuple (v : variant) : pytuple :=
  match v with
  | VSNV s => Tup4 (snv_chr s) (snv_pos s) (snv_ref_base s) (snv_seq_base s)
  | VIns i => Tup3 (ins_chr i) (ins_pos i) (ins_inserted_bases i)
  | VDel d => Tup3 (del_chr d) (del_pos d) (del_deleted_bases d)
  end.

(** [__eq__] (and [__hash__], which agrees with it). *)
Definition variant_eqb (v w : variant) : bool :=
  bool_decide (as_tuple v = as_tuple w).

Definition var_chr (v : variant) : string :=
  match v with VSNV s => snv_chr s | VIns i => ins_chr i | VDel d => del_chr d end.

(** The attribute [pos], the event coordinate the block test reads. *)
Definition var_pos (v : variant) : Z :=
  match v with VSNV s => snv_pos s | VIns i => ins_pos i | VDel d => del_pos d end.

Definition var_filter (v : variant) : option string :=
  match v with
  | VSNV s => snv_filter s | VIns i => ins_filter i | VDel d => del_filter d end.

Definition var_info (v : variant) : list string :=
  match v with VSNV s => snv_info s | VIns i => ins_info i | VDel d => del_info d end.

(** [ref()], [alt()] and [position()]: an indel is written at its anchor
    base, one before the event. *)
Definition ref (v : variant) : string :=
  match v with
  | VSNV s => snv_ref_base s
  | VIns i => ins_context i
  | VDel d => del_context d +:+ del_deleted_bases d
  end.

Definition alt (v : variant) : string :=
  match v with
  | VSNV s => snv_seq_base s
  | VIns i => ins_context i +:+ ins_inserted_bases i
  | VDel d => del_context d
  end.

Definition position (v : variant) : Z :=
  match v with
  | VSNV s => snv_pos s
  | VIns i => ins_pos i - 1
  | VDel d => del_pos d - 1
  end.

(** [s[1:]] on a string. *)
Definition drop1 (s : string) : string :=
  match s with EmptyString => EmptyString | String _ s' => s' end.

(** [fil()]: [PASS] when no filter was set, else the filter without its
    leading [';']. *)
Definition fil (v : variant) : string :=
  match var_filter v with
  | None => "PASS"
  | Some f => drop1 f
  end.

(** [nts(s)]: [None] becomes the empty string. *)
Definition nts (s : option string) : string :=
  match s with None => "" | Some s => s end.

(** [var.filter = ''.join([nts(var.filter), tag])] (lines 753, 755). *)
Definition add_filter (tag : string) (v : variant) : variant :=
  let f := Some (nts (var_filter v) +:+ tag) in
  match v with
  | VSNV s => VSNV {| snv_chr := snv_chr s; snv_pos := snv_pos s;
      snv_ref_base := snv_ref_base s; snv_seq_base := snv_seq_base s;
      snv_qual := snv_qual s; snv_filter := f; snv_info := snv_info s |}
  | VIns i => VIns {| ins_chr := ins_chr i; ins_pos := ins_pos i;
      ins_inserted_bases := ins_inserted_bases i; ins_qual := ins_qual i;
      ins_filter := f; ins_info := ins_info i; ins_context := ins_context i |}
  | VDel d => VDel {| del_chr := del_chr d; del_pos := del_pos d;
      del_deleted_bases := del_deleted_bases d; del_qual := del_qual d;
      del_filter := f; del_info := del_info d; del_context := del_context d |}
  end.

(** [var.info.append(tag)] (lines 748-751). *)
Definition add_info (tag : string) (v : variant) : variant :=
  match v with
  | VSNV s => VSNV {| snv_chr := snv_chr s; snv_pos := snv_pos s;
      snv_ref_base := snv_ref_base s; snv_seq_base := snv_seq_base s;
      snv_qual := snv_qual s; snv_filter := snv_filter s;
      snv_info := snv_info s ++ [tag] |}
  | VIns i => VIns {| ins_chr := ins_chr i; ins_pos := ins_pos i;
      ins_inserted_bases := ins_inserted_bases i; ins_qual := ins_qual i;
      ins_filter := ins_filter i; ins_info := ins_info i ++ [tag];
      ins_context := ins_context i |}
  | VDel d => VDel {| del_chr := del_chr d; del_pos := del_pos d;
      del_deleted_bases := del_deleted_bases d; del_qual := del_qual d;
      del_filter := del_filter d; del_info := del_info d ++ [tag];
      del_context := del_context d |}
  end.

(** ** Equality of variant objects *)

Lemma variant_eqb_spec v w : variant_eqb v w = true <-> as_tuple v = as_tuple w.
Proof. unfold variant_eqb. apply bool_decide_eq_true. Qed.

Lemma as_tuple_add_filter tag v : as_tuple (add_filter tag v) = as_tuple v.
Proof. by destruct v. Qed.

Lemma as_tuple_add_info tag v : as_tuple (add_info tag v) = as_tuple v.
Proof. by destruct v. Qed.

Lemma var_pos_add_filter tag v : var_pos (add_filter tag v) = var_pos v.
Proof. by destruct v. Qed.

Lemma var_pos_add_info tag v : var_pos (add_info tag v) = var_pos v.
Proof. by destruct v. Qed.

Lemma var_filter_add_filter tag v : var_filter (add_filter tag v) = Some (nts (var_filter v) +:+ tag).
Proof. by destruct v. Qed.

Lemma var_filter_add_info tag v : var_filter (add_info tag v) = var_filter v.
Proof. by destruct v. Qed.

Lemma var_info_add_filter tag v : var_info (add_filter tag v) = var_info v.
Proof. by destruct v. Qed.

Lemma var_info_add_info tag v : var_info (add_info tag v) = var_info v ++ [tag].
Proof. by destruct v. Qed.

#[export] Hint Rewrite as_tuple_add_filter as_tuple_add_info
  var_pos_add_filter var_pos_add_info var_filter_add_filter var_filter_add_info
  var_info_add_filter var_info_add_info : rover_rw.

(** two variant objects are equal exactly when they are of the same
    class at the same chromosome, position and alleles; quality, filter,
    info and indel context play no part. *)
Lemma variant_eq_ignores_annotations chr pos a b q1 q2 f1 f2 c1 c2 :
  variant_eqb (new_SNV chr pos a b q1 f1) (new_SNV chr pos a b q2 f2) = true /\
  variant_eqb (new_Insertion chr pos a "-" f1 c1)
              (new_Insertion chr pos a "-" f2 c2) = true /\
  variant_eqb (new_Deletion chr pos a "-" f1 c1)
              (new_Deletion chr pos a "-" f2 c2) = true.
Proof.
  unfold new_Insertion, new_Deletion.
  destruct (context_info c1), (context_info c2).
  rewrite !variant_eqb_spec. done.
Qed.

(** C6: an insertion and a deletion of the same bases at the same position
    are equal objects, since both [as_tuple]s are
    [(chr, pos, bases)].  The consensus of a pair and the support count
    conflate them. *)
Theorem insertion_eq_deletion chr pos bases q1 q2 f1 f2 c1 c2 :
  variant_eqb (new_Insertion chr pos bases q1 f1 c1)
              (new_Deletion chr pos bases q2 f2 c2) = true.
Proof.
  unfold new_Insertion, new_Deletion.
  destruct (context_info c1), (context_info c2).
  by apply variant_eqb_spec.
Qed.

(** An SNV is never equal to an indel. *)
Lemma snv_neq_indel s v :
  (exists i, v = VIns i) \/ (exists d, v = VDel d) ->
  variant_eqb (VSNV s) v = false.
Proof.
  intros [[i ->] | [d ->]]; unfold variant_eqb; by rewrite bool_decide_eq_false.
Qed.
