(* ===== verification/MdParse.v ===== *)
(** * MdParse: the MD tag and its parser

    Models the classes [MD_match], [MD_mismatch], [MD_deletion] and the
    parsers [parse_md], [parse_md_snv], [parse_md_del] of rover.py
    (lines 421-476).  Each parser tests a regular expression with
    [re.match]; the three matchers below are those expressions: a greedy
    [[0-9]+], one [[A-Z]], or [\^[A-Z]+], each followed by [(.* )], which
    keeps the rest of the string up to the first newline.

    The three parsers call each other in tail position; they are run with
    fuel, and [parse_md_enough_fuel] shows that the fuel [parse_md] gives
    them never runs out.  [parse_print_md] is the round trip on the MD
    grammar; [print_parse_md_not_roundtrip] shows that the other direction
    fails on numbers written with a leading zero. *)

From S2P Require Import Prelude.

Inductive md_token :=
| MD_match (size : Z)
| MD_mismatch (ref_base : string)
| MD_deletion (ref_bases : string).

#[export] Instance md_token_eq_dec : EqDecision md_token.
Proof. solve_decision. Defined.

(** ** The regular expressions *)

(** The longest prefix of characters satisfying [p], and the rest. *)
Fixpoint span (p : ascii -> bool) (s : string) : string * string :=
  match s with
  | EmptyString => (EmptyString, EmptyString)
  | String c s' =>
      if p c then let '(a, b) := span p s' in (String c a, b)
      else (EmptyString, s)
  end.

(** What [(.* )] captures: everything before the first ['\n']. *)
Fixpoint take_line (s : string) : string :=
  match s with
  | EmptyString => EmptyString
  | String c s' => if Ascii.eqb c "010"%char then EmptyString else String c (take_line s')
  end.

(** [re.match('([0-9]+)(.* )', md)], returning [int] of group 1 and
    group 2. *)
Definition number_match (md : string) : option (Z * string) :=
  let '(ds, rest) := span is_digit md in
  match ds with
  | EmptyString => None
  | _ => Some (py_int ds, take_line rest)
  end.

(** [re.match('([A-Z])(.* )', md)]. *)
Definition snv_match (md : string) : option (string * string) :=
  match md with
  | String c rest => if is_upper c then Some (str1 c, take_line rest) else None
  | EmptyString => None
  end.

(** [re.match('(\^[A-Z]+)(.* )', md)], returning group 1 without its
    ['^'] ([del_groups[0][1:]]) and group 2. *)
Definition del_match (md : string) : option (string * string) :=
  match md with
  | String c rest =>
      if Ascii.eqb c "^"%char then
        let '(us, r) := span is_upper rest in
        match us with
        | EmptyString => None
        | _ => Some (us, take_line r)
        end
      else None
  | EmptyString => None
  end.

(** ** The parsers *)

(** [if md:] *)
Definition nonempty (s : string) : bool :=
  match s with EmptyString => false | _ => true end.

Fixpoint parse_md_f (fuel : nat) (md : string) (result : list md_token)
  : option (list md_token) :=
  match fuel with
  | O => None
  | S f =>
      if nonempty md then
        match number_match md with
        | Some (number, md') => parse_md_snv_f f md' (result ++ [MD_match number])
        | None => Some result
        end
      else Some result
  end
with parse_md_snv_f (fuel : nat) (md : string) (result : list md_token)
  : option (list md_token) :=
  match fuel with
  | O => None
  | S f =>
      if nonempty md then
        match snv_match md with
        | Some (ref_base, md') => parse_md_f f md' (result ++ [MD_mismatch ref_base])
        | None => parse_md_del_f f md result
        end
      else Some result
  end
with parse_md_del_f (fuel : nat) (md : string) (result : list md_token)
  : option (list md_token) :=
  match fuel with
  | O => None
  | S f =>
      if nonempty md then
        match del_match md with
        | Some (ref_bases, md') => parse_md_f f md' (result ++ [MD_deletion ref_bases])
        | None => Some result
        end
      else Some result
  end.

(** [parse_md(md, result)] *)
Definition parse_md (md : string) (result : list md_token) : option (list md_token) :=
  parse_md_f (2 * String.length md + 2) md result.

(** The token list of a read, as [process_blocks] obtains it with
    [parse_md(get_MD(read), [])]; a read without an MD tag gives [None],
    which [if md:] treats like the empty string. *)
Definition md_tokens (md : option string) : list md_token :=
  match parse_md (default EmptyString md) [] with
  | Some toks => toks
  | None => []
  end.

(** ** Printing: the [__str__] of the tokens, concatenated *)

Definition print_token (t : md_token) : string :=
  match t with
  | MD_match size => py_str_N (Z.to_N size)
  | MD_mismatch ref_base => ref_base
  | MD_deletion ref_bases => "^" +:+ ref_bases
  end.

Fixpoint print_md (toks : list md_token) : string :=
  match toks with
  | [] => EmptyString
  | t :: ts => print_token t +:+ print_md ts
  end.

(** The MD grammar [[0-9]+(([A-Z]|\^[A-Z]+)[0-9]+)*] on tokens. *)
Definition md_letter_ok (t : md_token) : bool :=
  match t with
  | MD_match _ => false
  | MD_mismatch (String c EmptyString) => is_upper c
  | MD_mismatch _ => false
  | MD_deletion s => nonempty s && string_forallb is_upper s
  end.

Inductive md_wf : list md_token -> Prop :=
| md_wf_end n : 0 <= n -> md_wf [MD_match n]
| md_wf_step n t rest :
    0 <= n -> md_letter_ok t = true -> md_wf rest -> md_wf (MD_match n :: t :: rest).

(** The grammar as a checker. *)
Fixpoint md_wellformed (toks : list md_token) : bool :=
  match toks with
  | MD_match n :: rest =>
      (0 <=? n) && match rest with
                   | [] => true
                   | t :: rest' => md_letter_ok t && md_wellformed rest'
                   end
  | _ => false
  end.

Lemma md_wellformed_sound : forall toks, md_wellformed toks = true -> md_wf toks.
Proof.
  fix IH 1. intros [|[n|r|s] [|t rest]] H; simpl in H; try discriminate;
    rewrite ?andb_true_iff, ?Z.leb_le in H.
  - apply md_wf_end. tauto.
  - destruct H as [Hn [Ht Hr]]. apply md_wf_step; [done | done | by apply IH].
Qed.

(** ** Lengths of what the matchers leave *)

Lemma span_length p s :
  (String.length (span p s).1 + String.length (span p s).2 = String.length s)%nat.
Proof.
  induction s as [|c s IH]; simpl; [done|].
  destruct (p c); [|done]. destruct (span p s) eqn:E. simpl in *. lia.
Qed.

Lemma take_line_length s : (String.length (take_line s) <= String.length s)%nat.
Proof. induction s as [|c s IH]; simpl; [lia|]. destruct (Ascii.eqb c _); simpl; lia. Qed.

Lemma number_match_length md n r :
  number_match md = Some (n, r) -> (String.length r < String.length md)%nat.
Proof.
  unfold number_match. pose proof (span_length is_digit md) as H.
  destruct (span is_digit md) as [[|c ds] rest]; intros E; [done|].
  injection E as <- <-. simpl in H. pose proof (take_line_length rest). lia.
Qed.

Lemma snv_match_length md c r :
  snv_match md = Some (c, r) -> (String.length r < String.length md)%nat.
Proof.
  destruct md as [|c' md]; simpl; [done|]. destruct (is_upper c'); [|done].
  intros E; injection E as <- <-. pose proof (take_line_length md). lia.
Qed.

Lemma del_match_length md bs r :
  del_match md = Some (bs, r) -> (String.length r + 2 <= String.length md)%nat.
Proof.
  destruct md as [|c md]; simpl; [done|]. destruct (Ascii.eqb c _); [|done].
  pose proof (span_length is_upper md) as H.
  destruct (span is_upper md) as [[|u us] rest]; intros E; [done|].
  injection E as <- <-. simpl in H. pose proof (take_line_length rest). lia.
Qed.

(** ** Fuel *)

(** Unfold one call of the three parsers. *)
Ltac parse_step :=
  cbn [parse_md_f parse_md_snv_f parse_md_del_f];
  repeat match goal with
  | |- context [if nonempty ?md then _ else _] => destruct (nonempty md)
  | |- context [match number_match ?md with _ => _ end] =>
      destruct (number_match md) as [[? ?]|] eqn:?
  | |- context [match snv_match ?md with _ => _ end] =>
      destruct (snv_match md) as [[? ?]|] eqn:?
  | |- context [match del_match ?md with _ => _ end] =>
      destruct (del_match md) as [[? ?]|] eqn:?
  end.

(** More fuel never changes a result. *)
Lemma parse_md_fuel_mono fuel : forall fuel', (fuel <= fuel')%nat ->
  (forall md r x, parse_md_f fuel md r = Some x -> parse_md_f fuel' md r = Some x) /\
  (forall md r x, parse_md_snv_f fuel md r = Some x -> parse_md_snv_f fuel' md r = Some x) /\
  (forall md r x, parse_md_del_f fuel md r = Some x -> parse_md_del_f fuel' md r = Some x).
Proof.
  induction fuel as [|f IH]; intros [|f'] Hle; [split_and!; done .. | lia |].
  destruct (IH f' ltac:(lia)) as (IHn & IHs & IHd).
  split_and!; intros md r x; parse_step; auto.
Qed.

Lemma parse_md_fuel_le fuel fuel' md r x :
  (fuel <= fuel')%nat -> parse_md_f fuel md r = Some x -> parse_md_f fuel' md r = Some x.
Proof. intros H. by apply parse_md_fuel_mono. Qed.

(** Fuel [2 * length + 1] (for [parse_md] and [parse_md_del]) and
    [2 * length + 2] (for [parse_md_snv]) is enough. *)
Lemma parse_md_fuel_enough fuel :
  (forall md r, (2 * String.length md + 1 <= fuel)%nat -> is_Some (parse_md_f fuel md r)) /\
  (forall md r, (2 * String.length md + 2 <= fuel)%nat -> is_Some (parse_md_snv_f fuel md r)) /\
  (forall md r, (2 * String.length md + 1 <= fuel)%nat -> is_Some (parse_md_del_f fuel md r)).
Proof.
  induction fuel as [|f (IHn & IHs & IHd)]; [split_and!; intros; lia|].
  split_and!; intros md r Hf; parse_step; eauto;
  repeat match goal with
  | H : number_match _ = Some _ |- _ => apply number_match_length in H
  | H : snv_match _ = Some _ |- _ => apply snv_match_length in H
  | H : del_match _ = Some _ |- _ => apply del_match_length in H
  end;
  match goal with
  | |- is_Some (parse_md_f _ _ _) => apply IHn
  | |- is_Some (parse_md_snv_f _ _ _) => apply IHs
  | |- is_Some (parse_md_del_f _ _ _) => apply IHd
  end; lia.
Qed.

(** C39: the parser always returns a token list (its fuel never runs out),
    and any larger fuel returns the same list. *)
Theorem parse_md_enough_fuel md r fuel :
  (2 * String.length md + 2 <= fuel)%nat ->
  is_Some (parse_md md r) /\ parse_md_f fuel md r = parse_md md r.
Proof.
  intros Hf.
  destruct (proj1 (parse_md_fuel_enough (2 * String.length md + 2)) md r ltac:(lia))
    as [x Hx].
  unfold parse_md. rewrite Hx. split; [done|].
  apply (parse_md_fuel_le _ _ _ _ _ Hf Hx).
Qed.

Lemma parse_md_f_parse_md fuel md r x :
  parse_md_f fuel md r = Some x -> parse_md md r = Some x.
Proof.
  intros H.
  destruct (proj1 (parse_md_fuel_enough (2 * String.length md + 2)) md r ltac:(lia))
    as [y Hy].
  unfold parse_md. rewrite Hy.
  pose proof (parse_md_fuel_le fuel (Nat.max fuel (2 * String.length md + 2)) md r x
                (Nat.le_max_l _ _) H) as H1.
  pose proof (parse_md_fuel_le _ (Nat.max fuel (2 * String.length md + 2)) md r y
                (Nat.le_max_r _ _) Hy) as H2.
  congruence.
Qed.

(** ** The round trip *)

Definition not_newline (c : ascii) : bool := negb (Ascii.eqb c "010"%char).

(** [b] does not start with a character satisfying [p]. *)
Definition head_not (p : ascii -> bool) (b : string) : bool :=
  match b with EmptyString => true | String c _ => negb (p c) end.

Lemma string_forallb_app p a b :
  string_forallb p (a +:+ b) = string_forallb p a && string_forallb p b.
Proof. induction a as [|c a IH]; simpl; [done|]. by rewrite IH, andb_assoc. Qed.

Lemma string_forallb_impl (p q : ascii -> bool) s :
  (forall c, p c = true -> q c = true) ->
  string_forallb p s = true -> string_forallb q s = true.
Proof.
  intros Hpq. induction s as [|c s IH]; simpl; [done|].
  rewrite !andb_true_iff. intros [? ?]; auto.
Qed.

Lemma span_app p a b :
  string_forallb p a = true -> head_not p b = true -> span p (a +:+ b) = (a, b).
Proof.
  induction a as [|c a IH]; simpl.
  - destruct b as [|c b]; simpl; [done|]. intros _ Hc. by destruct (p c).
  - rewrite andb_true_iff. intros [-> Ha] Hb. by rewrite IH.
Qed.

Lemma take_line_id s : string_forallb not_newline s = true -> take_line s = s.
Proof.
  induction s as [|c s IH]; simpl; [done|].
  unfold not_newline. destruct (Ascii.eqb c _); simpl; [done|].
  intros H. by rewrite IH.
Qed.

Lemma digit_not_newline c : is_digit c = true -> not_newline c = true.
Proof. unfold not_newline. destruct (Ascii.eqb_spec c "010"%char); by subst. Qed.

Lemma upper_not_newline c : is_upper c = true -> not_newline c = true.
Proof. unfold not_newline. destruct (Ascii.eqb_spec c "010"%char); by subst. Qed.

Lemma digit_not_upper c : is_digit c = true -> is_upper c = false.
Proof.
  unfold is_digit, is_upper. rewrite andb_true_iff, !N.leb_le.
  intros. apply andb_false_iff. left. apply N.leb_gt. lia.
Qed.

Lemma py_int_py_str n : py_int (py_str_N n) = Z.of_N n.
Proof. unfold py_int. by rewrite py_str_N_value. Qed.

#[export] Hint Resolve digit_not_newline upper_not_newline : rover.

Lemma py_str_N_no_newline n : string_forallb not_newline (py_str_N n) = true.
Proof.
  destruct (py_str_N_digits n) as (c & s & -> & Hc & Hs). simpl.
  rewrite digit_not_newline by done. eauto using string_forallb_impl, digit_not_newline.
Qed.

Definition is_mismatch (t : md_token) : bool :=
  match t with MD_mismatch _ => true | _ => false end.

Lemma letter_print t :
  md_letter_ok t = true ->
  string_forallb not_newline (print_token t) = true /\
  head_not is_digit (print_token t) = true /\
  head_not is_upper (print_token t) = negb (is_mismatch t).
Proof.
  destruct t as [|[|u []]|d]; simpl; try done; intros Ht.
  - rewrite upper_not_newline by done. split_and!; [done| |].
    + destruct (is_digit u) eqn:Hd; [|done]. by rewrite digit_not_upper in Ht.
    + by rewrite Ht.
  - apply andb_true_iff in Ht as [_ Ht].
    split_and!; [|done..]. exact (string_forallb_impl _ _ _ upper_not_newline Ht).
Qed.


Lemma parse_md_f_S f md r : parse_md_f (S f) md r =
  if nonempty md then
    match number_match md with
    | Some (number, md') => parse_md_snv_f f md' (r ++ [MD_match number])
    | None => Some r
    end
  else Some r.
Proof. reflexivity. Qed.

Lemma parse_md_snv_f_S f md r : parse_md_snv_f (S f) md r =
  if nonempty md then
    match snv_match md with
    | Some (ref_base, md') => parse_md_f f md' (r ++ [MD_mismatch ref_base])
    | None => parse_md_del_f f md r
    end
  else Some r.
Proof. reflexivity. Qed.

Lemma parse_md_del_f_S f md r : parse_md_del_f (S f) md r =
  if nonempty md then
    match del_match md with
    | Some (ref_bases, md') => parse_md_f f md' (r ++ [MD_deletion ref_bases])
    | None => Some r
    end
  else Some r.
Proof. reflexivity. Qed.

(** A well-formed MD string starts with a digit and has no newline. *)
Lemma print_md_wf toks :
  md_wf toks ->
  (exists c s, print_md toks = String c s /\ is_digit c = true) /\
  string_forallb not_newline (print_md toks) = true.
Proof.
  induction 1 as [n Hn | n t rest Hn Ht Hrest [_ IH]]; simpl;
    destruct (py_str_N_digits (Z.to_N n)) as (c & s & Hcs & Hc & Hs);
    rewrite ?string_forallb_app, py_str_N_no_newline, Hcs; simpl; (split; [eauto|]).
  - done.
  - by rewrite (proj1 (letter_print t Ht)), IH.
Qed.

Lemma number_match_print n b :
  0 <= n -> head_not is_digit b = true ->
  number_match (py_str_N (Z.to_N n) +:+ b) = Some (n, take_line b).
Proof.
  intros Hn Hb. unfold number_match.
  destruct (py_str_N_digits (Z.to_N n)) as (c & s & Hcs & Hc & Hs).
  rewrite span_app; [| rewrite Hcs; simpl; by rewrite Hc, Hs | done].
  rewrite Hcs, <- Hcs, py_int_py_str, Z2N.id by done. done.
Qed.

Lemma nonempty_py_str n b : nonempty (py_str_N n +:+ b) = true.
Proof. by destruct (py_str_N_digits n) as (c & s & -> & _). Qed.

Lemma parse_print_md_f toks :
  md_wf toks -> forall r fuel, (4 * length toks <= fuel)%nat ->
  parse_md_f fuel (print_md toks) r = Some (r ++ toks).
Proof.
  induction 1 as [n Hn | n t rest Hn Ht Hrest IH];
    intros r [|[|[|f]]] Hf; simpl length in Hf; try lia;
    cbn [print_md print_token]; rewrite parse_md_f_S, nonempty_py_str.
  - by rewrite number_match_print.
  - destruct (letter_print t Ht) as (Hnl & Hd & Hu).
    destruct (print_md_wf rest Hrest) as [(c' & s' & Hp & Hc') Hnl'].
    destruct t as [|[|u []]|[|d0 d]]; simpl in Ht, Hd, Hnl; try done;
      rewrite number_match_print by done.
    all: rewrite take_line_id by (rewrite string_forallb_app; simpl in *;
                                  by rewrite Hnl, Hnl').
    all: rewrite parse_md_snv_f_S; cbn [print_token];
      rewrite ?append_String, ?append_Empty; cbn [nonempty snv_match].
    + rewrite Ht, take_line_id, IH by (done || lia).
      by rewrite <- !app_assoc.
    + destruct f as [|f]; [lia|].
      change (is_upper "^") with false; cbn iota.
      rewrite parse_md_del_f_S. cbn [nonempty del_match].
      change (("^" =? "^")%char) with true; cbn iota.
      rewrite span_app.
      * rewrite take_line_id, IH by (done || lia).
        by rewrite <- !app_assoc.
      * simpl in Ht |- *. exact Ht.
      * rewrite Hp. simpl. by rewrite digit_not_upper.
Qed.

(** C38: parsing the printed form of a token list that follows the MD
    grammar (a non-negative match length, then mismatches of one
    upper-case letter or deletions of one or more upper-case letters,
    each followed by a match length) gives the token list back. *)
Theorem parse_print_md toks :
  md_wellformed toks = true -> parse_md (print_md toks) [] = Some toks.
Proof.
  intros Hwf%md_wellformed_sound. apply (parse_md_f_parse_md (4 * length toks)).
  by rewrite (parse_print_md_f toks Hwf [] (4 * length toks)).
Qed.

(** the other direction fails: the MD grammar allows a number with a
    leading zero, which the parser reads with [int] and so cannot print
    back. *)
Theorem print_parse_md_not_roundtrip :
  exists s toks, parse_md s [] = Some toks /\ print_md toks <> s.
Proof. exists "05", [MD_match 5]. split; [reflexivity | discriminate]. Qed.

(** after a number, a character that is neither a digit, an upper-case
    letter nor ['^'] ends the parse silently: the rest of the tag is
    dropped. *)
Theorem parse_md_truncates n c s :
  0 <= n -> is_digit c = false -> is_upper c = false -> Ascii.eqb c "^"%char = false ->
  parse_md (py_str_N (Z.to_N n) +:+ String c s) [] = Some [MD_match n].
Proof.
  intros Hn Hd Hu Hc. apply (parse_md_f_parse_md 3).
  rewrite parse_md_f_S, nonempty_py_str, number_match_print by (simpl; by rewrite ?Hd).
  destruct (Ascii.eqb_spec c "010"%char) as [->|Hnl].
  - reflexivity.
  - cbn [take_line]. assert (Ascii.eqb c "010"%char = false) as -> by
      (by apply Ascii.eqb_neq).
    cbn. by rewrite Hu, Hc.
Qed.

(** ** The shape of every parse *)

(** Reading a token list against the grammar: [Some true] when a match
    length is expected next, [Some false] when a mismatch or a deletion
    is, [None] when a token is out of place or ill-formed (a negative
    length, a mismatch of other than one upper-case letter, a deletion of
    no letters or of others). *)
Fixpoint md_state (expect_number : bool) (toks : list md_token) : option bool :=
  match toks with
  | [] => Some expect_number
  | t :: rest =>
      if expect_number then
        match t with
        | MD_match n => if 0 <=? n then md_state false rest else None
        | _ => None
        end
      else if md_letter_ok t then md_state true rest else None
  end.

Lemma md_state_app b r t :
  md_state b (r ++ [t]) =
  match md_state b r with Some b' => md_state b' [t] | None => None end.
Proof.
  revert b; induction r as [|u r IH]; intros b; [done|]. simpl.
  destruct b; [destruct u; try done; by destruct (0 <=? _)|].
  by destruct (md_letter_ok u).
Qed.

Lemma number_match_nonneg md n rest : number_match md = Some (n, rest) -> 0 <= n.
Proof.
  unfold number_match. destruct (span is_digit md) as [ds r].
  destruct ds; intros H; [done|]. injection H as <- _. unfold py_int. lia.
Qed.

Lemma snv_match_ok md b rest : snv_match md = Some (b, rest) -> md_letter_ok (MD_mismatch b) = true.
Proof.
  unfold snv_match. destruct md as [|c md]; [done|].
  destruct (is_upper c) eqn:E; intros H; [|done]. by injection H as <- _.
Qed.

Lemma span_forallb p s a b : span p s = (a, b) -> string_forallb p a = true.
Proof.
  revert a b; induction s as [|c s IH]; intros a b; simpl; [by intros [= <- _]|].
  destruct (p c) eqn:E; [|by intros [= <- _]].
  destruct (span p s) as [a' b'] eqn:Es. intros [= <- _]. simpl. rewrite E. by eapply IH.
Qed.

Lemma del_match_ok md bs rest : del_match md = Some (bs, rest) -> md_letter_ok (MD_deletion bs) = true.
Proof.
  unfold del_match. destruct md as [|c md]; [done|]. destruct (Ascii.eqb c "^"%char); [|done].
  destruct (span is_upper md) as [us r] eqn:E. destruct us as [|u us]; [done|].
  intros [= <- _]. simpl. by apply span_forallb in E.
Qed.

Lemma parse_md_state fuel :
  (forall md r x, md_state true r = Some true -> parse_md_f fuel md r = Some x ->
     is_Some (md_state true x)) /\
  (forall md r x, md_state true r = Some false -> parse_md_snv_f fuel md r = Some x ->
     is_Some (md_state true x)) /\
  (forall md r x, md_state true r = Some false -> parse_md_del_f fuel md r = Some x ->
     is_Some (md_state true x)).
Proof.
  induction fuel as [|f (IHm & IHs & IHd)]; [split_and!; done|].
  split_and!; intros md r x Hr H;
    [rewrite parse_md_f_S in H | rewrite parse_md_snv_f_S in H | rewrite parse_md_del_f_S in H];
    destruct (nonempty md); try (injection H as <-; by rewrite Hr).
  - destruct (number_match md) as [[n md']|] eqn:E; [|injection H as <-; by rewrite Hr].
    refine (IHs _ _ _ _ H). rewrite md_state_app, Hr. cbn [md_state].
    by rewrite (proj2 (Z.leb_le 0 n) (number_match_nonneg _ _ _ E)).
  - destruct (snv_match md) as [[b md']|] eqn:E; [|by apply (IHd md r x Hr H)].
    refine (IHm _ _ _ _ H). rewrite md_state_app, Hr. cbn [md_state].
    by rewrite (snv_match_ok _ _ _ E).
  - destruct (del_match md) as [[bs md']|] eqn:E; [|injection H as <-; by rewrite Hr].
    refine (IHm _ _ _ _ H). rewrite md_state_app, Hr. cbn [md_state].
    by rewrite (del_match_ok _ _ _ E).
Qed.

(** C14: every token list [parse_md] returns is a prefix of the MD grammar:
    it starts with a match length, alternates match lengths with
    mismatches or deletions, its lengths are non-negative, its mismatches
    are one upper-case letter and its deletions one or more; a silent
    truncation may leave it ending in a mismatch or a deletion. *)
Theorem parse_md_shape md toks : parse_md md [] = Some toks -> is_Some (md_state true toks).
Proof. intros H. by apply (proj1 (parse_md_state _) md [] toks eq_refl H). Qed.

(** ** Witnesses *)

Lemma parse_print_md_witness :
  md_wellformed [MD_match 5; MD_deletion "ACG"; MD_match 0; MD_mismatch "T"; MD_match 12] = true /\
  parse_md (print_md [MD_match 5; MD_deletion "ACG"; MD_match 0; MD_mismatch "T"; MD_match 12]) [] =
  Some [MD_match 5; MD_deletion "ACG"; MD_match 0; MD_mismatch "T"; MD_match 12].
Proof. split; [reflexivity | apply parse_print_md; reflexivity]. Defined.

Lemma parse_md_enough_fuel_witness :
  (2 * String.length "3A6" + 2 <= 100)%nat /\
  is_Some (parse_md "3A6" []) /\ parse_md_f 100 "3A6" [] = parse_md "3A6" [].
Proof. split; [simpl; lia | apply parse_md_enough_fuel; simpl; lia]. Defined.

Lemma parse_md_truncates_witness :
  parse_md (py_str_N (Z.to_N 5) +:+ String "a" "3") [] = Some [MD_match 5].
Proof. apply parse_md_truncates; (lia || reflexivity). Defined.

Lemma parse_md_shape_witness :
  parse_md "5^AC0T12" [] = Some [MD_match 5; MD_deletion "AC"; MD_match 0; MD_mismatch "T"; MD_match 12] /\
  is_Some (md_state true [MD_match 5; MD_deletion "AC"; MD_match 0; MD_mismatch "T"; MD_match 12]).
Proof.
  assert (H : parse_md "5^AC0T12" [] =
              Some [MD_match 5; MD_deletion "AC"; MD_match 0; MD_mismatch "T"; MD_match 12])
    by (vm_compute; reflexivity).
  split; [exact H | exact (parse_md_shape _ _ H)].
Defined.
