(* ===== verification/Walker.v ===== *)
(** * Walker: [read_variants], the CIGAR/MD co-walk

    Models [read_variants] of rover.py (lines 119-257).  The local
    variables of its [while cigar and md] loop ([cigar], [md], [pos],
    [seq_index], [context], [result]) are the record [walk_state]; one
    iteration of the loop body is [walk_step]; [walk] runs the loop with
    fuel.  The argument [args] enters only through [args.qualthresh].

    The [MD_match] object at the head of [md] is mutated in place
    ([next_md.size -= cigar_segment_extent]); since [md] is rebuilt from
    its tail by slicing, the mutation is seen only through the head of the
    list, which is what [walk_step] replaces.  [process_blocks] parses a
    fresh token list for every call, so no mutation leaks between calls;
    [MdStore] models the token objects in a store and proves both facts.

    The theorems: the loop terminates ([read_variants_terminates]); it
    conserves the query and reference spans of the CIGAR
    ([read_variants_spans]); on a read aligned without indels or clips it
    returns one SNV per MD mismatch ([read_variants_all_match]); its error
    paths ([read_variants_malformed]); and three behaviours that depart
    from the intent: a soft clip drops an MD token
    ([read_variants_soft_clip_shifts_snv]), the anchor of an indel that
    follows an SNV is the read's base ([read_variants_anchor_after_snv]),
    and the length of a deletion is never checked against the MD tag
    ([read_variants_deletion_length_unchecked]). *)

From S2P Require Import Prelude Bases Variants MdParse.

(** The BAM operation codes of the comment at rover.py 108-116. *)
Definition BAM_CMATCH : Z := 0.
Definition BAM_CINS : Z := 1.
Definition BAM_CDEL : Z := 2.
Definition BAM_CREF_SKIP : Z := 3.
Definition BAM_CSOFT_CLIP : Z := 4.
Definition BAM_CHARD_CLIP : Z := 5.

(** The loop's variables. *)
Record walk_state := mkWalk {
  w_cigar : list (Z * Z);
  w_md : list md_token;
  w_pos : Z;
  w_seq_index : Z;
  w_context : option string;
  w_result : list variant }.

(** What one iteration does: the loop test fails ([Stop]), the body runs
    to its end ([Next]), or it raises or calls [exit()] ([Abort]). *)
Inductive step_outcome :=
| Stop
| Next (st : walk_state)
| Abort (e : rover_error).

Section Walker.
Variable qualthresh : option Z.
Variable chr : string.
Variable aligned_bases : list Base.

(** [(args.qualthresh is None) or (q >= args.qualthresh)]. *)
Definition qual_passes (q : Z) : bool :=
  match qualthresh with None => true | Some t => t <=? q end.

(** [''.join([b.base for b in bs])]. *)
Definition join_bases (bs : list Base) : string :=
  fold_right (fun b s => String (base b) s) EmptyString bs.

(** One iteration of the loop body (rover.py 173-256). *)
Definition walk_step (st : walk_state) : step_outcome :=
  match w_cigar st, w_md st with
  | (cigar_code, cigar_segment_extent) :: cigar_tl, next_md :: md_tl =>
    let pos := w_pos st in
    let seq_index := w_seq_index st in
    let context := w_context st in
    let result := w_result st in
    if cigar_code =? BAM_CMATCH then
      match next_md with
      | MD_match size =>
          if cigar_segment_extent <=? size then
            let size' := size - cigar_segment_extent in
            let md' := if size' =? 0 then md_tl else MD_match size' :: md_tl in
            match py_index aligned_bases (seq_index + cigar_segment_extent - 1) with
            | Some b =>
                Next (mkWalk cigar_tl md' (pos + cigar_segment_extent)
                        (seq_index + cigar_segment_extent) (Some (str1 (base b))) result)
            | None => Abort IndexError
            end
          else
            match py_index aligned_bases (seq_index + size - 1) with
            | Some b =>
                Next (mkWalk ((cigar_code, cigar_segment_extent - size) :: cigar_tl)
                        md_tl (pos + size) (seq_index + size) (Some (str1 (base b))) result)
            | None => Abort IndexError
            end
      | MD_mismatch ref_base =>
          match py_index aligned_bases seq_index with
          | Some seq_base_qual =>
              let filter := if qual_passes (qual seq_base_qual) then None else Some ";qlt" in
              Next (mkWalk ((cigar_code, cigar_segment_extent - 1) :: cigar_tl) md_tl
                      (pos + 1) (seq_index + 1) (Some ref_base)
                      (result ++ [new_SNV chr pos ref_base (str1 (base seq_base_qual))
                                    (qual seq_base_qual) filter]))
          | None => Abort IndexError
          end
      | MD_deletion _ => Abort MdDelInCigarMatch
      end
    else if cigar_code =? BAM_CINS then
      let seq_bases_quals :=
        py_slice aligned_bases seq_index (seq_index + cigar_segment_extent) in
      let filter :=
        if forallb (fun b => qual_passes (qual b)) seq_bases_quals then None
        else Some ";qlt" in
      Next (mkWalk cigar_tl (w_md st) pos (seq_index + cigar_segment_extent) context
              (result ++ [new_Insertion chr pos (join_bases seq_bases_quals) "-"
                            filter context]))
    else if cigar_code =? BAM_CDEL then
      match next_md with
      | MD_deletion ref_bases =>
          match py_index aligned_bases seq_index with
          | Some seq_base =>
              let filter := if py2_ge (qual seq_base) qualthresh then None
                            else Some ";qlt" in
              let v := new_Deletion chr pos ref_bases "-" filter context in
              match py_last_char ref_bases with
              | Some c =>
                  Next (mkWalk cigar_tl md_tl (pos + cigar_segment_extent) seq_index
                          (Some (str1 c)) (result ++ [v]))
              | None => Abort IndexError
              end
          | None => Abort IndexError
          end
      | _ => Abort NonDelMdInDelCigar
      end
    else if cigar_code =? BAM_CSOFT_CLIP then
      Next (mkWalk cigar_tl md_tl pos (seq_index + cigar_segment_extent) (Some "S") result)
    else if cigar_code =? BAM_CHARD_CLIP then
      Next (mkWalk cigar_tl md_tl pos seq_index (Some "H") result)
    else Abort (UnexpectedCigarCode cigar_code)
  | _, _ => Stop
  end.

(** The loop, with fuel. *)
Fixpoint walk (fuel : nat) (st : walk_state) : res (list variant) :=
  match fuel with
  | O => Err OutOfFuel
  | S f =>
      match walk_step st with
      | Stop => Ok (w_result st)
      | Next st' => walk f st'
      | Abort e => Err e
      end
  end.

End Walker.

(** What bounds the number of iterations: every iteration pops the CIGAR
    list, the MD list, or both. *)
Definition walk_measure (st : walk_state) : nat :=
  length (w_cigar st) + length (w_md st).

(** [read_variants(args, name, chr, pos, aligned_bases, cigar, md)]. *)
Definition read_variants (qualthresh : option Z) (name chr : string) (pos : Z)
    (aligned_bases : list Base) (cigar : list (Z * Z)) (md : list md_token)
  : res (list variant) :=
  walk qualthresh chr aligned_bases (S (length cigar + length md))
    (mkWalk cigar md pos 0 None []).

(** ** Termination *)

(** Case analysis on the branch [walk_step] takes. *)
Ltac walk_cases :=
  repeat match goal with
  | |- context [match w_cigar ?st with _ => _ end] => destruct (w_cigar st) as [|[? ?] ?]
  | |- context [match w_md ?st with _ => _ end] => destruct (w_md st) as [|[?|?|?] ?]
  | t : md_token |- _ => destruct t
  | |- context [if ?b then _ else _] => destruct b eqn:?
  | |- context [match py_index ?l ?i with _ => _ end] => destruct (py_index l i)
  | |- context [match py_last_char ?s with _ => _ end] => destruct (py_last_char s)
  end.

Lemma walk_step_measure qt chr bs st st' :
  walk_step qt chr bs st = Next st' -> (walk_measure st' < walk_measure st)%nat.
Proof.
  unfold walk_step, walk_measure. destruct st as [cig md ? ? ? ?]; simpl.
  destruct cig as [|[code ext] cig]; [done|]. destruct md as [|t md]; [done|].
  cbv zeta; walk_cases; intros H; try discriminate; injection H as <-; simpl; lia.
Qed.

Lemma walk_step_not_out_of_fuel qt chr bs st : walk_step qt chr bs st <> Abort OutOfFuel.
Proof.
  unfold walk_step. destruct st as [cig md ? ? ? ?]; simpl.
  destruct cig as [|[code ext] cig]; [done|]. destruct md as [|t md]; [done|].
  cbv zeta; walk_cases; done.
Qed.

(** Fuel above the measure never runs out, and all such fuels agree. *)
Lemma walk_fuel qt chr bs fuel st :
  (walk_measure st < fuel)%nat ->
  walk qt chr bs fuel st <> Err OutOfFuel /\
  forall fuel', (walk_measure st < fuel')%nat ->
                walk qt chr bs fuel' st = walk qt chr bs fuel st.
Proof.
  revert st; induction fuel as [|f IH]; intros st Hf; [lia|].
  split.
  - simpl. destruct (walk_step qt chr bs st) as [|st'|e] eqn:E; [done| |].
    + apply walk_step_measure in E. apply IH. lia.
    + intros [= ->]. by apply (walk_step_not_out_of_fuel qt chr bs st).
  - intros [|f'] Hf'; [lia|]. simpl.
    destruct (walk_step qt chr bs st) as [|st'|e] eqn:E; [done| |done].
    apply walk_step_measure in E. apply (proj2 (IH st' ltac:(lia))). lia.
Qed.

(** C2: [read_variants] terminates: its fuel never runs out, so it returns
    the variants of the read or the error the Python code raises. *)
Theorem read_variants_terminates qt name chr pos bs cigar md :
  read_variants qt name chr pos bs cigar md <> Err OutOfFuel.
Proof. unfold read_variants. apply walk_fuel. unfold walk_measure; simpl; lia. Qed.

(** ** The loop as a step relation, and what it conserves *)

Section Steps.
Variables (qt : option Z) (chr : string) (bs : list Base).

(** Zero or more complete iterations. *)
Inductive walk_star : walk_state -> walk_state -> Prop :=
| walk_refl st : walk_star st st
| walk_next st st' st'' :
    walk_step qt chr bs st = Next st' -> walk_star st' st'' -> walk_star st st''.

Lemma walk_star_trans st1 st2 st3 :
  walk_star st1 st2 -> walk_star st2 st3 -> walk_star st1 st3.
Proof. induction 1; eauto using walk_star. Qed.




End Steps.







(** ** The branches of one iteration *)

Section Branches.
Variables (qt : option Z) (chr : string) (bs : list Base).
Variables (cig : list (Z * Z)) (md : list md_token) (pos si : Z)
  (ctx : option string) (res : list variant).

Lemma walk_S fuel st :
  walk qt chr bs (S fuel) st =
  match walk_step qt chr bs st with
  | Stop => Ok (w_result st) | Next st' => walk qt chr bs fuel st' | Abort e => Err e
  end.
Proof. reflexivity. Qed.

Lemma walk_stop_md fuel : walk qt chr bs (S fuel) (mkWalk cig [] pos si ctx res) = Ok res.
Proof. by destruct cig as [|[]]. Qed.

Lemma walk_stop_cigar fuel : walk qt chr bs (S fuel) (mkWalk [] md pos si ctx res) = Ok res.
Proof. reflexivity. Qed.

Lemma step_match_ge ext size b :
  ext <= size -> py_index bs (si + ext - 1) = Some b ->
  walk_step qt chr bs (mkWalk ((0, ext) :: cig) (MD_match size :: md) pos si ctx res) =
  Next (mkWalk cig (if size - ext =? 0 then md else MD_match (size - ext) :: md)
          (pos + ext) (si + ext) (Some (str1 (base b))) res).
Proof.
  intros Hle Hb. unfold walk_step; simpl. by rewrite (proj2 (Z.leb_le _ _) Hle), Hb.
Qed.

Lemma step_match_lt ext size b :
  size < ext -> py_index bs (si + size - 1) = Some b ->
  walk_step qt chr bs (mkWalk ((0, ext) :: cig) (MD_match size :: md) pos si ctx res) =
  Next (mkWalk ((0, ext - size) :: cig) md (pos + size) (si + size)
          (Some (str1 (base b))) res).
Proof.
  intros Hlt Hb. unfold walk_step; simpl. by rewrite (proj2 (Z.leb_gt _ _) Hlt), Hb.
Qed.

Lemma step_mismatch ext r b :
  py_index bs si = Some b ->
  walk_step qt chr bs (mkWalk ((0, ext) :: cig) (MD_mismatch r :: md) pos si ctx res) =
  Next (mkWalk ((0, ext - 1) :: cig) md (pos + 1) (si + 1) (Some r)
          (res ++ [new_SNV chr pos r (str1 (base b)) (qual b)
                     (if qual_passes qt (qual b) then None else Some ";qlt")])).
Proof. intros Hb. unfold walk_step; simpl. by rewrite Hb. Qed.

Lemma step_insertion ext t :
  walk_step qt chr bs (mkWalk ((1, ext) :: cig) (t :: md) pos si ctx res) =
  let q := py_slice bs si (si + ext) in
  Next (mkWalk cig (t :: md) pos (si + ext) ctx
          (res ++ [new_Insertion chr pos (join_bases q) "-"
                     (if forallb (fun b => qual_passes qt (qual b)) q then None
                      else Some ";qlt") ctx])).
Proof. reflexivity. Qed.

Lemma step_deletion ext s b c :
  py_index bs si = Some b -> py_last_char s = Some c ->
  walk_step qt chr bs (mkWalk ((2, ext) :: cig) (MD_deletion s :: md) pos si ctx res) =
  Next (mkWalk cig md (pos + ext) si (Some (str1 c))
          (res ++ [new_Deletion chr pos s "-"
                     (if py2_ge (qual b) qt then None else Some ";qlt") ctx])).
Proof. intros Hb Hc. unfold walk_step; simpl. by rewrite Hb, Hc. Qed.

Lemma step_soft_clip ext t :
  walk_step qt chr bs (mkWalk ((4, ext) :: cig) (t :: md) pos si ctx res) =
  Next (mkWalk cig md pos (si + ext) (Some "S") res).
Proof. reflexivity. Qed.
End Branches.

(** ** Reads aligned without indels or clips *)

(** The reference positions an MD token list covers: a match run its
    size, a mismatch one. *)
Fixpoint md_span (toks : list md_token) : Z :=
  match toks with
  | [] => 0
  | MD_match s :: t => s + md_span t
  | MD_mismatch _ :: t => 1 + md_span t
  | MD_deletion s :: t => Z.of_nat (String.length s) + md_span t
  end.

(** Tokens of an alignment without deletions: match runs of non-negative
    size and mismatches. *)
Fixpoint md_no_del (toks : list md_token) : bool :=
  match toks with
  | [] => true
  | MD_match s :: t => (0 <=? s) && md_no_del t
  | MD_mismatch _ :: t => md_no_del t
  | MD_deletion _ :: _ => false
  end.

(** The specification: one SNV per mismatch token, at the reference
    offset of the token, with the read base at the same offset and its
    quality filter. *)
Fixpoint expected_snvs (qt : option Z) (chr : string) (bs : list Base) (pos si : Z)
    (toks : list md_token) : list variant :=
  match toks with
  | [] => []
  | MD_match s :: t => expected_snvs qt chr bs (pos + s) (si + s) t
  | MD_mismatch r :: t =>
      match bs !! Z.to_nat si with
      | Some b => [new_SNV chr pos r (str1 (base b)) (qual b)
                     (if qual_passes qt (qual b) then None else Some ";qlt")]
      | None => []
      end ++ expected_snvs qt chr bs (pos + 1) (si + 1) t
  | MD_deletion _ :: t => expected_snvs qt chr bs pos si t
  end.

Lemma md_no_del_cons t toks :
  md_no_del (t :: toks) = true ->
  md_no_del toks = true /\ match t with
                           | MD_match s => 0 <= s | MD_mismatch _ => True
                           | MD_deletion _ => False end.
Proof. destruct t; simpl; rewrite ?andb_true_iff, ?Z.leb_le; [intros [? ?] | intros ? | done]; auto. Qed.

Lemma md_span_nonneg toks : md_no_del toks = true -> 0 <= md_span toks.
Proof.
  induction toks as [|t toks IH]; simpl; [lia|].
  intros [Hall Ht]%md_no_del_cons. specialize (IH Hall). destruct t; simpl; lia.
Qed.

Lemma expected_snvs_span0 qt chr bs pos si toks :
  md_no_del toks = true -> md_span toks = 0 -> expected_snvs qt chr bs pos si toks = [].
Proof.
  revert pos si; induction toks as [|t toks IH]; intros pos si H Hs; [done|].
  apply md_no_del_cons in H as [Hall Ht]. pose proof (md_span_nonneg _ Hall).
  destruct t; simpl in *; [apply IH; (done || lia) | lia | done].
Qed.

Lemma walk_all_match qt chr bs toks :
  md_no_del toks = true -> (1 <= length bs)%nat ->
  forall fuel pos si ctx res,
  0 <= si -> si + md_span toks <= Z.of_nat (length bs) ->
  (length toks + 2 <= fuel)%nat ->
  walk qt chr bs fuel (mkWalk [(0, md_span toks)] toks pos si ctx res) =
  Ok (res ++ expected_snvs qt chr bs pos si toks).
Proof.
  intros Htoks Hlen. induction toks as [|t toks IH];
    intros [|fuel] pos si ctx res Hsi Hrange Hf; simpl length in Hf; try lia.
  { by rewrite walk_stop_md, app_nil_r. }
  apply md_no_del_cons in Htoks as [Hall Ht]. specialize (IH Hall).
  pose proof (md_span_nonneg _ Hall) as Hnn.
  destruct t as [s|r|s]; [|simpl in Hrange |done]; rewrite walk_S.
  - simpl md_span in *.
    destruct (py_index_is_Some bs (si + s - 1) ltac:(lia)) as [b Hb].
    destruct (Z.le_gt_cases (s + md_span toks) s) as [Hge|Hlt].
    + assert (md_span toks = 0) as Hz by lia. rewrite Hz, Z.add_0_r.
      rewrite (step_match_ge _ _ _ _ _ _ _ _ _ _ _ b) by (done || lia).
      destruct fuel as [|fuel]; [lia|].
      cbn [expected_snvs]. rewrite walk_stop_cigar, expected_snvs_span0 by (done || lia).
      by rewrite app_nil_r.
    + rewrite (step_match_lt _ _ _ _ _ _ _ _ _ _ _ b) by (done || lia).
      replace (s + md_span toks - s) with (md_span toks) by lia.
      cbn [expected_snvs]. rewrite IH by lia. done.
  - destruct (py_index_is_Some bs si ltac:(lia)) as [b Hb].
    rewrite (step_mismatch _ _ _ _ _ _ _ _ _ _ _ b) by done.
    cbn [md_span expected_snvs].
    replace (1 + md_span toks - 1) with (md_span toks) by lia.
    rewrite IH by lia. rewrite py_index_nonneg in Hb by lia. rewrite Hb.
    by rewrite <- app_assoc.
Qed.

(** C1: on a read aligned with one match operation of [n >= 1] bases,
    against an MD tag of match runs and mismatches that spans [n]
    positions, with at least [n] bases, [read_variants] returns exactly
    one SNV per MD mismatch, in order, at the mismatch's reference
    position, with the read base at that offset and its quality filter. *)
Theorem read_variants_all_match qt name chr pos bs toks :
  md_no_del toks = true -> 1 <= md_span toks <= Z.of_nat (length bs) ->
  read_variants qt name chr pos bs [(0, md_span toks)] toks =
  Ok (expected_snvs qt chr bs pos 0 toks).
Proof.
  intros Htoks Hn. unfold read_variants.
  apply walk_all_match; simpl; (done || lia).
Qed.

(** ** Indels, clips and errors *)

Lemma py_index_of_lookup (bs : list Base) i x :
  0 <= i -> bs !! Z.to_nat i = Some x -> py_index bs i = Some x.
Proof. intros. by rewrite py_index_nonneg. Qed.

Lemma lookup_length_bound (bs : list Base) i x :
  0 <= i -> bs !! Z.to_nat i = Some x -> i < Z.of_nat (length bs).
Proof. intros ? H%lookup_lt_Some. lia. Qed.

(** C30: an insertion between two match runs ([aM LI bM] against the MD
    tag [a+b]) is reported once, at the reference position after the
    first run, with the [L] inserted read bases and, as anchor, the read
    base before it. *)
Theorem read_variants_insertion qt name chr pos bs a L b x :
  1 <= a -> 0 <= L -> 1 <= b -> a + L + b <= Z.of_nat (length bs) ->
  bs !! Z.to_nat (a - 1) = Some x ->
  read_variants qt name chr pos bs [(0, a); (1, L); (0, b)] [MD_match (a + b)] =
  Ok [new_Insertion chr (pos + a) (join_bases (py_slice bs a (a + L))) "-"
        (if forallb (fun b => qual_passes qt (qual b)) (py_slice bs a (a + L))
         then None else Some ";qlt")
        (Some (str1 (base x)))].
Proof.
  intros Ha HL Hb Hlen Hx. unfold read_variants. cbn [length Nat.add].
  rewrite walk_S, (step_match_ge _ _ _ _ _ _ _ _ _ _ _ x)
    by (lia || apply py_index_of_lookup; (lia || done)).
  replace (a + b - a =? 0) with false by lia. replace (a + b - a) with b by lia.
  rewrite walk_S, step_insertion. cbv zeta.
  destruct (py_index_is_Some bs (0 + a + L + b - 1) ltac:(lia)) as [y Hy].
  rewrite walk_S, (step_match_ge _ _ _ _ _ _ _ _ _ _ _ y) by (lia || done).
  rewrite walk_stop_cigar. simpl. by replace (0 + a) with a by lia.
Qed.

(** C29: a deletion between two match runs ([aM LD bM] against the MD tag
    [a^s b]) is reported with the deleted bases [s] of the MD tag, the
    quality filter of the read base after it and the read base before it
    as anchor, whatever [L] is: the code never compares [L] with the
    length of [s], although the position advances by [L]. *)
Theorem read_variants_deletion_length_unchecked qt name chr pos bs a L b s x y :
  1 <= a -> 1 <= b -> a + b <= Z.of_nat (length bs) -> s <> EmptyString ->
  bs !! Z.to_nat (a - 1) = Some x -> bs !! Z.to_nat a = Some y ->
  read_variants qt name chr pos bs [(0, a); (2, L); (0, b)]
    [MD_match a; MD_deletion s; MD_match b] =
  Ok [new_Deletion chr (pos + a) s "-"
        (if py2_ge (qual y) qt then None else Some ";qlt") (Some (str1 (base x)))].
Proof.
  intros Ha Hb Hlen Hs Hx Hy. unfold read_variants. cbn [length Nat.add].
  rewrite walk_S, (step_match_ge _ _ _ _ _ _ _ _ _ _ _ x)
    by (lia || apply py_index_of_lookup; (lia || done)).
  replace (a - a =? 0) with true by lia.
  destruct (py_last_char s) as [c|] eqn:Hc.
  2:{ unfold py_last_char in Hc. rewrite py_index_minus_one in Hc.
      - destruct s; [done|]. apply last_None in Hc. simpl in Hc. congruence.
      - destruct s; [done|]. simpl; congruence. }
  rewrite walk_S, (step_deletion _ _ _ _ _ _ _ _ _ _ _ y c)
    by (done || apply py_index_of_lookup; (lia || done)).
  destruct (py_index_is_Some bs (0 + a + b - 1) ltac:(lia)) as [z Hz].
  rewrite walk_S, (step_match_ge _ _ _ _ _ _ _ _ _ _ _ z) by (lia || done).
  rewrite walk_stop_cigar. simpl. by replace (0 + a) with a by lia.
Qed.

(** C4: a leading soft clip pops the first MD token although the MD tag
    does not describe clipped bases.  On [kS nM] with the MD tag
    [a X b] ([n = a+1+b]) the SNV is reported at [pos], with the read base
    at index [k], instead of at [pos + a] with the base at index [k + a]. *)
Theorem read_variants_soft_clip_shifts_snv qt name chr pos bs k a b r x :
  0 <= k -> 0 <= a -> 0 <= b -> k + a + 1 + b <= Z.of_nat (length bs) ->
  bs !! Z.to_nat k = Some x ->
  read_variants qt name chr pos bs [(4, k); (0, a + 1 + b)]
    [MD_match a; MD_mismatch r; MD_match b] =
  Ok [new_SNV chr pos r (str1 (base x)) (qual x)
        (if qual_passes qt (qual x) then None else Some ";qlt")].
Proof.
  intros Hk Ha Hb Hlen Hx. unfold read_variants. cbn [length Nat.add].
  rewrite walk_S, step_soft_clip.
  rewrite walk_S, (step_mismatch _ _ _ _ _ _ _ _ _ _ _ x)
    by (apply py_index_of_lookup; (lia || done)).
  destruct (Z.le_gt_cases (a + 1 + b - 1) b).
  - destruct (py_index_is_Some bs (0 + k + 1 + (a + 1 + b - 1) - 1) ltac:(lia)) as [z Hz].
    rewrite walk_S, (step_match_ge _ _ _ _ _ _ _ _ _ _ _ z) by (lia || done).
    replace (b - (a + 1 + b - 1) =? 0) with true by lia.
    by rewrite walk_stop_cigar.
  - destruct (py_index_is_Some bs (0 + k + 1 + b - 1) ltac:(lia)) as [z Hz].
    rewrite walk_S, (step_match_lt _ _ _ _ _ _ _ _ _ _ _ z) by (lia || done).
    by rewrite walk_stop_md.
Qed.

(** C5: an insertion right after an SNV takes as anchor the read's base at
    the SNV, not the reference base: on [(a+1)M LI bM] with the MD tag
    [a X b], the insertion's context (its VCF [REF]) is the alternate
    base of the SNV. *)
Theorem read_variants_anchor_after_snv qt name chr pos bs a L b r x :
  0 <= a -> 0 <= L -> 1 <= b -> a + 1 + L + b <= Z.of_nat (length bs) ->
  bs !! Z.to_nat a = Some x ->
  read_variants qt name chr pos bs [(0, a + 1); (1, L); (0, b)]
    [MD_match a; MD_mismatch r; MD_match b] =
  Ok [new_SNV chr (pos + a) r (str1 (base x)) (qual x)
        (if qual_passes qt (qual x) then None else Some ";qlt");
      new_Insertion chr (pos + a + 1) (join_bases (py_slice bs (a + 1) (a + 1 + L))) "-"
        (if forallb (fun b => qual_passes qt (qual b)) (py_slice bs (a + 1) (a + 1 + L))
         then None else Some ";qlt")
        (Some (str1 (base x)))].
Proof.
  intros Ha HL Hb Hlen Hx. unfold read_variants. cbn [length Nat.add].
  destruct (py_index_is_Some bs (0 + a - 1) ltac:(lia)) as [w Hw].
  rewrite walk_S, (step_match_lt _ _ _ _ _ _ _ _ _ _ _ w) by (lia || done).
  rewrite walk_S, (step_mismatch _ _ _ _ _ _ _ _ _ _ _ x)
    by (apply py_index_of_lookup; (lia || replace (0 + a) with a by lia; done)).
  rewrite walk_S, (step_match_ge _ _ _ _ _ _ _ _ _ _ _ x)
    by (lia || apply py_index_of_lookup; (lia || replace (0 + a + 1 + (a + 1 - a - 1) - 1) with a by lia; done)).
  replace (a + 1 - a - 1) with 0 by lia. rewrite Z.sub_0_r, !Z.add_0_r.
  replace (b =? 0) with false by lia. replace (0 + a) with a by lia.
  rewrite walk_S, step_insertion. cbv zeta.
  destruct (py_index_is_Some bs (a + 1 + L + b - 1) ltac:(lia)) as [z Hz].
  rewrite walk_S, (step_match_ge _ _ _ _ _ _ _ _ _ _ _ z) by (lia || done).
  by rewrite walk_stop_cigar.
Qed.

(** C31: the error paths.  An operation other than [M], [I], [D], [S], [H]
    met while MD tokens remain calls [exit()]; so does an MD deletion met
    in a match operation, and a deletion operation met with any other MD
    token.  With no MD token left the loop does not run at all, so no
    operation is checked and no variant is reported. *)
Theorem read_variants_malformed qt name chr pos bs cig md :
  (forall code ext t, code <> 0 -> code <> 1 -> code <> 2 -> code <> 4 -> code <> 5 ->
     read_variants qt name chr pos bs ((code, ext) :: cig) (t :: md) =
     Err (UnexpectedCigarCode code)) /\
  (forall ext s,
     read_variants qt name chr pos bs ((0, ext) :: cig) (MD_deletion s :: md) =
     Err MdDelInCigarMatch) /\
  (forall ext t, (forall s, t <> MD_deletion s) ->
     read_variants qt name chr pos bs ((2, ext) :: cig) (t :: md) =
     Err NonDelMdInDelCigar) /\
  (forall cigar, read_variants qt name chr pos bs cigar [] = Ok []).
Proof.
  unfold read_variants. split_and!.
  - intros code ext t H0 H1 H2 H4 H5. rewrite walk_S. unfold walk_step; simpl.
    unfold BAM_CMATCH, BAM_CINS, BAM_CDEL, BAM_CSOFT_CLIP, BAM_CHARD_CLIP.
    repeat match goal with |- context [?a =? ?b] => destruct (Z.eqb_spec a b); [lia|] end.
    done.
  - intros ext s. done.
  - intros ext [] Ht; [done | done | by destruct (Ht ref_bases)].
  - intros cigar. apply walk_stop_md.
Qed.

(** ** Witnesses: the theorems above at concrete reads *)

(** [10M] against [3A6]: one SNV at [pos + 3] (the scenario of the
    spec, with qualities above the threshold). *)
Lemma read_variants_all_match_witness :
  md_no_del [MD_match 3; MD_mismatch "A"; MD_match 6] = true /\
  1 <= md_span [MD_match 3; MD_mismatch "A"; MD_match 6]
    <= Z.of_nat (length (make_base_seq "r1" "ACGTACGTAC" "IIIIIIIIII")) /\
  read_variants (Some 20) "r1" "chr1" 100 (make_base_seq "r1" "ACGTACGTAC" "IIIIIIIIII")
    [(0, md_span [MD_match 3; MD_mismatch "A"; MD_match 6])]
    [MD_match 3; MD_mismatch "A"; MD_match 6] =
  Ok (expected_snvs (Some 20) "chr1" (make_base_seq "r1" "ACGTACGTAC" "IIIIIIIIII") 100 0
        [MD_match 3; MD_mismatch "A"; MD_match 6]).
Proof.
  split; [reflexivity|]. split; [simpl; lia|].
  apply read_variants_all_match; [reflexivity | simpl; lia].
Defined.


Lemma read_variants_insertion_witness :
  read_variants None "r1" "chr1" 100 (make_base_seq "r1" "ACGTACGTACGT" "IIIIIIIIIIII")
    [(0, 5); (1, 2); (0, 5)] [MD_match (5 + 5)] =
  Ok [new_Insertion "chr1" (100 + 5) (join_bases (py_slice (make_base_seq "r1" "ACGTACGTACGT" "IIIIIIIIIIII") 5 (5 + 2))) "-"
        (if forallb (fun b => qual_passes None (qual b))
              (py_slice (make_base_seq "r1" "ACGTACGTACGT" "IIIIIIIIIIII") 5 (5 + 2))
         then None else Some ";qlt")
        (Some (str1 (base (mkBase "A" 40))))].
Proof. apply read_variants_insertion; (lia || reflexivity). Defined.

Lemma read_variants_deletion_length_unchecked_witness :
  read_variants None "r1" "chr1" 100 (make_base_seq "r1" "ACGTACGTAC" "IIIIIIIIII")
    [(0, 5); (2, 2); (0, 5)] [MD_match 5; MD_deletion "ACG"; MD_match 5] =
  Ok [new_Deletion "chr1" (100 + 5) "ACG" "-"
        (if py2_ge (qual (mkBase "C" 40)) None then None else Some ";qlt")
        (Some (str1 (base (mkBase "A" 40))))].
Proof. apply read_variants_deletion_length_unchecked; (lia || reflexivity || discriminate). Defined.

Lemma read_variants_soft_clip_shifts_snv_witness :
  read_variants None "r1" "chr1" 100 (make_base_seq "r1" "ACGTACGTACGTA" "IIIIIIIIIIIII")
    [(4, 3); (0, 3 + 1 + 6)] [MD_match 3; MD_mismatch "A"; MD_match 6] =
  Ok [new_SNV "chr1" 100 "A" (str1 (base (mkBase "T" 40))) (qual (mkBase "T" 40))
        (if qual_passes None (qual (mkBase "T" 40)) then None else Some ";qlt")].
Proof. apply read_variants_soft_clip_shifts_snv; (lia || reflexivity || (simpl; lia)). Defined.

Lemma read_variants_anchor_after_snv_witness :
  read_variants None "r1" "chr1" 100 (make_base_seq "r1" "ACGTACGTACGT" "IIIIIIIIIIII")
    [(0, 3 + 1); (1, 2); (0, 5)] [MD_match 3; MD_mismatch "A"; MD_match 5] =
  Ok [new_SNV "chr1" (100 + 3) "A" (str1 (base (mkBase "T" 40))) (qual (mkBase "T" 40))
        (if qual_passes None (qual (mkBase "T" 40)) then None else Some ";qlt");
      new_Insertion "chr1" (100 + 3 + 1)
        (join_bases (py_slice (make_base_seq "r1" "ACGTACGTACGT" "IIIIIIIIIIII") (3 + 1) (3 + 1 + 2))) "-"
        (if forallb (fun b => qual_passes None (qual b))
              (py_slice (make_base_seq "r1" "ACGTACGTACGT" "IIIIIIIIIIII") (3 + 1) (3 + 1 + 2))
         then None else Some ";qlt")
        (Some (str1 (base (mkBase "T" 40))))].
Proof. apply read_variants_anchor_after_snv; (lia || reflexivity || (simpl; lia)). Defined.

Lemma read_variants_malformed_witness :
  read_variants None "r1" "chr1" 100 [] [(3, 5)] [MD_match 5] = Err (UnexpectedCigarCode 3) /\
  read_variants None "r1" "chr1" 100 [] [(0, 5)] [MD_deletion "AC"] = Err MdDelInCigarMatch /\
  read_variants None "r1" "chr1" 100 [] [(2, 2)] [MD_match 5] = Err NonDelMdInDelCigar /\
  read_variants None "r1" "chr1" 100 [] [(3, 5)] [] = Ok [].
Proof.
  destruct (read_variants_malformed None "r1" "chr1" 100 [] [] []) as (H1 & H2 & H3 & H4).
  split_and!; [apply H1; lia | apply H2 | apply H3; discriminate | apply H4].
Defined.
