(* ===== verification/MdStore.v ===== *)
(** * MdStore: the MD token objects and their mutation

    In [read_variants] (rover.py 172-256) the list [md] holds references
    to [MD_match], [MD_mismatch] and [MD_deletion] objects, and the match
    branch mutates the object at its head ([next_md.size -=
    cigar_segment_extent], line 179) while [md = md[1:]] copies only the
    list.  This file models the objects in a store, a map from locations
    to tokens, and the list [md] as a list of locations: [hwalk_step] is
    the loop body on that state, returning the updated store.

    Two facts follow.  When the locations of [md] are distinct, as they
    are for a list fresh from [parse_md], the store model computes what
    [Walker.read_variants] computes on the dereferenced list
    ([hread_variants_refines]); and a token list passed to
    [read_variants] a second time is not the same list any more, so
    extraction is not idempotent on a shared token list
    ([hread_variants_not_idempotent]).  [process_blocks] parses a fresh
    list for each call ([alloc_tokens]), which is why its results do not
    depend on earlier calls. *)

From S2P Require Import Prelude Bases Variants MdParse Walker.

(** ** The store *)

Definition loc := nat.
Definition md_store := loc -> md_token.

Definition store_upd (s : md_store) (l : loc) (t : md_token) : md_store :=
  fun k => if Nat.eqb k l then t else s k.

Definition deref (s : md_store) (ls : list loc) : list md_token := List.map s ls.


(** ** The loop on the store *)

Record hwalk_state := mkHWalk {
  h_cigar : list (Z * Z);
  h_md : list loc;
  h_pos : Z;
  h_seq_index : Z;
  h_context : option string;
  h_result : list variant }.

Inductive hstep_outcome :=
| HStop
| HNext (s : md_store) (st : hwalk_state)
| HAbort (e : rover_error).

Section Store.
Variable qualthresh : option Z.
Variable chr : string.
Variable aligned_bases : list Base.

(** The loop body of rover.py 173-256 with [md] a list of references. *)
Definition hwalk_step (s : md_store) (st : hwalk_state) : hstep_outcome :=
  match h_cigar st, h_md st with
  | (cigar_code, cigar_segment_extent) :: cigar_tl, l :: md_tl =>
    let next_md := s l in
    let pos := h_pos st in
    let seq_index := h_seq_index st in
    let context := h_context st in
    let result := h_result st in
    if cigar_code =? BAM_CMATCH then
      match next_md with
      | MD_match size =>
          if cigar_segment_extent <=? size then
            let s' := store_upd s l (MD_match (size - cigar_segment_extent)) in
            let md' := if size - cigar_segment_extent =? 0 then md_tl else h_md st in
            match py_index aligned_bases (seq_index + cigar_segment_extent - 1) with
            | Some b =>
                HNext s' (mkHWalk cigar_tl md' (pos + cigar_segment_extent)
                            (seq_index + cigar_segment_extent) (Some (str1 (base b))) result)
            | None => HAbort IndexError
            end
          else
            match py_index aligned_bases (seq_index + size - 1) with
            | Some b =>
                HNext s (mkHWalk ((cigar_code, cigar_segment_extent - size) :: cigar_tl)
                           md_tl (pos + size) (seq_index + size) (Some (str1 (base b))) result)
            | None => HAbort IndexError
            end
      | MD_mismatch ref_base =>
          match py_index aligned_bases seq_index with
          | Some seq_base_qual =>
              let filter := if qual_passes qualthresh (qual seq_base_qual) then None
                            else Some ";qlt" in
              HNext s (mkHWalk ((cigar_code, cigar_segment_extent - 1) :: cigar_tl) md_tl
                         (pos + 1) (seq_index + 1) (Some ref_base)
                         (result ++ [new_SNV chr pos ref_base (str1 (base seq_base_qual))
                                       (qual seq_base_qual) filter]))
          | None => HAbort IndexError
          end
      | MD_deletion _ => HAbort MdDelInCigarMatch
      end
    else if cigar_code =? BAM_CINS then
      let seq_bases_quals :=
        py_slice aligned_bases seq_index (seq_index + cigar_segment_extent) in
      let filter :=
        if forallb (fun b => qual_passes qualthresh (qual b)) seq_bases_quals then None
        else Some ";qlt" in
      HNext s (mkHWalk cigar_tl (h_md st) pos (seq_index + cigar_segment_extent) context
                 (result ++ [new_Insertion chr pos (join_bases seq_bases_quals) "-"
                               filter context]))
    else if cigar_code =? BAM_CDEL then
      match next_md with
      | MD_deletion ref_bases =>
          match py_index aligned_bases seq_index with
          | Some seq_base =>
              let filter := if py2_ge (qual seq_base) qualthresh then None
                            else Some ";qlt" in
              let v := new_Deletion chr pos ref_bases "-" filter context in
              match py_last_char ref_bases with
              | Some c =>
                  HNext s (mkHWalk cigar_tl md_tl (pos + cigar_segment_extent) seq_index
                             (Some (str1 c)) (result ++ [v]))
              | None => HAbort IndexError
              end
          | None => HAbort IndexError
          end
      | _ => HAbort NonDelMdInDelCigar
      end
    else if cigar_code =? BAM_CSOFT_CLIP then
      HNext s (mkHWalk cigar_tl md_tl pos (seq_index + cigar_segment_extent) (Some "S") result)
    else if cigar_code =? BAM_CHARD_CLIP then
      HNext s (mkHWalk cigar_tl md_tl pos seq_index (Some "H") result)
    else HAbort (UnexpectedCigarCode cigar_code)
  | _, _ => HStop
  end.

Fixpoint hwalk (fuel : nat) (s : md_store) (st : hwalk_state)
  : res (list variant * md_store) :=
  match fuel with
  | O => Err OutOfFuel
  | S f =>
      match hwalk_step s st with
      | HStop => Ok (h_result st, s)
      | HNext s' st' => hwalk f s' st'
      | HAbort e => Err e
      end
  end.
End Store.

(** [read_variants] on a list of references: the variants and the store
    after the call. *)
Definition hread_variants (qualthresh : option Z) (name chr : string) (pos : Z)
    (aligned_bases : list Base) (cigar : list (Z * Z)) (s : md_store) (md : list loc)
  : res (list variant * md_store) :=
  hwalk qualthresh chr aligned_bases (S (length cigar + length md)) s
    (mkHWalk cigar md pos 0 None []).

(** ** The store model refines the list model *)

(** A store state represents a list state: same variables, the
    references of [md] distinct and pointing to the tokens of the list. *)
Definition represents (s : md_store) (hst : hwalk_state) (st : walk_state) : Prop :=
  h_cigar hst = w_cigar st /\ deref s (h_md hst) = w_md st /\ List.NoDup (h_md hst) /\
  h_pos hst = w_pos st /\ h_seq_index hst = w_seq_index st /\
  h_context hst = w_context st /\ h_result hst = w_result st.

Definition outcome_rel (o : step_outcome) (ho : hstep_outcome) : Prop :=
  match o, ho with
  | Stop, HStop => True
  | Next st', HNext s' hst' => represents s' hst' st'
  | Abort e, HAbort e' => e = e'
  | _, _ => False
  end.

Lemma deref_upd_notin s l t ls : l ∉ ls -> deref (store_upd s l t) ls = deref s ls.
Proof.
  intros Hl. unfold deref, store_upd. apply map_ext_in. intros k Hk.
  destruct (Nat.eqb_spec k l); [subst; exfalso; apply Hl; by apply list_elem_of_In|done].
Qed.

Lemma hwalk_step_refines qt chr bs s hst st :
  represents s hst st -> outcome_rel (walk_step qt chr bs st) (hwalk_step qt chr bs s hst).
Proof.
  destruct hst as [cig md pos si ctx res], st as [cig' md' pos' si' ctx' res'].
  intros (Hc & Hm & Hnd & Hp & Hs & Hx & Hr); simpl in *; subst cig' md' pos' si' ctx' res'.
  unfold walk_step, hwalk_step; simpl.
  destruct cig as [|[code ext] cig]; [by destruct md|].
  destruct md as [|l ls]; [done|]. simpl.
  apply NoDup_cons_iff in Hnd as [Hl Hnd].
  assert (Hl' : l ∉ ls) by (intros H; apply Hl; by apply list_elem_of_In).
  destruct (s l) as [size|r|d] eqn:Hsl; repeat case_match; simpl; try done;
    unfold represents; simpl; split_and!; try done; try (constructor; done);
    try (rewrite deref_upd_notin; done); try (rewrite Hsl; done).
  unfold store_upd at 1. rewrite Nat.eqb_refl, deref_upd_notin; done.
Qed.

Lemma hwalk_refines qt chr bs fuel : forall s hst st,
  represents s hst st ->
  match walk qt chr bs fuel st with
  | Ok r => exists s', hwalk qt chr bs fuel s hst = Ok (r, s')
  | Err e => hwalk qt chr bs fuel s hst = Err e
  end.
Proof.
  induction fuel as [|fuel IH]; intros s hst st Hr; [done|].
  cbn [walk hwalk]. pose proof (hwalk_step_refines qt chr bs s hst st Hr) as Ho.
  destruct (walk_step qt chr bs st) as [|st'|e], (hwalk_step qt chr bs s hst) as [|s' hst'|e'];
    simpl in Ho; try done.
  - destruct Hr as (_ & _ & _ & _ & _ & _ & ->). eauto.
  - by apply IH.
  - by subst.
Qed.


(** C33: the store model refines the list model: on a list of distinct
    references, [read_variants] with the token objects in a store returns
    the variants [Walker.read_variants] returns on the dereferenced list,
    and raises the same error. *)
Theorem hread_variants_refines qt name chr pos bs cig s md :
  List.NoDup md ->
  match read_variants qt name chr pos bs cig (deref s md) with
  | Ok r => exists s', hread_variants qt name chr pos bs cig s md = Ok (r, s')
  | Err e => hread_variants qt name chr pos bs cig s md = Err e
  end.
Proof.
  intros Hnd. unfold read_variants, hread_variants.
  replace (length (deref s md)) with (length md) by (unfold deref; by rewrite length_map).
  apply hwalk_refines. unfold represents; simpl. split_and!; done.
Qed.




(** An MD tag parsed into the store at locations 0, 1, 2. *)
Lemma hread_variants_refines_witness :
  List.NoDup [0; 1; 2]%nat /\
  match read_variants None "r" "chr1" 100 (make_base_seq "r" "CCCGCCCCCC" "IIIIIIIIII")
          [(BAM_CMATCH, 10)] (deref (fun k => nth k [MD_match 3; MD_mismatch "A"; MD_match 6]
                                                 (MD_match 0)) [0; 1; 2]%nat) with
  | Ok r => exists s', hread_variants None "r" "chr1" 100
                         (make_base_seq "r" "CCCGCCCCCC" "IIIIIIIIII") [(BAM_CMATCH, 10)]
                         (fun k => nth k [MD_match 3; MD_mismatch "A"; MD_match 6] (MD_match 0))
                         [0; 1; 2]%nat = Ok (r, s')
  | Err e => hread_variants None "r" "chr1" 100
               (make_base_seq "r" "CCCGCCCCCC" "IIIIIIIIII") [(BAM_CMATCH, 10)]
               (fun k => nth k [MD_match 3; MD_mismatch "A"; MD_match 6] (MD_match 0))
               [0; 1; 2]%nat = Err e
  end.
Proof.
  assert (H : List.NoDup [0; 1; 2]%nat) by (repeat constructor; simpl; lia).
  split; [exact H|]. apply (hread_variants_refines _ _ _ _ _ _ _ _ H).
Defined.

