(* ===== verification/Overlap.v ===== *)
(** * Overlap: selecting the reads of a block and grouping them by name

    Models [proportion_overlap] (rover.py 478-505) and [lookup_reads]
    (rover.py 83-100).  A read is the part of a pysam [AlignedSegment] the
    program reads: [qname], [pos] (0-based), [rlen], [cigar], [query],
    [qqual] and [tags].  The alignment file is an interface, [BamFile],
    whose [fetch] is pysam's region query; [lookup_reads] is proved for
    every instance.

    Python floats are modelled by [Q]: [float(overlap_size) / block_size]
    is the correctly rounded quotient of two integers, and the threshold a
    decimal such as [0.9]; the exact rational comparison agrees with the
    floating-point one unless the quotient lies within half an ulp of the
    threshold without being equal to it: two distinct fractions [a/b] and
    [p/q] differ by at least [1/(b*q)], more than the two roundings can
    close when [b*q < 2^52], so for a threshold of at most three decimal
    digits ([q <= 1000]) the comparisons agree for blocks shorter than
    [10^12] bases. *)

From S2P Require Import Prelude.
From Stdlib Require Import QArith.
Open Scope Z_scope.

(** The fields of a pysam read the program uses. *)
Record pysam_read := mkRead {
  qname : string;
  rpos : Z;
  rlen : Z;
  rcigar : list (Z * Z);
  query : string;
  qqual : string;
  tags : list (string * string) }.

(** A row [block_info] of the primer coordinate table
    ([get_block_coords]): [chr, start, end] with the two coordinates read
    by [int] (rover.py 628-630), and the fields after them, of which the
    code reads [block_info[3]] and [block_info[4]], the forward and the
    reverse primer ids, when it checks primers. *)
Record block_row := mkBlock {
  blk_chr : string; blk_start : Z; blk_end : Z; blk_ids : list string }.

(** [block_info[3]] and [block_info[4]]: [None] where the row is too short
    and Python raises [IndexError]. *)
Definition blk_fwd (b : block_row) : option string := blk_ids b !! 0%nat.
Definition blk_rev (b : block_row) : option string := blk_ids b !! 1%nat.

(** [chr, start, end = block_info[:3]; start = int(start); end = int(end)]
    (rover.py 628-630): a row of fewer than three fields does not unpack
    and raises [ValueError], as does a coordinate that is not an integer. *)
Definition block_of_row (row : list string) : res block_row :=
  match row with
  | chr :: start :: end_ :: rest =>
      let! s := py_int_str start in
      let! e := py_int_str end_ in
      Ok (mkBlock chr s e rest)
  | _ => Err ValueError
  end.

(** The alignment file: [bam.fetch(chr, start, end)] returns the reads of
    a region, in file order. *)
Class BamFile (B : Type) := {
  fetch : B -> string -> Z -> Z -> list pysam_read }.

(** [get_MD(read)]: the value of the first [MD] tag. *)
Fixpoint find_tag (key : string) (ts : list (string * string)) : option string :=
  match ts with
  | [] => None
  | (k, v) :: ts' => if String.eqb k key then Some v else find_tag key ts'
  end.

Definition get_MD (r : pysam_read) : option string := find_tag "MD" (tags r).

(** Python's [a > b] on floats, on their exact values. *)
Definition py_float_gt (a b : Q) : bool :=
  match Qcompare a b with Gt => true | _ => false end.

(** [proportion_overlap(block_start, block_end, read)]; a block of size
    0 raises [ZeroDivisionError]. *)
Definition proportion_overlap (block_start block_end : Z) (read : pysam_read) : res Q :=
  let read_end := rpos read + rlen read - 1 in
  if rlen read <=? 0 then Ok 0%Q
  else if (read_end <? block_start) || (block_end <? rpos read) then Ok 0%Q
  else
    let overlap_start := Z.max block_start (rpos read) in
    let overlap_end := Z.min block_end read_end in
    let overlap_size := overlap_end - overlap_start + 1 in
    let block_size := block_end - block_start + 1 in
    if block_size =? 0 then Err ZeroDivisionError
    else Ok (inject_Z overlap_size / inject_Z block_size)%Q.

(** One iteration of the loop of [lookup_reads]: keep the read if it
    overlaps the block by more than [min_overlap], appending it to the
    list of its name. *)
Definition lookup_step (min_overlap : Q) (start_col end_col : Z)
    (read_pairs : gmap string (list pysam_read)) (read : pysam_read)
  : res (gmap string (list pysam_read)) :=
  let! overlap := proportion_overlap start_col end_col read in
  if py_float_gt overlap min_overlap then
    match read_pairs !! qname read with
    | None => Ok (<[qname read := [read]]> read_pairs)
    | Some rs => Ok (<[qname read := rs ++ [read]]> read_pairs)
    end
  else Ok read_pairs.

Fixpoint lookup_loop (min_overlap : Q) (start_col end_col : Z)
    (read_pairs : gmap string (list pysam_read)) (reads : list pysam_read)
  : res (gmap string (list pysam_read)) :=
  match reads with
  | [] => Ok read_pairs
  | r :: rs =>
      let! m := lookup_step min_overlap start_col end_col read_pairs r in
      lookup_loop min_overlap start_col end_col m rs
  end.

(** [lookup_reads(min_overlap, bam, chr, start_col, end_col)]; the two
    counters it logs are not modelled. *)
Definition lookup_reads `{BamFile B} (min_overlap : Q) (bam : B) (chr : string)
    (start_col end_col : Z) : res (gmap string (list pysam_read)) :=
  lookup_loop min_overlap start_col end_col ∅ (fetch bam chr start_col (end_col + 1)).

(** ** [proportion_overlap] *)

Section Proportion.
Variables (block_start block_end : Z) (read : pysam_read).

Lemma proportion_overlap_degenerate :
  rlen read <= 0 -> proportion_overlap block_start block_end read = Ok 0%Q.
Proof. intros H. unfold proportion_overlap. by rewrite (proj2 (Z.leb_le _ _) H). Qed.

Lemma proportion_overlap_disjoint :
  0 < rlen read ->
  rpos read + rlen read - 1 < block_start \/ block_end < rpos read ->
  proportion_overlap block_start block_end read = Ok 0%Q.
Proof.
  intros Hl Hd. unfold proportion_overlap.
  replace (rlen read <=? 0) with false by lia.
  replace ((rpos read + rlen read - 1 <? block_start) || (block_end <? rpos read))
    with true by lia. done.
Qed.

(** The value on an intersecting read: the exact quotient. *)
Lemma proportion_overlap_value :
  block_start <= block_end -> 0 < rlen read ->
  block_start <= rpos read + rlen read - 1 -> rpos read <= block_end ->
  proportion_overlap block_start block_end read =
  Ok (inject_Z (Z.min block_end (rpos read + rlen read - 1) - Z.max block_start (rpos read) + 1)
      / inject_Z (block_end - block_start + 1))%Q.
Proof.
  intros Hb Hl H1 H2. unfold proportion_overlap.
  replace (rlen read <=? 0) with false by lia.
  replace ((rpos read + rlen read - 1 <? block_start) || (block_end <? rpos read))
    with false by lia.
  by replace (block_end - block_start + 1 =? 0) with false by lia.
Qed.
End Proportion.

(** [a / b] for integers [0 < a <= b] lies in [(0, 1]]. *)
Lemma Q_ratio_bounds (a b : Z) :
  0 < a <= b -> (0 < inject_Z a / inject_Z b <= 1)%Q.
Proof.
  intros H. assert (Hb : (inject_Z 0 < inject_Z b)%Q) by (rewrite <- Zlt_Qlt; lia).
  split.
  - apply Qlt_shift_div_l; [done|]. rewrite Qmult_0_l.
    change (inject_Z 0 < inject_Z a)%Q. rewrite <- Zlt_Qlt. lia.
  - apply Qle_shift_div_r; [done|]. rewrite Qmult_1_l, <- Zle_Qle. lia.
Qed.

Lemma Q_ratio_mono (a1 a2 b : Z) :
  0 < b -> a1 <= a2 -> (inject_Z a1 / inject_Z b <= inject_Z a2 / inject_Z b)%Q.
Proof.
  intros Hb Ha. unfold Qdiv. apply Qmult_le_compat_r.
  - by rewrite <- Zle_Qle.
  - apply Qinv_le_0_compat. change (inject_Z 0 <= inject_Z b)%Q. rewrite <- Zle_Qle. lia.
Qed.

Lemma Q_ratio_self (b : Z) : 0 < b -> (inject_Z b / inject_Z b == 1)%Q.
Proof.
  intros Hb. apply Qmult_inv_r. change (~ inject_Z b == inject_Z 0)%Q.
  rewrite inject_Z_injective. lia.
Qed.

(** C10: [proportion_overlap] is 0 on a degenerate or a non-intersecting
    read, exactly 1 on a read spanning exactly the block, in [(0, 1]] on
    any other intersecting read, and grows with the intersection: a read
    whose span contains another's overlaps the block at least as much. *)
Theorem proportion_overlap_spec bs be r :
  bs <= be ->
  (rlen r <= 0 \/ rpos r + rlen r - 1 < bs \/ be < rpos r ->
     proportion_overlap bs be r = Ok 0%Q) /\
  (rpos r = bs -> rlen r = be - bs + 1 ->
     exists q, proportion_overlap bs be r = Ok q /\ (q == 1)%Q) /\
  (0 < rlen r -> bs <= rpos r + rlen r - 1 -> rpos r <= be ->
     exists q, proportion_overlap bs be r = Ok q /\ (0 < q <= 1)%Q /\
       forall r', 0 < rlen r' -> rpos r' <= rpos r ->
         rpos r + rlen r <= rpos r' + rlen r' ->
         exists q', proportion_overlap bs be r' = Ok q' /\ (q <= q')%Q).
Proof.
  intros Hb. split_and!.
  - intros [H|H]; [by apply proportion_overlap_degenerate|].
    destruct (Z.le_gt_cases (rlen r) 0); [by apply proportion_overlap_degenerate|].
    apply proportion_overlap_disjoint; lia.
  - intros Hp Hl. rewrite proportion_overlap_value by lia.
    eexists; split; [done|].
    rewrite Hp, Hl, Z.min_l, Z.max_l by lia. apply Q_ratio_self. lia.
  - intros Hl H1 H2. rewrite proportion_overlap_value by lia.
    eexists; split; [done|]. split.
    + apply Q_ratio_bounds. lia.
    + intros r' Hl' Hp' He'. rewrite proportion_overlap_value by lia.
      eexists; split; [done|]. apply Q_ratio_mono; lia.
Qed.

(** ** [lookup_reads] *)

(** Whether [lookup_reads] keeps a read: its overlap exceeds the
    threshold. *)
Definition selected (min_overlap : Q) (bs be : Z) (r : pysam_read) : bool :=
  match proportion_overlap bs be r with
  | Ok q => py_float_gt q min_overlap
  | Err _ => false
  end.

(** The reads of name [n] that [lookup_reads] keeps, in fetch order. *)
Definition group_of (min_overlap : Q) (bs be : Z) (reads : list pysam_read) (n : string) :=
  List.filter (fun r => String.eqb (qname r) n && selected min_overlap bs be r) reads.

(** Extending an optional list, as [read_pairs[name].append] does. *)
Definition app_group (o : option (list pysam_read)) (l : list pysam_read)
  : option (list pysam_read) :=
  match o, l with
  | None, [] => None
  | None, l => Some l
  | Some l0, l => Some (l0 ++ l)
  end.

Lemma proportion_overlap_Ok bs be r :
  bs <= be -> exists q, proportion_overlap bs be r = Ok q.
Proof.
  intros Hb. unfold proportion_overlap.
  destruct (_ <=? 0); [eauto|]. destruct (_ || _); [eauto|].
  replace (be - bs + 1 =? 0) with false by lia. eauto.
Qed.

Lemma app_group_app o l1 l2 : app_group (app_group o l1) l2 = app_group o (l1 ++ l2).
Proof. destruct o, l1, l2; simpl; rewrite ?app_nil_r; try done. by rewrite <- app_assoc. Qed.

Lemma lookup_loop_groups min bs be reads :
  bs <= be -> forall m0, exists m,
  lookup_loop min bs be m0 reads = Ok m /\
  forall n, m !! n = app_group (m0 !! n) (group_of min bs be reads n).
Proof.
  intros Hb. induction reads as [|r reads IH]; intros m0.
  - exists m0. split; [done|]. intros n. destruct (m0 !! n); simpl; by rewrite ?app_nil_r.
  - destruct (proportion_overlap_Ok bs be r Hb) as [q Hq].
    set (m1 := if py_float_gt q min then
                 match m0 !! qname r with
                 | None => <[qname r := [r]]> m0
                 | Some rs => <[qname r := rs ++ [r]]> m0 end else m0).
    destruct (IH m1) as (m & Hm & Hg). exists m. split.
    + simpl. unfold lookup_step. rewrite Hq. simpl.
      rewrite <- Hm. subst m1. destruct (py_float_gt q min); [|done].
      by destruct (m0 !! qname r).
    + intros n. rewrite Hg. unfold group_of. simpl. fold (group_of min bs be reads n).
      replace (selected min bs be r) with (py_float_gt q min) by (unfold selected; by rewrite Hq).
      change (r :: ?l) with ([r] ++ l). subst m1.
      destruct (String.eqb_spec (qname r) n) as [<-|Hne];
        destruct (py_float_gt q min); simpl; try done.
      * rewrite <- (app_group_app _ [r] (group_of min bs be reads (qname r))). f_equal.
        destruct (m0 !! qname r) eqn:E; rewrite lookup_insert_eq; done.
      * destruct (m0 !! qname r); by rewrite lookup_insert_ne.
Qed.

(** The groups [lookup_reads] builds, for the lemmas of its clients. *)
Lemma lookup_reads_map `{BamFile B} min (bam : B) chr bs be :
  bs <= be ->
  exists m, lookup_reads min bam chr bs be = Ok m /\
  forall n, m !! n =
    match group_of min bs be (fetch bam chr bs (be + 1)) n with
    | [] => None
    | g => Some g
    end.
Proof.
  intros Hb. destruct (lookup_loop_groups min bs be (fetch bam chr bs (be + 1)) Hb ∅)
    as (m & Hm & Hg).
  exists m. split; [done|]. intros n. rewrite Hg, lookup_empty. simpl.
  by destruct (group_of _ _ _ _ _).
Qed.

(** C9: on a block of positive size, [lookup_reads] succeeds and maps each
    read name to the reads of that name whose overlap with the block
    exceeds [min_overlap], in the order [fetch] returns them; a name with
    no such read is absent. *)
Theorem lookup_reads_groups `{BamFile B} min (bam : B) chr bs be :
  bs <= be ->
  exists m, lookup_reads min bam chr bs be = Ok m /\
  forall n, m !! n =
    match group_of min bs be (fetch bam chr bs (be + 1)) n with
    | [] => None
    | g => Some g
    end.
Proof. apply lookup_reads_map. Qed.

(** A block row written with [str] reads back as the block. *)
Lemma block_of_row_roundtrip chr s e ids :
  block_of_row (chr :: py_str_Z s :: py_str_Z e :: ids) = Ok (mkBlock chr s e ids).
Proof. unfold block_of_row. rewrite !py_int_str_py_str_Z. done. Qed.

(** ** Witnesses *)

(** An alignment file held in memory: [fetch] returns all its reads. *)
#[export] Instance reads_in_memory : BamFile (list pysam_read) :=
  { fetch := fun reads _ _ _ => reads }.

(** The block [chr1:100-200] (0-based [99, 199]) of the spec: a read
    covering [100-189] is not kept at [0.9], one covering [100-199] is. *)
Lemma proportion_overlap_spec_witness :
  99 <= 199 /\
  exists q, proportion_overlap 99 199 (mkRead "p" 99 100 [] "" "" []) = Ok q /\ (0 < q <= 1)%Q /\
    forall r', 0 < rlen r' -> rpos r' <= 99 -> 99 + 100 <= rpos r' + rlen r' ->
      exists q', proportion_overlap 99 199 r' = Ok q' /\ (q <= q')%Q.
Proof.
  split; [lia|].
  apply (proportion_overlap_spec 99 199 (mkRead "p" 99 100 [] "" "" [])); simpl; lia.
Defined.

Lemma lookup_reads_groups_witness :
  selected (9 # 10) 99 199 (mkRead "p" 99 90 [] "" "" []) = false /\
  selected (9 # 10) 99 199 (mkRead "p" 99 100 [] "" "" []) = true /\
  exists m, lookup_reads (9 # 10) [mkRead "p" 99 90 [] "" "" []; mkRead "p" 99 100 [] "" "" []]
              "chr1" 99 199 = Ok m /\
  forall n, m !! n =
    match group_of (9 # 10) 99 199
            (fetch [mkRead "p" 99 90 [] "" "" []; mkRead "p" 99 100 [] "" "" []]
               "chr1" 99 (199 + 1)) n with
    | [] => None
    | g => Some g
    end.
Proof.
  split; [reflexivity|]. split; [reflexivity|].
  apply lookup_reads_groups. lia.
Defined.
