(* ===== verification/Primer.v ===== *)
(** * Primer: the primer check of a read

    Models [reverse_complement], [possible_primer], [primer_diff] and
    [check_primers] (rover.py 526-608).  A read's forward primer region is
    the bases before the block's start, its reverse primer region the
    bases after the block's end; each is scored against the expected
    primer by Biopython's [pairwise2.align.globalxs] with a gap penalty
    [gap_penalty] for opening a gap and 0 for extending it.

    [pairwise2] is a library the code only calls: its score is modelled
    from the spec (4.5) and Biopython's documented behaviour as
    [globalxs]: a positive penalty raises [ValueError]; an empty sequence
    gives no alignment ([[]], not a float); otherwise the best score of a
    global alignment with 1 for a match, 0 for a mismatch and the penalty
    once per gap (a maximal run of gap columns in one of the sequences),
    end gaps included.  Whether the score is a Python [float] depends on
    the backend of the installed Biopython; the section variable
    [score_is_float] stands for it.  The gap penalty, a float option of
    the command line, is taken to be a whole number (the default is 0). *)

From S2P Require Import Prelude Bases Walker Overlap.
Open Scope Z_scope.

(** ** [reverse_complement] *)

(** [complementary_bases[str(base)]]; any other character raises
    [KeyError]. *)
Definition complement (c : ascii) : res ascii :=
  match c with
  | "A"%char => Ok "T"%char
  | "T"%char => Ok "A"%char
  | "G"%char => Ok "C"%char
  | "C"%char => Ok "G"%char
  | "N"%char => Ok "N"%char
  | _ => Err KeyError
  end.

(** The loop building [rc_bases]. *)
Fixpoint complement_all (s : string) : res string :=
  match s with
  | EmptyString => Ok EmptyString
  | String c s' => let! c' := complement c in let! r := complement_all s' in Ok (String c' r)
  end.

(** [rc[::-1]]. *)
Definition string_rev (s : string) : string :=
  string_of_list_ascii (rev (list_ascii_of_string s)).

Definition reverse_complement (sequence : string) : res string :=
  let! rc := complement_all sequence in Ok (string_rev rc).

(** ** [possible_primer] *)

(** The two values of [direction] the code passes: [-1] and [1]. *)
Inductive primer_dir := DirForward | DirReverse.

(** [primer_sequence[key]]. *)
Definition py_getitem (d : gmap string string) (key : string) : res string :=
  of_option KeyError (d !! key).

(** [primer_sequence[block_info[i]]]: [IndexError] for a missing field,
    then [KeyError] for an unknown id. *)
Definition primer_of (d : gmap string string) (id : option string) : res string :=
  let! key := of_option IndexError id in py_getitem d key.

Definition possible_primer (primer_sequence : gmap string string) (block_info : block_row)
    (bases : list Base) (pos : Z) (direction : primer_dir) : res string :=
  let forward_primer_end := blk_start block_info - pos in
  let reverse_primer_start := blk_end block_info - pos + 1 in
  let! _ := primer_of primer_sequence (blk_fwd block_info) in
  let! _ := primer_of primer_sequence (blk_rev block_info) in
  match direction with
  | DirForward => Ok (join_bases (py_slice bases 0 forward_primer_end))
  | DirReverse => Ok (join_bases (py_slice bases reverse_primer_start
                                   (Z.of_nat (length bases))))
  end.

(** ** [pairwise2.align.globalxs(seqA, seqB, open, 0, score_only=1)] *)

(** Whether the previous column is a gap in [seqB] (consumes [seqA]
    only), a gap in [seqA], or neither. *)
Inductive gap_state := NoGap | GapInB | GapInA.

#[export] Instance gap_state_eq_dec : EqDecision gap_state.
Proof. solve_decision. Defined.

Definition gap_cost (open : Z) (st cont : gap_state) : Z :=
  if decide (st = cont) then 0 else open.

(** The best score of a global alignment of [a] and [b] whose previous
    column is in state [st]. *)
Fixpoint align_score (open : Z) (a : string) : string -> gap_state -> Z :=
  match a with
  | EmptyString => fun b st =>
      match b with EmptyString => 0 | String _ _ => gap_cost open st GapInA end
  | String x a' =>
      fix go (b : string) (st : gap_state) : Z :=
        match b with
        | EmptyString => gap_cost open st GapInB
        | String y b' =>
            Z.max ((if Ascii.ascii_dec x y then 1 else 0) + align_score open a' b' NoGap)
              (Z.max (gap_cost open st GapInB + align_score open a' b GapInB)
                     (gap_cost open st GapInA + go b' GapInA))
        end
  end.

(** What [globalxs] returns: a float score, or a value that is not a
    float (an int score, or [[]] when there is no alignment). *)
Inductive pw_result := PwFloat (score : Z) | PwNotFloat.

Section Primer.
Variable score_is_float : bool.

Definition globalxs (seqA seqB : string) (open : Z) : res pw_result :=
  if 0 <? open then Err ValueError
  else if String.eqb seqA "" || String.eqb seqB "" then Ok PwNotFloat
  else if score_is_float then Ok (PwFloat (align_score open seqA seqB NoGap))
  else Ok PwNotFloat.

Definition primer_diff (primer1 primer2 : string) (gap_penalty : Z) : res Z :=
  let! score := globalxs primer1 primer2 gap_penalty in
  match score with
  | PwFloat s => Ok (Z.of_nat (String.length primer1) - s)
  | PwNotFloat => Ok (Z.of_nat (String.length primer1))
  end.

(** [check_primers(primer_sequence, block_info, bases, pos, primerthresh,
    gap_penalty)]: the forward and the reverse mismatch scores. *)
Definition check_primers (primer_sequence : gmap string string) (block_info : block_row)
    (bases : list Base) (pos primerthresh gap_penalty : Z) : res (Z * Z) :=
  let! ref_primer_forward := primer_of primer_sequence (blk_fwd block_info) in
  let! ref_primer_reverse := primer_of primer_sequence (blk_rev block_info) in
  let! forward_primer_region :=
    possible_primer primer_sequence block_info bases pos DirForward in
  let! reverse_primer_region :=
    possible_primer primer_sequence block_info bases pos DirReverse in
  let! forward_score := primer_diff ref_primer_forward forward_primer_region gap_penalty in
  let! rc := reverse_complement reverse_primer_region in
  let! reverse_score := primer_diff ref_primer_reverse rc gap_penalty in
  Ok (forward_score, reverse_score).
End Primer.

(** [printable_base(bases)] (rover.py 617-622), called only in
    commented-out report lines. *)
Definition printable_base (bases : Z) : string := if bases =? 1 then "base" else "bases".

(** ** [reverse_complement] *)















(** ** The alignment score *)

Lemma align_score_EE o st : align_score o "" "" st = 0.
Proof. done. Qed.

Lemma align_score_ES o y b st : align_score o "" (String y b) st = gap_cost o st GapInA.
Proof. done. Qed.

Lemma align_score_SE o x a st : align_score o (String x a) "" st = gap_cost o st GapInB.
Proof. done. Qed.

Lemma align_score_SS o x a y b st :
  align_score o (String x a) (String y b) st =
  Z.max ((if Ascii.ascii_dec x y then 1 else 0) + align_score o a b NoGap)
    (Z.max (gap_cost o st GapInB + align_score o a (String y b) GapInB)
           (gap_cost o st GapInA + align_score o (String x a) b GapInA)).
Proof. done. Qed.

Lemma gap_cost_nonpos o st cont : o <= 0 -> gap_cost o st cont <= 0.
Proof. unfold gap_cost. case_decide; lia. Qed.

(** With a non-positive penalty a score never exceeds the length of
    either sequence. *)
Lemma align_score_le o a b st :
  o <= 0 ->
  align_score o a b st <= Z.of_nat (Nat.min (String.length a) (String.length b)).
Proof.
  intros Ho. revert b st; induction a as [|x a IHa]; intros b.
  - destruct b; intros st; simpl; [lia|]. pose proof (gap_cost_nonpos o st GapInA Ho). lia.
  - induction b as [|y b IHb]; intros st.
    + simpl. pose proof (gap_cost_nonpos o st GapInB Ho). lia.
    + rewrite align_score_SS.
      pose proof (IHa b NoGap). pose proof (IHa (String y b) GapInB). pose proof (IHb GapInA).
      pose proof (gap_cost_nonpos o st GapInB Ho). pose proof (gap_cost_nonpos o st GapInA Ho).
      simpl String.length in *. destruct (Ascii.ascii_dec x y); lia.
Qed.

(** Aligning a sequence with itself scores at least its length. *)
Lemma align_score_diag o a st : Z.of_nat (String.length a) <= align_score o a a st.
Proof.
  revert st; induction a as [|x a IH]; intros st; [simpl; lia|].
  rewrite align_score_SS. destruct (Ascii.ascii_dec x x); [|done].
  specialize (IH NoGap). simpl String.length. lia.
Qed.

(** The reference the spec's scoring reduces to when the gap penalty is
    0: the length of a longest common subsequence, by its textbook
    recursion. *)
Fixpoint lcs (a : string) : string -> Z :=
  match a with
  | EmptyString => fun _ => 0
  | String x a' =>
      fix go (b : string) : Z :=
        match b with
        | EmptyString => 0
        | String y b' => if Ascii.ascii_dec x y then 1 + lcs a' b' else Z.max (lcs a' b) (go b')
        end
  end.

Lemma lcs_SS x a y b :
  lcs (String x a) (String y b) =
  if Ascii.ascii_dec x y then 1 + lcs a b else Z.max (lcs a (String y b)) (lcs (String x a) b).
Proof. done. Qed.

Lemma lcs_empty_r a : lcs a "" = 0.
Proof. by destruct a. Qed.

Lemma lcs_nonneg a b : 0 <= lcs a b.
Proof.
  revert b; induction a as [|x a IH]; intros b; [done|].
  induction b as [|y b IHb]; [done|]. rewrite lcs_SS.
  destruct (Ascii.ascii_dec x y); [specialize (IH b)|]; lia.
Qed.

(** Adding a character to the second string adds at most one to the
    score, and never removes any; the same for the first string. *)
Lemma lcs_cons_r a : forall b y, lcs a b <= lcs a (String y b) <= 1 + lcs a b.
Proof.
  induction a as [|x a IH]; intros b y; [simpl; lia|].
  assert (Hl : forall c, lcs (String x a) c <= 1 + lcs a c).
  { intros c. induction c as [|z c IHc]; [rewrite !lcs_empty_r; lia|].
    rewrite lcs_SS. specialize (IH c z). destruct (Ascii.ascii_dec x z); lia. }
  assert (Hm : forall c, lcs a c <= lcs (String x a) c).
  { intros c. induction c as [|z c IHc]; [rewrite !lcs_empty_r; lia|].
    rewrite (lcs_SS x a z c). specialize (IH c z). destruct (Ascii.ascii_dec x z); lia. }
  induction b as [|z b IHb].
  - rewrite lcs_SS, !lcs_empty_r. pose proof (IH "" y). rewrite lcs_empty_r in *.
    destruct (Ascii.ascii_dec x y); lia.
  - rewrite (lcs_SS x a y (String z b)).
    destruct (Ascii.ascii_dec x y) as [<-|].
    + specialize (Hl (String z b)). specialize (Hm (String z b)). lia.
    + split; [lia|]. pose proof (IH (String z b) y). pose proof (Hm (String z b)). lia.
Qed.

Lemma lcs_cons_l x a b : lcs a b <= lcs (String x a) b <= 1 + lcs a b.
Proof.
  induction b as [|y b IHb]; [rewrite !lcs_empty_r; lia|].
  rewrite lcs_SS. pose proof (lcs_cons_r a b y).
  destruct (Ascii.ascii_dec x y); lia.
Qed.

(** With no gap penalty the state of the previous column plays no part. *)
Lemma align_score_zero_lcs a b st : align_score 0 a b st = lcs a b.
Proof.
  revert b st; induction a as [|x a IH]; intros b st.
  - destruct b; [done|]. simpl. unfold gap_cost. by case_decide.
  - revert st; induction b as [|y b IHb]; intros st.
    + simpl. unfold gap_cost. by case_decide.
    + rewrite align_score_SS, lcs_SS, !IH, IHb.
      assert (Hg : forall c, gap_cost 0 st c = 0) by (intros c; unfold gap_cost; by case_decide).
      rewrite !Hg. pose proof (lcs_cons_r a b y). pose proof (lcs_cons_l x a b).
      destruct (Ascii.ascii_dec x y); lia.
Qed.

(** A primer compared with itself scores 0 with a float backend. *)
Lemma primer_diff_self p gap : gap <= 0 -> primer_diff true p p gap = Ok 0.
Proof.
  intros Hg. unfold primer_diff, globalxs. replace (0 <? gap) with false by lia. simpl.
  destruct (String.eqb p "") eqn:E; simpl.
  - apply String.eqb_eq in E. by subst.
  - pose proof (align_score_le gap p p NoGap Hg). pose proof (align_score_diag gap p NoGap).
    rewrite Nat.min_id in *. do 2 f_equal. lia.
Qed.

(** C25: [primer_diff].  A positive gap penalty raises [ValueError].
    Otherwise the mismatch score is never negative; it is
    [len(primer1)] minus the best alignment score when the backend
    returns a float score and both sequences are non-empty, and
    [len(primer1)] otherwise; a primer compared with itself scores 0 with
    a float backend, but its full length with a backend that returns an
    int score. *)
Theorem primer_diff_spec f p1 p2 gap :
  (0 < gap -> primer_diff f p1 p2 gap = Err ValueError) /\
  (gap <= 0 ->
   exists d, primer_diff f p1 p2 gap = Ok d /\ 0 <= d /\
     d = (if f && negb (String.eqb p1 "") && negb (String.eqb p2 "")
          then Z.of_nat (String.length p1) - align_score gap p1 p2 NoGap
          else Z.of_nat (String.length p1))) /\
  (gap <= 0 -> primer_diff true p1 p1 gap = Ok 0 /\
               primer_diff false p1 p1 gap = Ok (Z.of_nat (String.length p1))).
Proof.
  unfold primer_diff, globalxs.
  split_and!; intros Hg; [by replace (0 <? gap) with true by lia| |];
    replace (0 <? gap) with false by lia; simpl.
  - pose proof (align_score_le gap p1 p2 NoGap Hg).
    destruct (String.eqb p1 ""), (String.eqb p2 ""), f; simpl; eexists; split_and!;
      try reflexivity; lia.
  - split; [|by destruct (String.eqb p1 "")].
    pose proof (primer_diff_self p1 gap Hg) as Hs.
    unfold primer_diff, globalxs in Hs. by replace (0 <? gap) with false in Hs by lia.
Qed.

(** C26: with the default gap penalty 0 and a float backend, the mismatch
    score of two non-empty sequences is the primer's length minus the
    length of a longest common subsequence, so it lies in
    [[0, len(primer1)]]. *)
Theorem primer_diff_default_gap p1 p2 :
  p1 <> "" -> p2 <> "" ->
  primer_diff true p1 p2 0 = Ok (Z.of_nat (String.length p1) - lcs p1 p2) /\
  0 <= Z.of_nat (String.length p1) - lcs p1 p2 <= Z.of_nat (String.length p1).
Proof.
  intros H1 H2. unfold primer_diff, globalxs. simpl.
  apply String.eqb_neq in H1, H2. rewrite H1, H2. simpl.
  rewrite align_score_zero_lcs. split; [done|].
  pose proof (lcs_nonneg p1 p2). pose proof (align_score_le 0 p1 p2 NoGap ltac:(lia)).
  rewrite align_score_zero_lcs in *. lia.
Qed.

Lemma primer_diff_default_gap_witness :
  ("ACGT" <> "" /\ "AGT" <> "") /\
  primer_diff true "ACGT" "AGT" 0 = Ok (Z.of_nat (String.length "ACGT") - lcs "ACGT" "AGT") /\
  0 <= Z.of_nat (String.length "ACGT") - lcs "ACGT" "AGT" <= Z.of_nat (String.length "ACGT").
Proof.
  split; [split; discriminate|]. apply primer_diff_default_gap; discriminate.
Defined.

(** ** [check_primers] *)

(** C24: a read that carries the expected primers scores 0: when the bases
    before the block's start spell the forward primer and the bases after
    its end spell the reverse complement of the reverse primer,
    [check_primers] returns [(0, 0)] with a float backend and a
    non-positive gap penalty, so the pair is kept for any [primerthresh]
    of at least 0. *)
Theorem check_primers_exact ps block bases pos thresh gap pf pr :
  primer_of ps (blk_fwd block) = Ok pf -> primer_of ps (blk_rev block) = Ok pr -> gap <= 0 ->
  join_bases (py_slice bases 0 (blk_start block - pos)) = pf ->
  reverse_complement (join_bases (py_slice bases (blk_end block - pos + 1)
                                    (Z.of_nat (length bases)))) = Ok pr ->
  check_primers true ps block bases pos thresh gap = Ok (0, 0).
Proof.
  intros Hf Hr Hg Hfr Hrr. unfold check_primers, possible_primer.
  rewrite Hf, Hr. simpl. rewrite Hfr, Hrr. simpl.
  rewrite (primer_diff_self pf gap Hg). simpl. by rewrite (primer_diff_self pr gap Hg).
Qed.

(** The expected primers of a block [chr1:11-14] and a read of 12 bases
    at 1-based position 7 carrying both of them. *)
Definition ex_primers : gmap string string := <["F" := "ACGT"]> (<["R" := "AAAC"]> ∅).
Definition ex_primer_block : block_row := mkBlock "chr1" 11 14 ["F"; "R"].

Lemma check_primers_exact_witness :
  check_primers true ex_primers ex_primer_block
    (make_base_seq "r" "ACGTCCCCGTTT" "IIIIIIIIIIII") 7 5 0 = Ok (0, 0).
Proof.
  apply (check_primers_exact _ _ _ _ _ _ "ACGT" "AAAC"); try (vm_compute; reflexivity); lia.
Defined.

