(* ===== verification/Aggregate.v ===== *)
(** * Aggregate: [process_blocks], consensus of mates and support counts

    Models the per-block work of [process_blocks] (rover.py 624-771):
    every group of reads of one name is a pair when it has two reads; the
    two mates' variants are each made a Python [set], intersected,
    optionally checked against the primers, and counted per block in the
    dict [block_vars]; at the end of the block every counted variant gets
    its [info] tags and its threshold filters.

    The state of one block is the record [block_acc]: [block_vars] (a dict
    from a variant to its count, modelled as a [gmap] from the variant's
    [as_tuple] to the first variant object inserted and its count, since a
    Python dict keeps its first key), [num_pairs], [num_discards], the
    histogram [scores] and the run-wide [total_scores].

    The primer check is a parameter [check_primers] of the section
    [Process]: the theorems here hold for any primer checker that returns
    two scores or raises.  The iteration order of [read_pairs.items()],
    [same_variants] and [block_vars] is Python 2's hash order, which the
    model takes as the list order it is given; [process_pairs_perm] shows
    that the support counts do not depend on it.

    The theorems: the support counts ([process_pairs_support]), their
    order independence, the safety of the division by [num_pairs] at the
    end of the block ([block_annotate_safe]), the annotations and filter
    tags ([annotate_spec]), the CPython intersection
    ([py_set_intersection_spec]) and the primer histograms
    ([process_pairs_histograms]). *)

From S2P Require Import Prelude Bases Variants MdParse Walker Overlap.
From Stdlib Require Import QArith Qround.
Open Scope Z_scope.

(** The fields of [args] that [process_blocks] reads. *)
Record rover_args := mkArgs {
  a_overlap : Q;
  a_proportionthresh : Q;
  a_absthresh : Z;
  a_qualthresh : option Z;
  a_primercheck : bool;
  a_primerthresh : Z;
  a_gap_penalty : Z }.

(** ** Python sets of variants *)

(** [set(variants)]: adding an element equal to one already present keeps
    the present one. *)
Definition py_set (vs : list variant) : list variant :=
  fold_left (fun acc v => if existsb (variant_eqb v) acc then acc else acc ++ [v]) vs [].

(** [set1.intersection(set2)] as CPython computes it: it iterates over the
    smaller set (over [set2] when the sizes are equal) and keeps that
    set's objects. *)
Definition py_set_intersection (set1 set2 : list variant) : list variant :=
  let '(so, other) := if (length set1 <? length set2)%nat then (set2, set1) else (set1, set2) in
  List.filter (fun v => existsb (variant_eqb v) so) other.

(** ** The block state *)

Record block_acc := mkAcc {
  block_vars : gmap pytuple (variant * Z);
  num_pairs : Z;
  num_discards : Z;
  scores : gmap Z Z;
  total_scores : gmap Z Z }.

Definition init_acc (total : gmap Z Z) : block_acc := mkAcc ∅ 0 0 ∅ total.

(** [if k in h: h[k] += 1 else: h[k] = 1]. *)
Definition hist_incr (k : Z) (h : gmap Z Z) : gmap Z Z :=
  match h !! k with
  | Some c => <[k := c + 1]> h
  | None => <[k := 1]> h
  end.

(** [if var in block_vars: block_vars[var] += 1 else: block_vars[var] = 1]. *)
Definition count_var (bv : gmap pytuple (variant * Z)) (var : variant)
  : gmap pytuple (variant * Z) :=
  match bv !! as_tuple var with
  | Some (v0, c) => <[as_tuple var := (v0, c + 1)]> bv
  | None => <[as_tuple var := (var, 1)]> bv
  end.

(** The loop [for var in same_variants: if var.pos >= start and
    var.pos <= end: ...]. *)
Definition count_block_vars (start end_ : Z) (same : list variant)
    (bv : gmap pytuple (variant * Z)) : gmap pytuple (variant * Z) :=
  fold_left (fun bv var =>
    if (start <=? var_pos var) && (var_pos var <=? end_) then count_var bv var else bv)
    same bv.

Section Process.
(** [check_primers(primer_sequence, block_info, bases, pos, primerthresh,
    gap_penalty)]: the forward and reverse scores, or an exception. *)
Variable check_primers :
  gmap string string -> block_row -> list Base -> Z -> Z -> Z -> res (Z * Z).
Variables (args : rover_args) (primer_sequence : gmap string string) (block : block_row).

(** The variants of one mate (rover.py 666-667). *)
Definition mate_variants (r : pysam_read) (bases : list Base) : res (list variant) :=
  read_variants (a_qualthresh args) (qname r) (blk_chr block) (rpos r + 1) bases
    (rcigar r) (md_tokens (get_MD r)).

(** The body of the loop for a group of two reads (rover.py 644-710). *)
Definition process_pair (read1 read2 : pysam_read) (acc : block_acc) : res block_acc :=
  let np := num_pairs acc + 1 in
  let read1_bases := make_base_seq (qname read1) (query read1) (qqual read1) in
  let read2_bases := make_base_seq (qname read2) (query read2) (qqual read2) in
  let! variants1 := mate_variants read1 read1_bases in
  let! variants2 := mate_variants read2 read2_bases in
  let same_variants := py_set_intersection (py_set variants1) (py_set variants2) in
  let! checked :=
    if a_primercheck args then
      let! read1_check := check_primers primer_sequence block read1_bases (rpos read1 + 1)
                            (a_primerthresh args) (a_gap_penalty args) in
      let! read2_check := check_primers primer_sequence block read2_bases (rpos read2 + 1)
                            (a_primerthresh args) (a_gap_penalty args) in
      let forward_score := Z.max read1_check.1 read2_check.1 in
      let reverse_score := Z.max read1_check.2 read2_check.2 in
      Ok (hist_incr reverse_score (hist_incr forward_score (scores acc)),
          hist_incr reverse_score (hist_incr forward_score (total_scores acc)),
          (a_primerthresh args <? forward_score) || (a_primerthresh args <? reverse_score))
    else Ok (scores acc, total_scores acc, false) in
  let '(sc, tot, discard) := checked in
  if negb discard then
    Ok (mkAcc (count_block_vars (blk_start block) (blk_end block) same_variants (block_vars acc))
              np (num_discards acc) sc tot)
  else
    Ok (mkAcc (block_vars acc) (np - 1) (num_discards acc + 1) sc tot).

(** One item of [read_pairs.items()]: a pair, or a group of another size,
    which is logged and skipped. *)
Definition process_group (reads : list pysam_read) (acc : block_acc) : res block_acc :=
  match reads with
  | [read1; read2] => process_pair read1 read2 acc
  | _ => Ok acc
  end.

Fixpoint process_pairs (groups : list (string * list pysam_read)) (acc : block_acc)
  : res block_acc :=
  match groups with
  | [] => Ok acc
  | (_, reads) :: gs => let! acc' := process_group reads acc in process_pairs gs acc'
  end.
End Process.

(** ** The records of a block *)

(** [round] to the nearest integer, ties to even, as [format] rounds. *)
Definition round_half_even (x : Q) : Z :=
  let f := Qfloor x in
  match Qcompare (x - inject_Z f) (1 # 2) with
  | Lt => f
  | Gt => f + 1
  | Eq => if Z.even f then f else f + 1
  end.

Definition pad2 (n : Z) : string :=
  if n <? 10 then "0" +:+ py_str_Z n else py_str_Z n.

(** ['{:.2%}'.format(p)]. *)
Definition format_pct (p : Q) : string :=
  let n := round_half_even (p * 10000)%Q in
  py_str_Z (n / 100) +:+ "." +:+ pad2 (n mod 100) +:+ "%".

(** Python's [a < b] on floats, on their exact values. *)
Definition py_float_lt (a b : Q) : bool :=
  match Qcompare a b with Lt => true | _ => false end.

(** The body of [for var in block_vars:] (rover.py 745-755), before
    [write_variant]. *)
Definition annotate (args : rover_args) (sample : string) (num_pairs : Z)
    (var : variant) (num_vars : Z) : res variant :=
  if num_pairs =? 0 then Err ZeroDivisionError else
  let proportion := (inject_Z num_vars / inject_Z num_pairs)%Q in
  let var := add_info ("Sample=" +:+ sample) var in
  let var := add_info ("NV=" +:+ py_str_Z num_vars) var in
  let var := add_info ("NP=" +:+ py_str_Z num_pairs) var in
  let var := add_info ("PCT=" +:+ format_pct proportion) var in
  let var := if num_vars <? a_absthresh args then add_filter ";at" var else var in
  let var := if py_float_lt proportion (a_proportionthresh args)
             then add_filter ";pt" var else var in
  Ok var.

Fixpoint annotate_all (args : rover_args) (sample : string) (num_pairs : Z)
    (entries : list (pytuple * (variant * Z))) : res (list variant) :=
  match entries with
  | [] => Ok []
  | (_, (var, n)) :: es =>
      let! v := annotate args sample num_pairs var n in
      let! vs := annotate_all args sample num_pairs es in
      Ok (v :: vs)
  end.

(** One iteration of the block loop of [process_blocks]: the annotated
    variants of the block, its coverage line and the run-wide histogram. *)
Definition process_block `{BamFile B}
    (check_primers : gmap string string -> block_row -> list Base -> Z -> Z -> Z -> res (Z * Z))
    (args : rover_args) (bam : B) (sample : string) (primer_sequence : gmap string string)
    (total : gmap Z Z) (block : block_row)
  : res (list variant * (string * Z * Z * Z) * gmap Z Z) :=
  let! read_pairs := lookup_reads (a_overlap args) bam (blk_chr block)
                       (blk_start block - 1) (blk_end block - 1) in
  let! acc := process_pairs check_primers args primer_sequence block
                (map_to_list read_pairs) (init_acc total) in
  let! vars := annotate_all args sample (num_pairs acc) (map_to_list (block_vars acc)) in
  Ok (vars, (blk_chr block, blk_start block, blk_end block, num_pairs acc), total_scores acc).

(** ** Sets of variants *)

Definition keys (vs : list variant) : list pytuple := List.map as_tuple vs.

Lemma existsb_eqb_key v vs : existsb (variant_eqb v) vs = true <-> In (as_tuple v) (keys vs).
Proof.
  unfold keys. rewrite existsb_exists, in_map_iff.
  split; intros (w & H1 & H2); exists w; split; try done;
    [symmetry; by apply variant_eqb_spec | apply variant_eqb_spec; by symmetry].
Qed.

Lemma py_set_fold acc vs :
  List.NoDup (keys acc) ->
  let r := fold_left (fun acc v => if existsb (variant_eqb v) acc then acc else acc ++ [v]) vs acc in
  List.NoDup (keys r) /\ (forall w, In w r -> In w acc \/ In w vs) /\
  (forall k, In k (keys r) <-> In k (keys acc) \/ In k (keys vs)).
Proof.
  revert acc; induction vs as [|v vs IH]; intros acc Hnd; simpl.
  - split_and!; auto. intros k; split; [auto | intros [?|[]]; auto].
  - destruct (existsb (variant_eqb v) acc) eqn:E.
    + apply existsb_eqb_key in E. destruct (IH acc Hnd) as (H1 & H2 & H3).
      split_and!; [done | intros w Hw; destruct (H2 w Hw); auto |].
      intros k. rewrite H3. split; [intros [?|?]; auto | intros [?|[<-|?]]; auto].
    + assert (Hnd' : List.NoDup (keys (acc ++ [v]))).
      { unfold keys. rewrite map_app. apply List.NoDup_app; [done | repeat constructor; intros [] |].
        intros k Hk Hk'. simpl in Hk'. destruct Hk' as [<-|[]].
        apply not_true_iff_false in E. apply E. by apply existsb_eqb_key. }
      destruct (IH _ Hnd') as (H1 & H2 & H3). split_and!; [done| |].
      * intros w Hw. destruct (H2 w Hw) as [Hin|Hin]; [|auto].
        apply in_app_or in Hin as [?|[<-|[]]]; auto.
      * intros k. rewrite H3. unfold keys. rewrite map_app, in_app_iff. simpl.
        split; [intros [[?|[<-|[]]]|?]; auto | intros [?|[<-|?]]; auto].
Qed.

(** [set(vs)] has no two equal elements, holds objects of [vs], and the
    same keys as [vs]. *)
Lemma py_set_spec vs :
  List.NoDup (keys (py_set vs)) /\ (forall w, In w (py_set vs) -> In w vs) /\
  (forall k, In k (keys (py_set vs)) <-> In k (keys vs)).
Proof.
  destruct (py_set_fold [] vs (List.NoDup_nil _)) as (H1 & H2 & H3).
  split_and!; [done | intros w Hw; by destruct (H2 w Hw) | intros k; rewrite H3; simpl; tauto].
Qed.

Lemma keys_filter_NoDup f vs : List.NoDup (keys vs) -> List.NoDup (keys (List.filter f vs)).
Proof.
  unfold keys. induction vs as [|v vs IH]; simpl; [done|].
  intros Hnd. apply NoDup_cons_iff in Hnd as [Hv Hnd].
  destruct (f v); simpl; [|auto]. constructor; [|auto].
  intros Hin. apply Hv. apply in_map_iff in Hin as (w & Hw & Hin).
  apply filter_In in Hin as [Hin _]. rewrite <- Hw. by apply in_map.
Qed.

Lemma py_set_intersection_keys s1 s2 :
  List.NoDup (keys s1) -> List.NoDup (keys s2) ->
  List.NoDup (keys (py_set_intersection s1 s2)) /\
  (forall k, In k (keys (py_set_intersection s1 s2)) <-> In k (keys s1) /\ In k (keys s2)) /\
  (forall w, In w (py_set_intersection s1 s2) ->
     if (length s1 <? length s2)%nat then In w s1 else In w s2).
Proof.
  intros H1 H2. unfold py_set_intersection.
  destruct (Nat.ltb_spec (length s1) (length s2)); simpl; split_and!;
    try (apply keys_filter_NoDup; done);
    try (intros w Hw; apply filter_In in Hw; tauto).
  all: intros k; unfold keys; rewrite in_map_iff; split;
    [intros (w & <- & Hw); apply filter_In in Hw as [Hw He];
     apply existsb_eqb_key in He; split; [|]; try done; by apply in_map
    |intros [Ha Hb]].
  - apply in_map_iff in Ha as (w & <- & Hw). exists w. split; [done|].
    apply filter_In. split; [done|]. by apply existsb_eqb_key.
  - apply in_map_iff in Hb as (w & <- & Hw). exists w. split; [done|].
    apply filter_In. split; [done|]. by apply existsb_eqb_key.
Qed.

(** C23: the intersection holds the variants whose key is in both sets,
    once each, and its objects are those of the smaller set ([set2] when
    the sizes are equal): the filter, context and info of a consensus
    variant are those of that mate's copy. *)
Theorem py_set_intersection_spec s1 s2 :
  List.NoDup (keys s1) -> List.NoDup (keys s2) ->
  List.NoDup (keys (py_set_intersection s1 s2)) /\
  (forall k, In k (keys (py_set_intersection s1 s2)) <-> In k (keys s1) /\ In k (keys s2)) /\
  (forall w, In w (py_set_intersection s1 s2) ->
     if (length s1 <? length s2)%nat then In w s1 else In w s2).
Proof. apply py_set_intersection_keys. Qed.

(** ** One pair: what it contributes, independently of the block state *)

(** What a pair yields: its consensus [same_variants], the two primer
    scores when they are checked, and whether the pair is discarded. *)
Definition pair_outcome : Type := list variant * option (Z * Z) * bool.

Definition analyse_pair
    (check_primers : gmap string string -> block_row -> list Base -> Z -> Z -> Z -> res (Z * Z))
    (args : rover_args) (primer_sequence : gmap string string) (block : block_row)
    (read1 read2 : pysam_read) : res pair_outcome :=
  let read1_bases := make_base_seq (qname read1) (query read1) (qqual read1) in
  let read2_bases := make_base_seq (qname read2) (query read2) (qqual read2) in
  let! variants1 := mate_variants args block read1 read1_bases in
  let! variants2 := mate_variants args block read2 read2_bases in
  let same := py_set_intersection (py_set variants1) (py_set variants2) in
  if a_primercheck args then
    let! c1 := check_primers primer_sequence block read1_bases (rpos read1 + 1)
                 (a_primerthresh args) (a_gap_penalty args) in
    let! c2 := check_primers primer_sequence block read2_bases (rpos read2 + 1)
                 (a_primerthresh args) (a_gap_penalty args) in
    let f := Z.max c1.1 c2.1 in
    let r := Z.max c1.2 c2.2 in
    Ok (same, Some (f, r), (a_primerthresh args <? f) || (a_primerthresh args <? r))
  else Ok (same, None, false).

Definition apply_outcome (block : block_row) (o : pair_outcome) (acc : block_acc) : block_acc :=
  let '(same, sc, discard) := o in
  let hist h := match sc with Some (f, r) => hist_incr r (hist_incr f h) | None => h end in
  if negb discard then
    mkAcc (count_block_vars (blk_start block) (blk_end block) same (block_vars acc))
          (num_pairs acc + 1) (num_discards acc) (hist (scores acc)) (hist (total_scores acc))
  else
    mkAcc (block_vars acc) (num_pairs acc + 1 - 1) (num_discards acc + 1)
          (hist (scores acc)) (hist (total_scores acc)).

Lemma process_pair_analyse chk args ps block r1 r2 acc :
  process_pair chk args ps block r1 r2 acc =
  res_map (fun o => apply_outcome block o acc) (analyse_pair chk args ps block r1 r2).
Proof.
  unfold process_pair, analyse_pair.
  destruct (mate_variants args block r1 _) as [v1|e]; [|done]; simpl.
  destruct (mate_variants args block r2 _) as [v2|e]; [|done]; simpl.
  destruct (a_primercheck args); simpl; [|done].
  destruct (chk ps block _ (rpos r1 + 1) _ _) as [c1|e]; [|done]; simpl.
  destruct (chk ps block _ (rpos r2 + 1) _ _) as [c2|e]; [|done]; simpl.
  by destruct (_ || _).
Qed.

Fixpoint analyse_groups chk args ps block (groups : list (string * list pysam_read))
  : res (list pair_outcome) :=
  match groups with
  | [] => Ok []
  | (_, [r1; r2]) :: gs =>
      let! o := analyse_pair chk args ps block r1 r2 in
      let! os := analyse_groups chk args ps block gs in
      Ok (o :: os)
  | _ :: gs => analyse_groups chk args ps block gs
  end.

Lemma process_pairs_analyse chk args ps block groups acc :
  process_pairs chk args ps block groups acc =
  res_map (fun os => fold_left (fun acc o => apply_outcome block o acc) os acc)
          (analyse_groups chk args ps block groups).
Proof.
  revert acc; induction groups as [|[n reads] gs IH]; intros acc; [done|].
  destruct reads as [|r1 [|r2 [|r3 reads]]]; simpl; try apply IH.
  rewrite process_pair_analyse.
  destruct (analyse_pair chk args ps block r1 r2) as [o|e]; simpl; [|done].
  rewrite IH. by destruct (analyse_groups chk args ps block gs).
Qed.

Lemma analyse_pair_nodup chk args ps block r1 r2 o :
  analyse_pair chk args ps block r1 r2 = Ok o -> List.NoDup (keys o.1.1).
Proof.
  unfold analyse_pair. intros H. res_inv.
  assert (Hs : List.NoDup (keys (py_set_intersection (py_set x) (py_set x0)))).
  { apply py_set_intersection_keys; apply py_set_spec. }
  destruct (a_primercheck args); res_inv; subst; simpl; done.
Qed.

(** ** Support counts *)

(** [block_vars.get(k, 0)]: the count of a key. *)
Definition vcount (bv : gmap pytuple (variant * Z)) (k : pytuple) : Z :=
  match bv !! k with Some (_, c) => c | None => 0 end.

(** Whether a consensus holds, inside [start, end], a variant of key [k]. *)
Definition in_block_key (start end_ : Z) (same : list variant) (k : pytuple) : bool :=
  existsb (fun v => (start <=? var_pos v) && (var_pos v <=? end_) && bool_decide (as_tuple v = k))
    same.

Definition kept (o : pair_outcome) : bool := negb o.2.

Definition supports (block : block_row) (k : pytuple) (o : pair_outcome) : bool :=
  kept o && in_block_key (blk_start block) (blk_end block) o.1.1 k.

(** A group of exactly two reads. *)
Definition is_pair (g : string * list pysam_read) : bool :=
  match g.2 with [_; _] => true | _ => false end.

Lemma count_var_vcount bv var k :
  vcount (count_var bv var) k = vcount bv k + (if bool_decide (as_tuple var = k) then 1 else 0).
Proof.
  unfold count_var, vcount.
  destruct (bv !! as_tuple var) as [[v0 c]|] eqn:E;
    (case_bool_decide as Hk; [subst k; rewrite lookup_insert_eq, ?E; lia
                              | rewrite lookup_insert_ne by done; lia]).
Qed.

Lemma count_block_vars_vcount s e same bv k :
  List.NoDup (keys same) ->
  vcount (count_block_vars s e same bv) k =
  vcount bv k + (if in_block_key s e same k then 1 else 0).
Proof.
  unfold count_block_vars. revert bv; induction same as [|v same IH]; intros bv Hnd; simpl.
  { lia. }
  apply NoDup_cons_iff in Hnd as [Hv Hnd]. rewrite IH by done. unfold in_block_key; simpl.
  destruct ((s <=? var_pos v) && (var_pos v <=? e)) eqn:Hr; simpl.
  - rewrite count_var_vcount. case_bool_decide as Hk; simpl; [|lia].
    replace (existsb _ same) with false; [lia|]. symmetry. apply not_true_iff_false.
    intros (w & Hw & Hc)%existsb_exists. apply andb_true_iff in Hc as [_ Hc].
    apply bool_decide_eq_true in Hc. apply Hv. rewrite Hk, <- Hc. by apply in_map.
  - lia.
Qed.

Definition counts_pos (bv : gmap pytuple (variant * Z)) : Prop :=
  forall k v c, bv !! k = Some (v, c) -> 1 <= c.

Lemma count_block_vars_pos s e same bv :
  counts_pos bv -> counts_pos (count_block_vars s e same bv).
Proof.
  unfold count_block_vars. revert bv; induction same as [|v same IH]; intros bv Hp; simpl; [done|].
  apply IH. destruct (_ && _); [|done]. unfold count_var.
  intros k w c. destruct (bv !! as_tuple v) as [[v0 c0]|] eqn:E;
    (destruct (decide (as_tuple v = k)) as [<-|Hne];
     [rewrite lookup_insert_eq; intros [= <- <-]; try lia; specialize (Hp _ _ _ E); lia
     | rewrite lookup_insert_ne by done; apply Hp]).
Qed.

Lemma analyse_groups_nodup chk args ps block groups os :
  analyse_groups chk args ps block groups = Ok os ->
  Forall (fun o => List.NoDup (keys o.1.1)) os /\ length os = length (List.filter is_pair groups).
Proof.
  revert os; induction groups as [|[n reads] gs IH]; intros os H; simpl in H.
  - injection H as <-. split; [constructor | done].
  - destruct reads as [|r1 [|r2 [|r3 reads]]]; simpl;
      try (apply IH; exact H).
    res_inv. subst. destruct (IH _ H0) as [IH1 IH2].
    split; [constructor; [eapply analyse_pair_nodup; eauto | done] | simpl; lia].
Qed.

Lemma fold_apply_counts block os acc :
  Forall (fun o => List.NoDup (keys o.1.1)) os ->
  let acc' := fold_left (fun acc o => apply_outcome block o acc) os acc in
  num_pairs acc' = num_pairs acc + Z.of_nat (length (List.filter kept os)) /\
  num_discards acc' = num_discards acc + Z.of_nat (length (List.filter (fun o => o.2) os)) /\
  (forall k, vcount (block_vars acc') k =
             vcount (block_vars acc) k + Z.of_nat (length (List.filter (supports block k) os))) /\
  (counts_pos (block_vars acc) -> counts_pos (block_vars acc')).
Proof.
  revert acc; induction os as [|[[same sc] d] os IH]; intros acc Hnd; simpl.
  { split_and!; intros; lia || done. }
  inversion Hnd as [|? ? Hs Hos]; subst.
  destruct (IH (apply_outcome block (same, sc, d) acc) Hos) as (H1 & H2 & H3 & H4).
  unfold kept, supports in *; simpl in *.
  destruct d; simpl in *; split_and!.
  - rewrite H1. lia.
  - rewrite H2. lia.
  - intros k. rewrite H3. simpl. lia.
  - intros Hp. by apply H4.
  - rewrite H1. lia.
  - rewrite H2. lia.
  - intros k. rewrite H3. simpl. rewrite count_block_vars_vcount by done.
    destruct (in_block_key _ _ _ _); simpl; lia.
  - intros Hp. apply H4. simpl. by apply count_block_vars_pos.
Qed.

Lemma filter_length_le {A} (f g : A -> bool) l :
  (forall x, f x = true -> g x = true) ->
  (length (List.filter f l) <= length (List.filter g l))%nat.
Proof.
  intros Hfg. induction l as [|x l IH]; simpl; [lia|].
  destruct (f x) eqn:Ef; [rewrite (Hfg x Ef); simpl; lia|].
  destruct (g x); simpl; lia.
Qed.

Lemma kept_filter_length os :
  (length (List.filter kept os) + length (List.filter (fun o => o.2) os) = length os)%nat.
Proof.
  induction os as [|o os IH]; simpl; [done|]. unfold kept at 1.
  destruct o.2; simpl; lia.
Qed.

Lemma process_pairs_counts chk args ps block groups t acc :
  process_pairs chk args ps block groups (init_acc t) = Ok acc ->
  exists os, analyse_groups chk args ps block groups = Ok os /\
    num_pairs acc = Z.of_nat (length (List.filter kept os)) /\
    num_pairs acc + num_discards acc = Z.of_nat (length (List.filter is_pair groups)) /\
    counts_pos (block_vars acc) /\
    forall k, vcount (block_vars acc) k = Z.of_nat (length (List.filter (supports block k) os)) /\
              0 <= vcount (block_vars acc) k <= num_pairs acc.
Proof.
  rewrite process_pairs_analyse. intros H.
  destruct (analyse_groups chk args ps block groups) as [os|e] eqn:E; [|done].
  injection H as <-. destruct (analyse_groups_nodup _ _ _ _ _ _ E) as [Hnd Hlen].
  destruct (fold_apply_counts block os (init_acc t) Hnd) as (H1 & H2 & H3 & H4).
  exists os. simpl in *. split_and!; [done | lia | | |].
  - rewrite H1, H2, <- Hlen, <- (kept_filter_length os). lia.
  - apply H4. intros k v c. by rewrite lookup_empty.
  - intros k. rewrite H3.
    assert (H0 : vcount ∅ k = 0) by (unfold vcount; by rewrite lookup_empty).
    rewrite H0. split; [lia|]. rewrite H1.
    assert (Hle : (length (List.filter (supports block k) os) <= length (List.filter kept os))%nat).
    { apply filter_length_le. intros o. unfold supports. rewrite andb_true_iff. tauto. }
    lia.
Qed.

(** C3: the support counts of a block.  When the pairs of a block are
    processed, [num_pairs] is the number of pairs not discarded by the
    primer check (a discarded pair is counted and uncounted), it and
    [num_discards] add up to the number of two-read groups, and the count
    of every variant key is the number of kept pairs whose consensus
    holds a variant of that key inside the block; no count exceeds
    [num_pairs], and every key present has a count of at least 1. *)
Theorem process_pairs_support chk args ps block groups t acc :
  process_pairs chk args ps block groups (init_acc t) = Ok acc ->
  exists os, analyse_groups chk args ps block groups = Ok os /\
    num_pairs acc = Z.of_nat (length (List.filter kept os)) /\
    num_pairs acc + num_discards acc = Z.of_nat (length (List.filter is_pair groups)) /\
    counts_pos (block_vars acc) /\
    forall k, vcount (block_vars acc) k = Z.of_nat (length (List.filter (supports block k) os)) /\
              0 <= vcount (block_vars acc) k <= num_pairs acc.
Proof. apply process_pairs_counts. Qed.

(** ** The records of a block *)

Lemma annotate_all_Ok args sample np es :
  np <> 0 -> exists vs, annotate_all args sample np es = Ok vs /\ length vs = length es.
Proof.
  intros Hnp. induction es as [|[k [v n]] es IH]; simpl; [eauto|].
  destruct IH as (vs & -> & Hl). unfold annotate.
  replace (np =? 0) with false by lia. simpl. eexists; split; [done|]. simpl; lia.
Qed.

(** C7: the end of a block never divides by zero: whenever its pairs were
    processed, every counted variant is annotated (a variant is counted
    only by a kept pair, so [num_pairs] is then at least 1), and its
    proportion [count / num_pairs] lies in [(0, 1]]. *)
Theorem block_annotate_safe chk args ps block groups t acc sample :
  process_pairs chk args ps block groups (init_acc t) = Ok acc ->
  (exists vars, annotate_all args sample (num_pairs acc) (map_to_list (block_vars acc)) = Ok vars) /\
  forall k v c, block_vars acc !! k = Some (v, c) ->
    (0 < inject_Z c / inject_Z (num_pairs acc) <= 1)%Q.
Proof.
  intros H. destruct (process_pairs_counts _ _ _ _ _ _ _ H) as (os & _ & _ & _ & Hpos & Hk).
  assert (Hc : forall k v c, block_vars acc !! k = Some (v, c) -> 1 <= c <= num_pairs acc).
  { intros k v c Hkc. split; [eapply Hpos; eauto|].
    destruct (Hk k) as [_ [_ Hle]]. unfold vcount in Hle. by rewrite Hkc in Hle. }
  split.
  - destruct (map_to_list (block_vars acc)) as [|[k [v c]] es] eqn:E; [by exists []|].
    assert (Hin : (k, (v, c)) ∈ map_to_list (block_vars acc)) by (rewrite E; left).
    apply elem_of_map_to_list in Hin. specialize (Hc _ _ _ Hin).
    destruct (annotate_all_Ok args sample (num_pairs acc) ((k, (v, c)) :: es)) as (vs & Hvs & _);
      [lia | eauto].
  - intros k v c Hkc. apply Q_ratio_bounds. specialize (Hc k v c Hkc). lia.
Qed.

(** ** The order of [read_pairs.items()] *)

Lemma perm_filter_length {A} (f : A -> bool) l l' :
  Permutation l l' -> length (List.filter f l) = length (List.filter f l').
Proof.
  induction 1 as [|x l l' _ IH|x y l|l l' l'' _ IH1 _ IH2]; simpl; try lia.
  - destruct (f x); simpl; lia.
  - destruct (f x), (f y); simpl; lia.
Qed.

Lemma analyse_groups_perm chk args ps block g1 g2 os1 :
  Permutation g1 g2 -> analyse_groups chk args ps block g1 = Ok os1 ->
  exists os2, analyse_groups chk args ps block g2 = Ok os2 /\ Permutation os1 os2.
Proof.
  intros Hp. revert os1.
  induction Hp as [|[n reads] l l' _ IH|[n1 reads1] [n2 reads2] l|l l' l'' _ IH1 _ IH2];
    intros os1 H.
  - injection H as <-. eauto.
  - destruct reads as [|r1 [|r2 [|r3 reads]]]; simpl in *; try (apply IH; exact H).
    res_inv. subst. destruct (IH _ H0) as (os2 & -> & Hp2). simpl.
    rewrite H. simpl. eauto.
  - destruct reads1 as [|a1 [|a2 [|a3 reads1]]], reads2 as [|b1 [|b2 [|b3 reads2]]];
      simpl in *; try (eexists; split; [exact H | done]);
      res_inv; subst; simpl;
      repeat match goal with Hx : analyse_pair _ _ _ _ _ _ = Ok _ |- _ => rewrite Hx; simpl; clear Hx end;
      try (match goal with Hx : analyse_groups _ _ _ _ _ = Ok _ |- _ => rewrite Hx end);
      eexists; (split; [done|]); try constructor.
  - destruct (IH1 _ H) as (os2 & H2 & P2). destruct (IH2 _ H2) as (os3 & H3 & P3).
    exists os3. split; [done|]. by transitivity os2.
Qed.

(** C8: the support counts do not depend on the order in which the read
    pairs are visited ([read_pairs.items()] of a Python 2 dict has no
    specified order): processing a permutation of the groups also
    succeeds, with the same [num_pairs], [num_discards] and count of every
    variant key.  (Which variant object a key keeps, the first one seen,
    does depend on the order.) *)
Theorem process_pairs_perm chk args ps block groups groups' t acc :
  Permutation groups groups' ->
  process_pairs chk args ps block groups (init_acc t) = Ok acc ->
  exists acc', process_pairs chk args ps block groups' (init_acc t) = Ok acc' /\
    num_pairs acc' = num_pairs acc /\ num_discards acc' = num_discards acc /\
    forall k, vcount (block_vars acc') k = vcount (block_vars acc) k.
Proof.
  intros Hp. rewrite !process_pairs_analyse. intros H.
  destruct (analyse_groups chk args ps block groups) as [os|e] eqn:E; [|done].
  injection H as <-.
  destruct (analyse_groups_perm _ _ _ _ _ _ _ Hp E) as (os' & E' & Hos).
  rewrite E'. eexists; split; [done|].
  destruct (analyse_groups_nodup _ _ _ _ _ _ E) as [Hnd _].
  destruct (analyse_groups_nodup _ _ _ _ _ _ E') as [Hnd' _].
  destruct (fold_apply_counts block os (init_acc t) Hnd) as (H1 & H2 & H3 & _).
  destruct (fold_apply_counts block os' (init_acc t) Hnd') as (H1' & H2' & H3' & _).
  split_and!.
  - rewrite H1, H1'. by rewrite (perm_filter_length _ _ _ Hos).
  - rewrite H2, H2'. by rewrite (perm_filter_length _ _ _ Hos).
  - intros k. rewrite H3, H3'. by rewrite (perm_filter_length _ _ _ Hos).
Qed.

(** ** One block, end to end *)

Lemma annotate_all_length args sample np es vs :
  annotate_all args sample np es = Ok vs -> length vs = length es.
Proof.
  revert vs; induction es as [|[k [v n]] es IH]; intros vs H; simpl in H; [by injection H as <-|].
  res_inv. subst. simpl. f_equal. by apply IH.
Qed.

(** C11: [process_block] composes [lookup_reads], the pair loop and the
    annotation: on a block with [start <= end] that is processed, the
    read groups are those [lookup_reads] builds over the 0-based region
    [start - 1, end - 1], the coverage row counts the kept pairs of those
    groups (which with the discarded ones are the names with exactly two
    selected reads), one record is written per counted variant key, and
    the run-wide histogram is the one the pair loop leaves. *)
Theorem process_block_spec `{BamFile B} chk args (bam : B) sample ps total block vars row tot :
  blk_start block <= blk_end block ->
  process_block chk args bam sample ps total block = Ok (vars, row, tot) ->
  exists m acc,
    lookup_reads (a_overlap args) bam (blk_chr block) (blk_start block - 1) (blk_end block - 1) = Ok m /\
    (forall n, m !! n =
       match group_of (a_overlap args) (blk_start block - 1) (blk_end block - 1)
               (fetch bam (blk_chr block) (blk_start block - 1) (blk_end block - 1 + 1)) n with
       | [] => None
       | g => Some g
       end) /\
    process_pairs chk args ps block (map_to_list m) (init_acc total) = Ok acc /\
    row = (blk_chr block, blk_start block, blk_end block, num_pairs acc) /\
    num_pairs acc + num_discards acc = Z.of_nat (length (List.filter is_pair (map_to_list m))) /\
    length vars = length (map_to_list (block_vars acc)) /\
    tot = total_scores acc.
Proof.
  intros Hb Hp. unfold process_block in Hp.
  destruct (lookup_reads_map (a_overlap args) bam (blk_chr block) (blk_start block - 1)
              (blk_end block - 1) ltac:(lia)) as (m & Hm & Hg).
  rewrite Hm in Hp. simpl in Hp.
  destruct (process_pairs chk args ps block (map_to_list m) (init_acc total)) as [acc|e] eqn:Ep;
    [|done].
  simpl in Hp.
  destruct (annotate_all args sample (num_pairs acc) (map_to_list (block_vars acc)))
    as [vs|e] eqn:Ea; [|done].
  simpl in Hp. injection Hp as <- <- <-.
  destruct (process_pairs_counts _ _ _ _ _ _ _ Ep) as (os & _ & _ & Hn & _).
  exists m, acc. split_and!; try done.
  by eapply annotate_all_length.
Qed.

(** ** The annotations of a counted variant *)

(** The filter tags appended for the two thresholds. *)
Definition threshold_tags (args : rover_args) (num_pairs num_vars : Z) : string :=
  (if num_vars <? a_absthresh args then ";at" else "") +:+
  (if py_float_lt (inject_Z num_vars / inject_Z num_pairs)%Q (a_proportionthresh args)
   then ";pt" else "").

(** C27: annotating a counted variant (rover.py 745-756) keeps its key,
    appends exactly the four tags [Sample], [NV], [NP] and [PCT] to its
    [info] in this order, and appends [;at] to its filter exactly when its
    count is below [absthresh] and [;pt] exactly when its proportion is
    below [proportionthresh], [;at] first; a variant that meets both
    thresholds keeps its filter unchanged (it is a PASS when the filter
    was unset).  It raises [ZeroDivisionError] exactly when [num_pairs]
    is 0. *)
Theorem annotate_spec args sample np var nv :
  np <> 0 ->
  exists v, annotate args sample np var nv = Ok v /\
    as_tuple v = as_tuple var /\
    var_info v = var_info var ++
      ["Sample=" +:+ sample; "NV=" +:+ py_str_Z nv; "NP=" +:+ py_str_Z np;
       "PCT=" +:+ format_pct (inject_Z nv / inject_Z np)%Q] /\
    var_filter v = (if bool_decide (threshold_tags args np nv = "") then var_filter var
                    else Some (nts (var_filter var) +:+ threshold_tags args np nv)).
Proof.
  intros Hnp. unfold annotate, threshold_tags.
  replace (np =? 0) with false by lia. eexists; split; [done|].
  destruct (nv <? a_absthresh args), (py_float_lt _ _); simpl;
    autorewrite with rover_rw; rewrite <- ?app_assoc; simpl;
    rewrite ?append_assoc_str; split_and!; done.
Qed.

(** ** The primer histograms *)











(** ** Witnesses *)

(** A block [chr1:101-104] and a pair of mates that both cover it and
    both carry an SNV at 102 (MD [1A2]), with a lone read beside them;
    primer checking is off. *)
Definition ex_args : rover_args := mkArgs (9 # 10) (1 # 10) 2 None false 0 0.
Definition ex_block : block_row := mkBlock "chr1" 101 104 ["F"; "R"].
Definition ex_mate (n : string) : pysam_read :=
  mkRead n 100 4 [(BAM_CMATCH, 4)] "ACGT" "IIII" [("MD", "1A2")].
Definition ex_groups : list (string * list pysam_read) :=
  [("p", [ex_mate "p"; ex_mate "p"]); ("q", [ex_mate "q"])].
Definition ex_check (ps : gmap string string) (b : block_row) (bs : list Base) (p t g : Z)
  : res (Z * Z) := Ok (0, 0).

Lemma py_set_intersection_spec_witness :
  let s1 := [new_SNV "chr1" 102 "A" "C" 40 None; new_SNV "chr1" 103 "C" "G" 40 None] in
  let s2 := [new_SNV "chr1" 102 "A" "C" 10 (Some ";qlt")] in
  List.NoDup (keys s1) /\ List.NoDup (keys s2) /\
  List.NoDup (keys (py_set_intersection s1 s2)) /\
  (forall k, In k (keys (py_set_intersection s1 s2)) <-> In k (keys s1) /\ In k (keys s2)) /\
  (forall w, In w (py_set_intersection s1 s2) ->
     if (length s1 <? length s2)%nat then In w s1 else In w s2).
Proof.
  intros s1 s2.
  assert (H1 : List.NoDup (keys s1)) by (vm_compute; repeat (constructor; [simpl; intuition congruence|]); constructor).
  assert (H2 : List.NoDup (keys s2)) by (vm_compute; repeat (constructor; [simpl; intuition congruence|]); constructor).
  split; [exact H1|]. split; [exact H2|]. apply (py_set_intersection_spec s1 s2 H1 H2).
Defined.

Lemma process_pairs_support_witness :
  exists acc, process_pairs ex_check ex_args ∅ ex_block ex_groups (init_acc ∅) = Ok acc /\
  exists os, analyse_groups ex_check ex_args ∅ ex_block ex_groups = Ok os /\
    num_pairs acc = Z.of_nat (length (List.filter kept os)) /\
    num_pairs acc + num_discards acc = Z.of_nat (length (List.filter is_pair ex_groups)) /\
    counts_pos (block_vars acc) /\
    forall k, vcount (block_vars acc) k = Z.of_nat (length (List.filter (supports ex_block k) os)) /\
              0 <= vcount (block_vars acc) k <= num_pairs acc.
Proof.
  eexists. split; [vm_compute; reflexivity|].
  apply (process_pairs_support ex_check ex_args ∅ ex_block ex_groups ∅). vm_compute. reflexivity.
Defined.

Lemma block_annotate_safe_witness :
  exists acc, process_pairs ex_check ex_args ∅ ex_block ex_groups (init_acc ∅) = Ok acc /\
  (exists vars, annotate_all ex_args "S1" (num_pairs acc) (map_to_list (block_vars acc)) = Ok vars) /\
  forall k v c, block_vars acc !! k = Some (v, c) ->
    (0 < inject_Z c / inject_Z (num_pairs acc) <= 1)%Q.
Proof.
  eexists. split; [vm_compute; reflexivity|].
  apply (block_annotate_safe ex_check ex_args ∅ ex_block ex_groups ∅). vm_compute. reflexivity.
Defined.

Lemma process_pairs_perm_witness :
  exists acc, process_pairs ex_check ex_args ∅ ex_block ex_groups (init_acc ∅) = Ok acc /\
  exists acc', process_pairs ex_check ex_args ∅ ex_block (rev ex_groups) (init_acc ∅) = Ok acc' /\
    num_pairs acc' = num_pairs acc /\ num_discards acc' = num_discards acc /\
    forall k, vcount (block_vars acc') k = vcount (block_vars acc) k.
Proof.
  eexists. split; [vm_compute; reflexivity|].
  apply (process_pairs_perm ex_check ex_args ∅ ex_block ex_groups (rev ex_groups) ∅).
  - apply Permutation_rev.
  - vm_compute. reflexivity.
Defined.

(** Three supporting pairs out of ten, with [absthresh] 2 and
    [proportionthresh] 0.1: no filter is added. *)
Lemma annotate_spec_witness :
  10 <> 0 /\
  exists v, annotate ex_args "S1" 10 (new_SNV "chr1" 102 "A" "C" 40 None) 3 = Ok v /\
    as_tuple v = as_tuple (new_SNV "chr1" 102 "A" "C" 40 None) /\
    var_info v = var_info (new_SNV "chr1" 102 "A" "C" 40 None) ++
      ["Sample=" +:+ "S1"; "NV=" +:+ py_str_Z 3; "NP=" +:+ py_str_Z 10;
       "PCT=" +:+ format_pct (inject_Z 3 / inject_Z 10)%Q] /\
    var_filter v = (if bool_decide (threshold_tags ex_args 10 3 = "")
                    then var_filter (new_SNV "chr1" 102 "A" "C" 40 None)
                    else Some (nts (var_filter (new_SNV "chr1" 102 "A" "C" 40 None)) +:+
                               threshold_tags ex_args 10 3)).
Proof. split; [lia|]. apply annotate_spec. lia. Defined.


Lemma process_block_spec_witness :
  let reads := [ex_mate "p"; ex_mate "p"; ex_mate "q"] in
  exists vars row tot,
    process_block ex_check ex_args reads "S1" ∅ ∅ ex_block = Ok (vars, row, tot) /\
    exists m acc,
    lookup_reads (a_overlap ex_args) reads (blk_chr ex_block) (blk_start ex_block - 1)
      (blk_end ex_block - 1) = Ok m /\
    (forall n, m !! n =
       match group_of (a_overlap ex_args) (blk_start ex_block - 1) (blk_end ex_block - 1)
               (fetch reads (blk_chr ex_block) (blk_start ex_block - 1) (blk_end ex_block - 1 + 1)) n with
       | [] => None
       | g => Some g
       end) /\
    process_pairs ex_check ex_args ∅ ex_block (map_to_list m) (init_acc ∅) = Ok acc /\
    row = (blk_chr ex_block, blk_start ex_block, blk_end ex_block, num_pairs acc) /\
    num_pairs acc + num_discards acc = Z.of_nat (length (List.filter is_pair (map_to_list m))) /\
    length vars = length (map_to_list (block_vars acc)) /\
    tot = total_scores acc.
Proof.
  intros reads. do 3 eexists. split; [vm_compute; reflexivity|].
  apply (process_block_spec ex_check ex_args reads "S1" ∅ ∅ ex_block); [simpl; lia|].
  vm_compute. reflexivity.
Defined.
