(* ===== verification/Output.v ===== *)
(** * Output: the VCF lines of [write_variant] and the coverage file

    Models [write_variant] (rover.py 507-518), which writes one
    tab-separated VCF line per annotated variant and looks up its [ID] in
    an optional VCF of known variants, and the coverage file written at
    the end of [process_blocks] (rover.py 767-771), whose rows are sorted
    by their number of pairs; and [process_blocks] itself, the loop over
    the blocks that runs [Aggregate.process_block] on each, writes the
    lines of its variants and collects the coverage rows.  A block that
    raises ends the run: the lines written before it are not part of the
    result.

    The known-variant VCF is an interface, [VcfReader], whose [vcf_fetch]
    is PyVCF's [Reader.fetch]; a record is the part of a PyVCF record the
    code reads ([POS], [REF], [ALT] as strings, [ID] or [None]). *)

From S2P Require Import Prelude Bases Variants Overlap Aggregate.
From Stdlib Require Import Sorting.Sorted.
Open Scope Z_scope.

(** ** Known variants *)

Record vcf_record := mkVcfRecord {
  rec_POS : Z;
  rec_REF : string;
  rec_ALT : list string;
  rec_ID : option string }.

Class VcfReader R := { vcf_fetch : R -> string -> Z -> Z -> list vcf_record }.

(** [str(x)] of a value that is a string or [None]. *)
Definition py_str_opt (s : option string) : string :=
  match s with None => "None" | Some s => s end.

(** [sep.join(items)]. *)
Fixpoint py_join (sep : string) (items : list string) : string :=
  match items with
  | [] => ""
  | [x] => x
  | x :: xs => x +:+ sep +:+ py_join sep xs
  end.

(** [variant.quality()]: every class returns ['.']. *)
Definition quality (v : variant) : string := ".".

(** The test of the loop of [write_variant] (rover.py 511). *)
Definition record_matches (v : variant) (r : vcf_record) : bool :=
  (rec_POS r =? position v) && String.eqb (rec_REF r) (ref v) &&
  existsb (String.eqb (alt v)) (rec_ALT r).

(** The loop [for record in id_info.fetch(...)]: the flag [id] and the
    loop variable [record], which after the loop is bound to the last
    record fetched. *)
Definition id_loop (v : variant) (rs : list vcf_record) : Z * option vcf_record :=
  fold_left (fun '(id, _) record => (if record_matches v record then 1 else id, Some record))
    rs (0, None).

(** The eight columns of a line, the third one given. *)
Definition vcf_line (v : variant) (id_col : string) : string :=
  py_join (String "009" EmptyString)
    [var_chr v; py_str_Z (position v); id_col; ref v; alt v; quality v; fil v;
     py_join ";" (var_info v)] +:+ String "010" EmptyString.

(** [write_variant(file, variant, id_info, args)]: the line it writes;
    [id_info] is [None] when [args.id_info] is unset. *)
Definition write_variant `{VcfReader R} (id_info : option R) (v : variant) : string :=
  let '(id, record) :=
    match id_info with
    | Some reader =>
        if String.eqb (fil v) "PASS" then
          id_loop v (vcf_fetch reader (var_chr v) (position v)
                       (position v + Z.of_nat (Nat.max (String.length (ref v)) (String.length (alt v))) + 1))
        else (0, None)
    | None => (0, None)
    end in
  match id, record with
  | 1, Some record => vcf_line v (py_str_opt (rec_ID record))
  | _, _ => vcf_line v "."
  end.

(** ** The loop of [write_variant] *)

Lemma id_loop_app v rs r :
  id_loop v (rs ++ [r]) =
  ((if record_matches v r then 1 else (id_loop v rs).1), Some r).
Proof. unfold id_loop. rewrite fold_left_app. simpl. by destruct (fold_left _ rs _). Qed.

Lemma id_loop_spec v rs :
  id_loop v rs = (if existsb (record_matches v) rs then 1 else 0, last rs).
Proof.
  induction rs as [|r rs IH] using rev_ind; [done|].
  rewrite id_loop_app, IH, existsb_app, last_app; simpl.
  by destruct (record_matches v r), (existsb _ rs).
Qed.

(** C36: the line [write_variant] writes.  Its [ID] column is ['.'] unless
    the variant is a PASS, a known-variant VCF is given and one of the
    records fetched around the variant has its position, [REF] and an
    [ALT]; then it is the [ID] of the last record fetched, whether or not
    that record is the one that matched (the loop variable [record]
    outlives the loop). *)
Theorem write_variant_spec `{VcfReader R} (reader : R) v :
  let rs := vcf_fetch reader (var_chr v) (position v)
              (position v + Z.of_nat (Nat.max (String.length (ref v)) (String.length (alt v))) + 1) in
  write_variant (Some reader) v =
  vcf_line v (match last rs with
              | Some r => if String.eqb (fil v) "PASS" && existsb (record_matches v) rs
                          then py_str_opt (rec_ID r) else "."
              | None => "."
              end) /\
  write_variant None v = vcf_line v ".".
Proof.
  simpl. unfold write_variant. split; [|done].
  destruct (String.eqb (fil v) "PASS"); simpl; [|by destruct (last _)].
  rewrite id_loop_spec.
  by destruct (existsb _ _), (last _).
Qed.

(** A known-variant VCF held in memory: [fetch] returns its records. *)
#[export] Instance vcf_in_memory : VcfReader (list vcf_record) := {
  vcf_fetch rs _ _ _ := rs }.

(** the [ID] of a known variant can be written for another one: when
    the fetched window holds the matching record [rs1] and then a record
    [rs2] at the next position, a PASS SNV that matches [rs1] is written
    with the ID [rs2]. *)
Example write_variant_wrong_id :
  let v := new_SNV "chr1" 100 "A" "G" 30 None in
  let r1 := mkVcfRecord 100 "A" ["G"] (Some "rs1") in
  let r2 := mkVcfRecord 101 "C" ["T"] (Some "rs2") in
  record_matches v r1 = true /\ record_matches v r2 = false /\
  write_variant (Some [r1; r2]) v = vcf_line v "rs2".
Proof. vm_compute. split_and!; reflexivity. Qed.

(** ** The coverage file *)

(** A row [(chr, start, end, num_pairs)] of [coverage_info]. *)
Definition coverage_row : Type := string * Z * Z * Z.

Definition np_key (row : coverage_row) : Z := row.2.

(** Inserting a row after every row of a smaller or equal key. *)
Fixpoint insert_row (x : coverage_row) (rows : list coverage_row) : list coverage_row :=
  match rows with
  | [] => [x]
  | y :: rows' => if np_key x <? np_key y then x :: y :: rows' else y :: insert_row x rows'
  end.

(** [sorted(coverage_info, key=itemgetter(3))]: Python's sort is stable,
    and so is this insertion sort, which visits the rows in order. *)
Definition sort_by_np (rows : list coverage_row) : list coverage_row :=
  fold_left (fun acc x => insert_row x acc) rows [].

(** The lines of the coverage file (rover.py 768-771). *)
Definition coverage_file (coverage_info : list coverage_row) : list string :=
  (py_join (String "009" EmptyString) ["chr"; "block_start"; "block_end"; "num_pairs"]
   +:+ String "010" EmptyString) ::
  List.map (fun '(chr, start, end_, num_pairs) =>
    py_join (String "009" EmptyString) [chr; py_str_Z start; py_str_Z end_; py_str_Z num_pairs]
    +:+ String "010" EmptyString) (sort_by_np coverage_info).

(** ** The block loop of [process_blocks] *)

(** The lines written for each block, the coverage rows and the run-wide
    histogram, threaded through the blocks (rover.py 627-757). *)
Fixpoint blocks_loop `{BamFile B} `{VcfReader R}
    (check_primers : gmap string string -> block_row -> list Base -> Z -> Z -> Z -> res (Z * Z))
    (args : rover_args) (bam : B) (sample : string) (primer_sequence : gmap string string)
    (id_info : option R) (block_coords : list (list string))
    (lines : list string) (coverage_info : list coverage_row) (total_scores : gmap Z Z)
  : res (list string * list coverage_row * gmap Z Z) :=
  match block_coords with
  | [] => Ok (lines, coverage_info, total_scores)
  | row :: bs =>
      let! block_info := block_of_row row in
      let! r := process_block check_primers args bam sample primer_sequence total_scores block_info in
      let '(vars, row, total') := r in
      blocks_loop check_primers args bam sample primer_sequence id_info bs
        (lines ++ List.map (write_variant id_info) vars) (coverage_info ++ [row]) total'
  end.

(** [process_blocks(args, kept_variants_file, bam, sample, block_coords,
    primer_sequence, data, data2, id_info)]: the VCF lines and the lines
    of the coverage file. *)
Definition process_blocks `{BamFile B} `{VcfReader R}
    (check_primers : gmap string string -> block_row -> list Base -> Z -> Z -> Z -> res (Z * Z))
    (args : rover_args) (bam : B) (sample : string) (block_coords : list (list string))
    (primer_sequence : gmap string string) (id_info : option R)
  : res (list string * list string) :=
  let! r := blocks_loop check_primers args bam sample primer_sequence id_info block_coords [] [] ∅ in
  let '(lines, coverage_info, _) := r in
  Ok (lines, coverage_file coverage_info).

Definition np_le (x y : coverage_row) : Prop := np_key x <= np_key y.

Lemma insert_row_perm x rows : Permutation (insert_row x rows) (x :: rows).
Proof.
  induction rows as [|y rows IH]; simpl; [done|].
  destruct (np_key x <? np_key y); [done|].
  rewrite IH. constructor.
Qed.

Lemma insert_row_sorted x rows :
  StronglySorted np_le rows -> StronglySorted np_le (insert_row x rows).
Proof.
  induction 1 as [|y rows Hs IH Hy]; simpl; [repeat constructor|].
  unfold np_le in *. destruct (Z.ltb_spec (np_key x) (np_key y)).
  - constructor; [by constructor|]. constructor; [lia|].
    eapply Forall_impl; [exact Hy|]. simpl. lia.
  - constructor; [done|]. eapply Permutation_Forall; [symmetry; apply insert_row_perm|].
    constructor; [lia|done].
Qed.

Lemma insert_row_filter (P : coverage_row -> bool) x rows :
  (forall y, np_key x < np_key y -> P y = true -> P x = false) ->
  StronglySorted np_le rows ->
  List.filter P (insert_row x rows) = List.filter P rows ++ List.filter P [x].
Proof.
  intros HP. induction 1 as [|y rows Hs IH Hy]; simpl; [done|].
  unfold np_le in *. destruct (Z.ltb_spec (np_key x) (np_key y)) as [Hlt|Hge]; simpl.
  - destruct (P x) eqn:Px.
    + assert (Hno : forall z, In z (y :: rows) -> P z = false).
      { intros z Hz. destruct (P z) eqn:Pz; [|done].
        assert (np_key y <= np_key z).
        { destruct Hz as [<-|Hz]; [lia|]. by eapply List.Forall_forall in Hy; [|exact Hz]. }
        specialize (HP z ltac:(lia) Pz). congruence. }
      rewrite (Hno y) by (left; done). simpl.
      rewrite filter_none by (intros z Hz; apply Hno; by right). done.
    + rewrite app_nil_r. done.
  - rewrite IH. by destruct (P y).
Qed.

Lemma sort_by_np_fold rows acc :
  StronglySorted np_le acc ->
  let out := fold_left (fun acc x => insert_row x acc) rows acc in
  StronglySorted np_le out /\ Permutation out (acc ++ rows) /\
  forall k, List.filter (fun r => np_key r =? k) out =
            List.filter (fun r => np_key r =? k) (acc ++ rows).
Proof.
  revert acc; induction rows as [|x rows IH]; intros acc Hs; simpl.
  { rewrite app_nil_r. split_and!; done. }
  destruct (IH (insert_row x acc) (insert_row_sorted x acc Hs)) as (H1 & H2 & H3).
  split_and!; [done| |].
  - rewrite H2, insert_row_perm, <- Permutation_middle. done.
  - intros k. rewrite H3, !List.filter_app, insert_row_filter; [| |done].
    + rewrite <- app_assoc. simpl. by destruct (np_key x =? k).
    + intros y Hlt Hy%Z.eqb_eq. apply Z.eqb_neq. lia.
Qed.

(** the rows of the coverage file are Python's
    [sorted(coverage_info, key=itemgetter(3))]: ordered by number of
    pairs, a permutation of the blocks' rows, and stable (the rows with
    the same number of pairs keep the order of the blocks); these three
    properties determine the sorted list. *)
Theorem sort_by_np_spec rows :
  Sorted np_le (sort_by_np rows) /\ Permutation (sort_by_np rows) rows /\
  forall k, List.filter (fun r => np_key r =? k) (sort_by_np rows) =
            List.filter (fun r => np_key r =? k) rows.
Proof.
  destruct (sort_by_np_fold rows [] (SSorted_nil _)) as (H1 & H2 & H3).
  split_and!; [by apply StronglySorted_Sorted | done | done].
Qed.
