(* ===== verification/Args.v ===== *)
(** * Args: [parse_args], the command line

    Models the parser [parse_args] builds (rover.py 21-70): the table of
    its [add_argument] calls, with the default values of rover.py 21-25,
    and the [parse_args()] of Python 2.7's [argparse] that runs it.
    [argparse] is a library the code only calls; its algorithm is
    modelled as the library writes it:

    - every argument string is classified first ([_parse_optional]): an
      option string, an argument ([A]) or the separator [--], after which
      every string is an argument; a prefix of several long options is an
      ambiguity error raised during this classification;
    - the loop of [_parse_known_args] then alternates the positional
      [bams] ([nargs='+'], pattern [-*A[A-]*]) on a run of arguments and
      the optionals ([consume_optional]), each taking its value from
      [--name=value] or from the next string, which must be an argument;
    - after the loop the missing positional ([too few arguments]), then
      the first missing required option, then the strings left over
      ([unrecognized arguments]) are errors, in that order.

    The namespace is a [gmap] from the [dest] of each action to its
    Python value.  [float()] is a section variable [py_float] (a
    [ValueError] is [None]); [int()] is [Prelude.py_int_str].  Help and
    version print and exit: they are the outcomes [StopHelp] and
    [StopVersion].  The usage and error messages are not modelled; an
    error carries its kind and the strings it names. *)

From S2P Require Import Prelude.
From Stdlib Require Import QArith.
Open Scope Z_scope.

(** ** The parser of rover.py *)

(** rover.py 21-25. *)
Definition default_minimum_read_overlap_block : Q := 9 # 10.
Definition default_proportion_threshold : Q := 5 # 100.
Definition default_absolute_threshold : Z := 2.
Definition default_primer_threshold : Z := 5.
Definition default_gap_penalty : Z := 0.

(** The [type=] of an argument: [str], [int], [float], or none given
    (the string itself). *)
Inductive arg_type := TStr | TInt | TFloat | TNone.

Inductive arg_action := Store (ty : arg_type) | HelpAction | VersionAction.

(** The Python values a namespace holds. *)
#[warnings="-register-all"]
Inductive pyval :=
| PNone
| PStr (s : string)
| PInt (z : Z)
| PFloat (q : Q)
| PList (l : list pyval).

Record optional := mkOpt {
  opt_strings : list string;
  opt_dest : string;
  opt_action : arg_action;
  opt_required : bool;
  opt_default : pyval }.

(** The optionals of the parser in the order they are added; [-h] is
    added by [ArgumentParser] itself.  Help and version have the default
    [SUPPRESS]: they never set their [dest]. *)
Definition rover_optionals : list optional :=
  [mkOpt ["-h"; "--help"] "help" HelpAction false PNone;
   mkOpt ["--reference"] "reference" (Store TStr) false PNone;
   mkOpt ["--version"] "version" VersionAction false PNone;
   mkOpt ["--primers"] "primers" (Store TStr) true PNone;
   mkOpt ["--overlap"] "overlap" (Store TFloat) false
     (PFloat default_minimum_read_overlap_block);
   mkOpt ["--log"] "log" (Store TStr) false PNone;
   mkOpt ["--out"] "out" (Store TStr) true PNone;
   mkOpt ["--proportionthresh"] "proportionthresh" (Store TFloat) false
     (PFloat default_proportion_threshold);
   mkOpt ["--absthresh"] "absthresh" (Store TInt) false (PInt default_absolute_threshold);
   mkOpt ["--qualthresh"] "qualthresh" (Store TInt) false PNone;
   mkOpt ["--primercheck"] "primercheck" (Store TStr) false PNone;
   mkOpt ["--primerthresh"] "primerthresh" (Store TInt) false (PInt default_primer_threshold);
   mkOpt ["--gap_penalty"] "gap_penalty" (Store TFloat) false (PInt default_gap_penalty);
   mkOpt ["--id_info"] "id_info" (Store TStr) false PNone;
   mkOpt ["--coverdir"] "coverdir" (Store TNone) false PNone].

(** [parser._option_string_actions]: each option string with its action. *)
Definition option_strings : list (string * optional) :=
  flat_map (fun o => map (fun s => (s, o)) (opt_strings o)) rover_optionals.

Definition lookup_option (s : string) : option optional :=
  option_map snd (List.find (fun p => String.eqb p.1 s) option_strings).

(** [_get_action_name]: the option strings joined by ['/']. *)
Definition action_name (o : optional) : string := String.concat "/" (opt_strings o).

(** ** Outcomes *)

Inductive arg_error :=
| Ambiguous (arg : string)
| ExpectedOne (action : string)
| IgnoredExplicit (action : string) (arg : string)
| InvalidValue (action : string) (ty : arg_type) (arg : string)
| TooFewArguments
| Required (action : string)
| Unrecognized (args : list string).

(** What ends [parse_args] without a namespace: the help or version
    action, an [ArgumentError] (exit status 2), or the [IndexError] of
    [explicit_arg[0]] on an empty explicit argument of [-h].  [StopFuel]
    is not a behaviour: the loop's fuel is proved sufficient. *)
Inductive arg_stop := StopHelp | StopVersion | StopError (e : arg_error) | StopIndexError | StopFuel.

Inductive presult (A : Type) := POk (a : A) | PStop (s : arg_stop).
Arguments POk {A} a.
Arguments PStop {A} s.

Definition pbind {A B} (m : presult A) (f : A -> presult B) : presult B :=
  match m with POk a => f a | PStop s => PStop s end.

Notation "'let?' x ':=' m 'in' k" := (pbind m (fun x => k))
  (at level 10, x name, m at level 100, k at level 200) : rover_scope.
Notation "'let?' ' p ':=' m 'in' k" := (pbind m (fun p => k))
  (at level 10, p pattern, m at level 100, k at level 200) : rover_scope.

Fixpoint pmap {A B} (f : A -> presult B) (l : list A) : presult (list B) :=
  match l with
  | [] => POk []
  | x :: l' => let? y := f x in let? ys := pmap f l' in POk (y :: ys)
  end.

(** ** Classifying the argument strings *)

(** [s.split(sep, 1)] when [s] holds [sep]. *)
Fixpoint split_char (sep : ascii) (l : list ascii) : option (list ascii * list ascii) :=
  match l with
  | [] => None
  | c :: l' =>
      if Ascii.eqb c sep then Some ([], l')
      else match split_char sep l' with Some (a, b) => Some (c :: a, b) | None => None end
  end.

Definition split_eq (s : string) : option (string * string) :=
  match split_char "=" (list_ascii_of_string s) with
  | Some (a, b) => Some (string_of_list_ascii a, string_of_list_ascii b)
  | None => None
  end.

(** An option tuple: the action ([None] for an unknown option), the
    option string and the explicit argument. *)
Definition opt_tuple : Type := option optional * string * option string.

(** [_get_option_tuples]: the long options the string abbreviates, or the
    short option it starts with. *)
Definition get_option_tuples (s : string) : list opt_tuple :=
  match list_ascii_of_string s with
  | "-"%char :: "-"%char :: _ =>
      let '(prefix, explicit) :=
        match split_eq s with Some (p, e) => (p, Some e) | None => (s, None) end in
      map (fun p => (Some p.2, p.1, explicit))
        (List.filter (fun p => String.prefix prefix p.1) option_strings)
  | "-"%char :: c :: rest =>
      flat_map (fun p =>
        if String.eqb p.1 (String "-" (String c EmptyString))
        then [(Some p.2, p.1, Some (string_of_list_ascii rest))]
        else if String.prefix s p.1 then [(Some p.2, p.1, None)] else []) option_strings
  | _ => []
  end.

Definition drop_final_newline (l : list ascii) : list ascii :=
  match rev l with "010"%char :: r => rev r | _ => l end.

(** [_negative_number_matcher], [^-\d+$|^-\d*\.\d+$]; [$] also matches
    before a final newline. *)
Definition negative_number (s : string) : bool :=
  match list_ascii_of_string s with
  | "-"%char :: r =>
      let r := drop_final_newline r in
      (negb (bool_decide (r = [])) && forallb is_digit r) ||
      match split_char "." r with
      | Some (a, b) => forallb is_digit a && negb (bool_decide (b = [])) && forallb is_digit b
      | None => false
      end
  | _ => false
  end.

(** [_parse_optional]: [None] for an argument. *)
Definition parse_optional (s : string) : presult (option opt_tuple) :=
  match list_ascii_of_string s with
  | [] => POk None
  | c :: rest =>
      if negb (Ascii.eqb c "-") then POk None else
      match lookup_option s with
      | Some o => POk (Some (Some o, s, None))
      | None =>
          if bool_decide (rest = []) then POk None else
          match match split_eq s with
                | Some (os, e) => option_map (fun o => (Some o, os, Some e)) (lookup_option os)
                | None => None
                end with
          | Some t => POk (Some t)
          | None =>
              match get_option_tuples s with
              | _ :: _ :: _ => PStop (StopError (Ambiguous s))
              | [t] => POk (Some t)
              | [] =>
                  if negative_number s then POk None
                  else if existsb (Ascii.eqb " ") (list_ascii_of_string s) then POk None
                  else POk (Some (None, s, None))
              end
          end
      end
  end.

(** The classes of the pattern string: ['A'], ['O'] with its tuple, and
    ['-'] for the first [--]. *)
Inductive arg_class := CA | CO (t : opt_tuple) | CDash.

Fixpoint classify (l : list string) : presult (list arg_class) :=
  match l with
  | [] => POk []
  | s :: rest =>
      if String.eqb s "--" then POk (CDash :: map (fun _ => CA) rest)
      else let? c := parse_optional s in
           let? cs := classify rest in
           POk (match c with None => CA | Some t => CO t end :: cs)
  end.

(** ** The namespace and the actions *)

Abbreviation namespace := (gmap string pyval) (only parsing).

(** The defaults set before parsing: every action whose default is not
    [SUPPRESS], the positional [bams] (default [None]) included. *)
Definition init_namespace : namespace :=
  <["bams" := PNone]>
  (foldr (fun o ns => match opt_action o with
                      | Store _ => <[opt_dest o := opt_default o]> ns
                      | _ => ns
                      end) ∅ rover_optionals).

Record pstate := mkPState {
  ps_ns : namespace;
  ps_extras : list string;
  ps_pending : bool;
  ps_seen : list string }.

Definition init_pstate : pstate := mkPState init_namespace [] true [].

Fixpoint remove_first (x : string) (l : list string) : list string :=
  match l with
  | [] => []
  | y :: l' => if String.eqb x y then l' else y :: remove_first x l'
  end.

Section Engine.
(** Python's [float(s)]; [None] when it raises [ValueError]. *)
Variable py_float : string -> option Q.

(** [_get_value]: the [type=] function on one string. *)
Definition get_value (o : optional) (ty : arg_type) (s : string) : presult pyval :=
  match ty with
  | TStr | TNone => POk (PStr s)
  | TInt => match py_int_str s with
            | Ok z => POk (PInt z)
            | Err _ => PStop (StopError (InvalidValue (action_name o) ty s))
            end
  | TFloat => match py_float s with
              | Some q => POk (PFloat q)
              | None => PStop (StopError (InvalidValue (action_name o) ty s))
              end
  end.

(** [_get_values] for [nargs=None]: the first [--] is removed; one string
    gives one value, any other number a list. *)
Definition get_values (o : optional) (ty : arg_type) (args : list string) : presult pyval :=
  match remove_first "--" args with
  | [a] => get_value o ty a
  | l => let? vs := pmap (get_value o ty) l in POk (PList vs)
  end.

(** [take_action] on an optional. *)
Definition take_action (o : optional) (args : list string) (st : pstate) : presult pstate :=
  match opt_action o with
  | HelpAction => PStop StopHelp
  | VersionAction => PStop StopVersion
  | Store ty =>
      let? v := get_values o ty args in
      POk (mkPState (<[opt_dest o := v]> (ps_ns st)) (ps_extras st) (ps_pending st)
             (opt_dest o :: ps_seen st))
  end.

(** [take_action] on [bams] ([nargs='+'], [type=str]). *)
Definition take_bams (args : list string) (st : pstate) : pstate :=
  mkPState (<["bams" := PList (map PStr (remove_first "--" args))]> (ps_ns st))
    (ps_extras st) false ("bams" :: ps_seen st).

Fixpoint take_actions (l : list (optional * list string)) (st : pstate) : presult pstate :=
  match l with
  | [] => POk st
  | (o, args) :: l' => let? st' := take_action o args st in take_actions l' st'
  end.

(** [_match_argument] of an optional: [nargs=None] needs one ['A'],
    help and version ([nargs=0]) none. *)
Definition match_argument (o : optional) (pats : list arg_class) : presult nat :=
  match opt_action o with
  | Store _ => match pats with
               | CA :: _ => POk 1%nat
               | _ => PStop (StopError (ExpectedOne (action_name o)))
               end
  | _ => POk 0%nat
  end.

Definition is_dash (c : arg_class) : bool := match c with CDash => true | _ => false end.
Definition is_arg (c : arg_class) : bool := match c with CO _ => false | _ => true end.

Fixpoint span_len (p : arg_class -> bool) (l : list arg_class) : nat :=
  match l with [] => 0 | c :: l' => if p c then S (span_len p l') else 0 end.

(** The pattern [-*A[A-]*] of [nargs='+'] at the start of [l]. *)
Definition match_plus (l : list arg_class) : option nat :=
  let d := span_len is_dash l in
  match drop d l with
  | CA :: rest => Some (d + 1 + span_len is_arg rest)%nat
  | _ => None
  end.

Variables (args : list string) (cls : list arg_class).

(** [consume_positionals(start_index)]. *)
Definition consume_positionals (start : nat) (st : pstate) : nat * pstate :=
  if ps_pending st then
    match match_plus (drop start cls) with
    | Some n => ((start + n)%nat, take_bams (take n (drop start args)) st)
    | None => (start, st)
    end
  else (start, st).

(** The [while True] loop of [consume_optional], from an option tuple
    with its action: the actions to take and the index where its
    arguments stop.  A single-dash option taking no argument reads the
    rest of its string as further single-dash options. *)
Fixpoint optional_tuples (fuel : nat) (start : nat) (o : optional) (os : string)
    (explicit : option string) (acc : list (optional * list string))
  : presult (list (optional * list string) * nat) :=
  match explicit with
  | Some e =>
      let? n := match_argument o [CA] in
      if Nat.eqb n 0 && negb (bool_decide (String.get 1 os = Some "-"%char)) then
        match fuel with
        | O => PStop StopFuel
        | S f =>
            match list_ascii_of_string e with
            | [] => PStop StopIndexError
            | c :: e' =>
                let os' := String "-" (String c EmptyString) in
                match lookup_option os' with
                | Some o' => optional_tuples f start o' os'
                               (if bool_decide (e' = []) then None else Some (string_of_list_ascii e'))
                               (acc ++ [(o, [])])
                | None => PStop (StopError (IgnoredExplicit (action_name o) e))
                end
            end
        end
      else if Nat.eqb n 1 then POk (acc ++ [(o, [e])], S start)
      else PStop (StopError (IgnoredExplicit (action_name o) e))
  | None =>
      let? n := match_argument o (drop (S start) cls) in
      POk (acc ++ [(o, take n (drop (S start) args))], (S start + n)%nat)
  end.

(** [consume_optional(start_index)]: an unknown option goes to the
    extras. *)
Definition consume_optional (start : nat) (t : opt_tuple) (st : pstate) : presult (nat * pstate) :=
  match t with
  | (None, _, _) =>
      POk (S start, mkPState (ps_ns st) (ps_extras st ++ take 1 (drop start args))
                      (ps_pending st) (ps_seen st))
  | (Some o, os, explicit) =>
      let fuel := S (match explicit with Some e => String.length e | None => 0 end) in
      let? '(tuples, stop) := optional_tuples fuel start o os explicit [] in
      let? st' := take_actions tuples st in
      POk (stop, st')
  end.

Fixpoint first_option (l : list arg_class) (i : nat) : option (nat * opt_tuple) :=
  match l with
  | [] => None
  | CO t :: _ => Some (i, t)
  | _ :: l' => first_option l' (S i)
  end.

(** [min(index for index in option_string_indices if index >= start)]. *)
Definition next_option (start : nat) : option (nat * opt_tuple) :=
  first_option (drop start cls) start.

(** The loop [while start_index <= max_option_string_index]. *)
Fixpoint parse_loop (fuel : nat) (start : nat) (st : pstate) : presult (nat * pstate) :=
  match fuel with
  | O => PStop StopFuel
  | S f =>
      match next_option start with
      | None => POk (start, st)
      | Some (nxt, t) =>
          let '(start1, st1) :=
            if Nat.eqb start nxt then (start, st) else consume_positionals start st in
          if Nat.ltb start start1 then parse_loop f start1 st1
          else
            let st2 := if Nat.eqb start1 nxt then st1
                       else mkPState (ps_ns st1)
                              (ps_extras st1 ++ take (nxt - start1) (drop start1 args))
                              (ps_pending st1) (ps_seen st1) in
            let? '(start3, st3) := consume_optional nxt t st2 in
            parse_loop f start3 st3
      end
  end.
End Engine.

(** [_parse_known_args]: the namespace and the extras. *)
Definition parse_known_args (py_float : string -> option Q) (argv : list string)
  : presult (namespace * list string) :=
  let? cls := classify argv in
  let? '(start, st) := parse_loop py_float argv cls (S (length argv)) 0 init_pstate in
  let '(stop, st') := consume_positionals argv cls start st in
  if ps_pending st' then PStop (StopError TooFewArguments) else
  match List.find (fun o => opt_required o && negb (bool_decide (opt_dest o ∈ ps_seen st')))
          rover_optionals with
  | Some o => PStop (StopError (Required (action_name o)))
  | None => POk (ps_ns st', ps_extras st' ++ drop stop argv)
  end.

(** [parser.parse_args()] (rover.py 70). *)
Definition parse_args (py_float : string -> option Q) (argv : list string) : presult namespace :=
  let? '(ns, extras) := parse_known_args py_float argv in
  match extras with
  | [] => POk ns
  | _ => PStop (StopError (Unrecognized extras))
  end.

(** ** Command lines of the form [--name=value ... -- bam ...] *)

Definition print_opt (p : string * string) : string := ("--" +:+ p.1) +:+ "=" +:+ p.2.

Definition print_argv (opts : list (string * string)) (bams : list string) : list string :=
  map print_opt opts ++ "--" :: bams.

(** The storing optional whose option string is [--name]. *)
Definition store_option (name : string) : option (optional * arg_type) :=
  match lookup_option ("--" +:+ name) with
  | Some o => match opt_action o with Store ty => Some (o, ty) | _ => None end
  | None => None
  end.

Section Reference.
Variable py_float : string -> option Q.

(** What such a command line means: each option converted in turn, a
    later one replacing an earlier one, then the checks of the missing
    positional and of the required options. *)
Fixpoint set_options (opts : list (string * string)) (ns : namespace) : presult namespace :=
  match opts with
  | [] => POk ns
  | (n, v) :: opts' =>
      match store_option n with
      | Some (o, ty) => let? x := get_values py_float o ty [v] in set_options opts' (<[n := x]> ns)
      | None => set_options opts' ns
      end
  end.

Definition expected_parse (opts : list (string * string)) (bams : list string) : presult namespace :=
  let? ns := set_options opts init_namespace in
  if bool_decide (bams = []) then PStop (StopError TooFewArguments) else
  match List.find (fun o => opt_required o && negb (bool_decide (opt_dest o ∈ map fst opts)))
          rover_optionals with
  | Some o => PStop (StopError (Required (action_name o)))
  | None => POk (<["bams" := PList (map PStr bams)]> ns)
  end.
End Reference.

(** ** Lemmas *)

Lemma pbind_POk {A} (m : presult A) : pbind m POk = m.
Proof. by destruct m. Qed.

Lemma pbind_assoc {A B C} (m : presult A) (f : A -> presult B) (g : B -> presult C) :
  pbind (pbind m f) g = pbind m (fun a => pbind (f a) g).
Proof. by destruct m. Qed.

Lemma list_ascii_of_string_app s t :
  list_ascii_of_string (s +:+ t) = list_ascii_of_string s ++ list_ascii_of_string t.
Proof. induction s as [|c s IH]; [done|]. rewrite append_String. simpl. by rewrite IH. Qed.

Lemma split_char_app sep a b :
  split_char sep a = None -> split_char sep (a ++ sep :: b) = Some (a, b).
Proof.
  induction a as [|c a IH]; simpl.
  - rewrite Ascii.eqb_refl. done.
  - destruct (Ascii.eqb c sep); [intros H; discriminate H|].
    destruct (split_char sep a) as [[]|]; [intros H; discriminate H|]. intros _. rewrite IH; done.
Qed.

Lemma lookup_option_In s o : lookup_option s = Some o -> In (s, o) option_strings.
Proof.
  unfold lookup_option. destruct (List.find _ _) as [[s' o']|] eqn:Hf; simpl; [|done].
  intros [= ->]. apply List.find_some in Hf as [Hin Heq]. simpl in Heq.
  apply String.eqb_eq in Heq. subst. done.
Qed.

(** No option string holds a ['=']; the only one of a single dash is [-h];
    every storing option string is [--] followed by its [dest]. *)
Lemma option_strings_shape s o :
  In (s, o) option_strings ->
  split_char "=" (list_ascii_of_string s) = None /\
  (opt_action o = HelpAction \/ s = "--" +:+ opt_dest o) /\ In o rover_optionals.
Proof.
  cbn. intros H.
  repeat (destruct H as [H|H]; [injection H as <- <-; split; [reflexivity|];
                                  split; [first [left; reflexivity | right; reflexivity] |];
                                  cbn; tauto|]).
  destruct H.
Qed.

Lemma store_option_Some n o ty :
  store_option n = Some (o, ty) ->
  lookup_option ("--" +:+ n) = Some o /\ opt_action o = Store ty /\ opt_dest o = n /\
  split_char "=" (list_ascii_of_string ("--" +:+ n)) = None.
Proof.
  unfold store_option. destruct (lookup_option _) as [o'|] eqn:Hl; [|done].
  destruct (opt_action o') eqn:Ha; try done. intros [= <- <-].
  destruct (option_strings_shape _ _ (lookup_option_In _ _ Hl)) as (Hs & [Hh|Hd] & _);
    [congruence|].
  rewrite !append_String, append_Empty in Hd. injection Hd as Hd. done.
Qed.

Lemma parse_optional_print n v o ty :
  store_option n = Some (o, ty) ->
  parse_optional (print_opt (n, v)) = POk (Some (Some o, "--" +:+ n, Some v)).
Proof.
  intros (Hl & _ & _ & Hs)%store_option_Some.
  assert (Hw : list_ascii_of_string (print_opt (n, v)) =
               list_ascii_of_string ("--" +:+ n) ++ "="%char :: list_ascii_of_string v).
  { unfold print_opt. rewrite list_ascii_of_string_app. done. }
  assert (Hw' : lookup_option (print_opt (n, v)) = None).
  { destruct (lookup_option (print_opt (n, v))) as [o'|] eqn:Hl'; [|done].
    destruct (option_strings_shape _ _ (lookup_option_In _ _ Hl')) as [Hn _].
    rewrite Hw, split_char_app in Hn by done. discriminate. }
  unfold parse_optional. rewrite Hw', Hw. cbn [list_ascii_of_string app].
  rewrite !append_String, append_Empty. cbn [list_ascii_of_string app Ascii.eqb negb].
  rewrite bool_decide_false by done.
  unfold split_eq. rewrite Hw, split_char_app by done.
  rewrite !string_of_list_ascii_of_string, Hl. done.
Qed.

Lemma print_opt_not_dashdash p : String.eqb (print_opt p) "--" = false.
Proof.
  destruct p as [n v]. unfold print_opt. rewrite !append_String, append_Empty.
  apply String.eqb_neq. intros [= Hn].
  destruct n; rewrite ?append_Empty, ?append_String in Hn; discriminate.
Qed.

(** The classes of a printed command line. *)
Definition tuple_of (p : string * string) : opt_tuple :=
  (option_map fst (store_option p.1), "--" +:+ p.1, Some p.2).

Definition cls_of (opts : list (string * string)) (bams : list string) : list arg_class :=
  map (fun p => CO (tuple_of p)) opts ++ CDash :: map (fun _ => CA) bams.

Definition store_ok (p : string * string) : Prop := is_Some (store_option p.1).

Lemma classify_printed opts bams :
  Forall store_ok opts -> classify (print_argv opts bams) = POk (cls_of opts bams).
Proof.
  unfold print_argv, cls_of.
  induction 1 as [|[n v] opts [[o ty] Hs] _ IH]; [done|]. simpl in Hs.
  cbn [map app classify]. rewrite print_opt_not_dashdash, (parse_optional_print _ _ _ _ Hs).
  cbn [pbind]. rewrite IH. unfold tuple_of. simpl. rewrite Hs. done.
Qed.

Lemma first_option_args l i : Forall (fun c => is_arg c = true) l -> first_option l i = None.
Proof. intros Hl. revert i. induction Hl as [|[] l Hc _ IH]; intros i; simpl; try done. Qed.

Lemma drop_S_cons {A} (l l' : list A) x i : drop i l = x :: l' -> drop (S i) l = l'.
Proof. intros H. rewrite <- Nat.add_1_r, <- drop_drop, H. done. Qed.

Lemma span_len_args (l : list string) : span_len is_arg (map (fun _ => CA) l) = length l.
Proof. induction l; simpl; congruence. Qed.

Lemma find_ext {A} (f g : A -> bool) l :
  (forall x, In x l -> f x = g x) -> List.find f l = List.find g l.
Proof.
  induction l as [|x l IH]; intros H; simpl; [done|].
  rewrite (H x) by (left; done). destruct (g x); [done|]. apply IH. intros y Hy. apply H. by right.
Qed.

Section Printed.
Variable py_float : string -> option Q.

(** The optionals of a printed command line, taken in turn. *)
Fixpoint run_opts (l : list (string * string)) (st : pstate) : presult pstate :=
  match l with
  | [] => POk st
  | (n, v) :: l' =>
      match store_option n with
      | Some (o, _) => let? st' := take_action py_float o [v] st in run_opts l' st'
      | None => POk st
      end
  end.

Lemma run_opts_set l ns ex pe seen :
  Forall store_ok l ->
  run_opts l (mkPState ns ex pe seen) =
  pbind (set_options py_float l ns) (fun ns' => POk (mkPState ns' ex pe (rev (map fst l) ++ seen))).
Proof.
  revert ns seen. induction l as [|[n v] l IH]; intros ns seen Hl; [done|].
  inversion Hl as [|? ? [[o ty] Hs] Hl']; subst. simpl in Hs.
  destruct (store_option_Some _ _ _ Hs) as (_ & Ha & Hd & _).
  cbn [run_opts set_options]. rewrite Hs. unfold take_action. rewrite Ha.
  destruct (get_values py_float o ty [v]); cbn [pbind]; [|done].
  rewrite Hd, IH by done. cbn. rewrite <- app_assoc. done.
Qed.

Lemma loop_printed argv cls bams suf : forall start st fuel,
  drop start cls = cls_of suf bams -> drop start argv = print_argv suf bams ->
  Forall store_ok suf -> (length suf < fuel)%nat ->
  parse_loop py_float argv cls fuel start st =
  pbind (run_opts suf st) (fun st' => POk ((start + length suf)%nat, st')).
Proof.
  induction suf as [|[n v] suf IH]; intros start st fuel Hc Ha Hs Hf;
    (destruct fuel as [|f]; [simpl in Hf; lia|]).
  - cbn [parse_loop]. unfold next_option. rewrite Hc, first_option_args.
    + cbn. rewrite Nat.add_0_r. done.
    + constructor; [done|]. apply List.Forall_map, List.Forall_forall. done.
  - inversion Hs as [|? ? [[o ty] Hso] Hs']; subst. simpl in Hso.
    destruct (store_option_Some _ _ _ Hso) as (_ & Hact & _ & _).
    cbn [parse_loop]. unfold next_option. rewrite Hc. cbn [cls_of map app first_option].
    rewrite Nat.eqb_refl, Nat.ltb_irrefl. cbn iota beta. rewrite Nat.eqb_refl.
    unfold consume_optional, tuple_of. cbn [fst]. rewrite Hso. cbn [option_map fst snd].
    cbn [optional_tuples]. unfold match_argument at 1. rewrite Hact. cbn.
    cbn [run_opts]. rewrite Hso.
    destruct (take_action py_float o [v] st) as [st'|s]; cbn [pbind]; [|done].
    rewrite (IH (S start) st' f); [| |eapply drop_S_cons; exact Ha|done|simpl in Hf; lia].
    + replace (S start + length suf)%nat with (start + length ((n, v) :: suf))%nat by (simpl; lia).
      done.
    + eapply drop_S_cons. exact Hc.
Qed.
End Printed.

Lemma dests_not_bams : Forall (fun o => opt_dest o <> "bams") rover_optionals.
Proof. repeat constructor; discriminate. Qed.

(** C19: on a command line of the form [--name=value ... -- bam ...], each
    name a storing option, [parse_args] is the reference [expected_parse]:
    the options are converted in order, the last value of an option
    replacing the earlier ones and the first conversion error ending the
    parse; then an empty list of BAM files is [too few arguments], then
    the first missing required option ([--primers] before [--out]) is an
    error; otherwise the namespace holds the values, the defaults and
    the BAM files. *)
Theorem parse_args_printed py_float opts bams :
  Forall store_ok opts ->
  parse_args py_float (print_argv opts bams) = expected_parse py_float opts bams.
Proof.
  intros Hs. unfold parse_args, parse_known_args. rewrite classify_printed by done. cbn [pbind].
  rewrite (loop_printed py_float _ _ bams opts 0 init_pstate); [|done|done|done|].
  2:{ unfold print_argv. rewrite length_app, length_map. simpl. lia. }
  unfold init_pstate. rewrite run_opts_set by done. unfold expected_parse.
  destruct (set_options py_float opts init_namespace) as [ns|s]; cbn [pbind]; [|done].
  assert (Hc : drop (0 + length opts) (cls_of opts bams) = CDash :: map (fun _ => CA) bams).
  { unfold cls_of. rewrite Nat.add_0_l, <- (length_map (fun p => CO (tuple_of p)) opts).
    apply drop_app_length. }
  assert (Ha : drop (0 + length opts) (print_argv opts bams) = "--" :: bams).
  { unfold print_argv. rewrite Nat.add_0_l, <- (length_map print_opt opts).
    apply drop_app_length. }
  unfold consume_positionals. cbn [ps_pending]. rewrite Hc.
  destruct bams as [|b bs]; [done|].
  unfold match_plus. cbn [span_len is_dash drop map]. rewrite Ha, span_len_args.
  rewrite take_ge by (simpl; lia).
  cbn [take take_bams ps_pending remove_first ps_seen ps_ns ps_extras].
  rewrite bool_decide_false by done.
  rewrite (find_ext _ (fun o => opt_required o && negb (bool_decide (opt_dest o ∈ map fst opts)))).
  - destruct (List.find _ _); [done|].
    rewrite drop_ge; [cbn; done|]. unfold print_argv. rewrite length_app, length_map. simpl. lia.
  - intros o Ho. f_equal. f_equal. apply bool_decide_ext.
    rewrite elem_of_cons, app_nil_r, !list_elem_of_In, <- in_rev.
    pose proof (proj1 (List.Forall_forall _ _) dests_not_bams o Ho) as Hb.
    split; [intros [Hd|Hd]; [contradiction|exact Hd]|intros Hd; right; exact Hd].
Qed.

(** ** The parse always ends *)

(** Classifying raises only the ambiguity error. *)
Lemma parse_optional_error s e : parse_optional s = PStop e -> exists a, e = StopError (Ambiguous a).
Proof. unfold parse_optional. repeat case_match; intros Hp; try discriminate Hp; injection Hp as <-; eauto. Qed.


Section Total.
Variable py_float : string -> option Q.












End Total.


(** ** Abbreviations *)

(** The option strings that [s] abbreviates. *)
Definition abbreviations (s : string) : list string :=
  List.filter (fun os => String.prefix s os) (map fst option_strings).

Lemma length_filter_fst {A B} (f : A -> bool) (l : list (A * B)) :
  length (List.filter (fun p => f p.1) l) = length (List.filter f (map fst l)).
Proof. induction l as [|[a b] l IH]; simpl; [done|]. destruct (f a); simpl; congruence. Qed.

Lemma parse_optional_ambiguous p :
  p <> "" -> split_char "=" (list_ascii_of_string p) = None ->
  lookup_option ("--" +:+ p) = None -> (2 <= length (abbreviations ("--" +:+ p)))%nat ->
  parse_optional ("--" +:+ p) = PStop (StopError (Ambiguous ("--" +:+ p))).
Proof.
  intros Hp Hs Hl Ha.
  assert (Hw : list_ascii_of_string ("--" +:+ p) = "-"%char :: "-"%char :: list_ascii_of_string p)
    by (rewrite list_ascii_of_string_app; done).
  assert (He : split_eq ("--" +:+ p) = None) by (unfold split_eq; rewrite Hw; cbn; rewrite Hs; done).
  unfold parse_optional. rewrite Hw, Hl. cbn [Ascii.eqb negb]. rewrite bool_decide_false by done.
  rewrite He. unfold get_option_tuples. rewrite Hw, He.
  unfold abbreviations in Ha. rewrite <- length_filter_fst in Ha.
  destruct (List.filter _ option_strings) as [|x [|y l]]; simpl in Ha; [lia|lia|done].
Qed.

Lemma classify_ambiguous l1 s l2 :
  "--" ∉ l1 -> s <> "--" -> parse_optional s = PStop (StopError (Ambiguous s)) ->
  exists a, classify (l1 ++ s :: l2) = PStop (StopError (Ambiguous a)).
Proof.
  intros Hn Hs Hp. induction l1 as [|x l1 IH]; simpl.
  - apply String.eqb_neq in Hs. rewrite Hs, Hp. eauto.
  - rewrite elem_of_cons in Hn. destruct (String.eqb_spec x "--") as [->|Hx]; [tauto|].
    destruct (parse_optional x) as [c|e] eqn:E; simpl.
    + destruct IH as [a0 Ha]; [tauto|]. rewrite Ha. eauto.
    + destruct (parse_optional_error _ _ E) as [a0 ->]. eauto.
Qed.

(** C21: a long option abbreviated to a prefix of several option strings
    (such as [--primer], which begins [--primers], [--primercheck] and
    [--primerthresh]) before any [--] makes [parse_args] fail with an
    ambiguity error, whatever else the command line holds: the strings
    are classified before any action runs, so even [-h] or [--version]
    before it do not print. *)
Theorem parse_args_ambiguous py_float argv1 p argv2 :
  "--" ∉ argv1 -> p <> "" -> split_char "=" (list_ascii_of_string p) = None ->
  lookup_option ("--" +:+ p) = None -> (2 <= length (abbreviations ("--" +:+ p)))%nat ->
  exists a, parse_args py_float (argv1 ++ ("--" +:+ p) :: argv2) = PStop (StopError (Ambiguous a)).
Proof.
  intros Hn Hp Hs Hl Ha.
  destruct (classify_ambiguous argv1 ("--" +:+ p) argv2 Hn) as [a Hc].
  - rewrite !append_String, append_Empty. intros [= ->]. done.
  - apply parse_optional_ambiguous; done.
  - exists a. unfold parse_args, parse_known_args. rewrite Hc. done.
Qed.

(** ** Typed arguments and their round trip *)

(** The arguments of a run, typed: what [parse_args] should deliver. *)
Record cli := mkCli {
  c_reference : option string;
  c_primers : string;
  c_overlap : option Q;
  c_bams : list string;
  c_log : option string;
  c_out : string;
  c_proportionthresh : option Q;
  c_absthresh : option Z;
  c_qualthresh : option Z;
  c_primercheck : option string;
  c_primerthresh : option Z;
  c_gap_penalty : option Q;
  c_id_info : option string;
  c_coverdir : option string }.

Definition opt_list {A} (o : option A) : list A := match o with Some x => [x] | None => [] end.

Definition opt_field {A} (n : string) (f : A -> string) (o : option A) : list (string * string) :=
  map (fun x => (n, f x)) (opt_list o).

Definition set_field {A} (n : string) (f : A -> pyval) (o : option A) (ns : namespace) : namespace :=
  match o with Some x => <[n := f x]> ns | None => ns end.

Section Typed.
Variable py_float : string -> option Q.
(** How a float is written on the command line. *)
Variable py_repr_float : Q -> string.

Definition cli_opts (c : cli) : list (string * string) :=
  opt_field "reference" id (c_reference c) ++ [("primers", c_primers c)] ++
  opt_field "overlap" py_repr_float (c_overlap c) ++ opt_field "log" id (c_log c) ++
  [("out", c_out c)] ++ opt_field "proportionthresh" py_repr_float (c_proportionthresh c) ++
  opt_field "absthresh" py_str_Z (c_absthresh c) ++ opt_field "qualthresh" py_str_Z (c_qualthresh c) ++
  opt_field "primercheck" id (c_primercheck c) ++
  opt_field "primerthresh" py_str_Z (c_primerthresh c) ++
  opt_field "gap_penalty" py_repr_float (c_gap_penalty c) ++ opt_field "id_info" id (c_id_info c) ++
  opt_field "coverdir" id (c_coverdir c).

(** The command line of a run: every given option as [--name=value],
    then [--] and the BAM files. *)
Definition print_cli (c : cli) : list string := print_argv (cli_opts c) (c_bams c).

(** The namespace of a run: the given values over the defaults. *)
Definition ns_of_cli (c : cli) : namespace :=
  <["bams" := PList (map PStr (c_bams c))]>
  (set_field "coverdir" PStr (c_coverdir c)
  (set_field "id_info" PStr (c_id_info c)
  (set_field "gap_penalty" PFloat (c_gap_penalty c)
  (set_field "primerthresh" PInt (c_primerthresh c)
  (set_field "primercheck" PStr (c_primercheck c)
  (set_field "qualthresh" PInt (c_qualthresh c)
  (set_field "absthresh" PInt (c_absthresh c)
  (set_field "proportionthresh" PFloat (c_proportionthresh c)
  (<["out" := PStr (c_out c)]>
  (set_field "log" PStr (c_log c)
  (set_field "overlap" PFloat (c_overlap c)
  (<["primers" := PStr (c_primers c)]>
  (set_field "reference" PStr (c_reference c) init_namespace))))))))))))).

Definition cli_strings (c : cli) : list string :=
  [c_primers c; c_out c] ++ opt_list (c_reference c) ++ opt_list (c_log c) ++
  opt_list (c_primercheck c) ++ opt_list (c_id_info c) ++ opt_list (c_coverdir c).

Definition cli_floats (c : cli) : list Q :=
  opt_list (c_overlap c) ++ opt_list (c_proportionthresh c) ++ opt_list (c_gap_penalty c).

(** A float's written form reads back as the float and is not [--]. *)
Definition float_ok (q : Q) : Prop := py_float (py_repr_float q) = Some q /\ py_repr_float q <> "--".

Lemma set_options_app l1 l2 ns :
  set_options py_float (l1 ++ l2) ns = pbind (set_options py_float l1 ns) (set_options py_float l2).
Proof.
  revert ns. induction l1 as [|[n v] l1 IH]; intros ns; [reflexivity|]. cbn [app set_options].
  destruct (store_option n) as [[o ty]|]; [|apply IH].
  destruct (get_values py_float o ty [v]); cbn [pbind]; [apply IH|reflexivity].
Qed.

Lemma get_values_single o ty v : v <> "--" -> get_values py_float o ty [v] = get_value py_float o ty v.
Proof. intros Hv. unfold get_values. cbn [remove_first]. apply String.eqb_neq in Hv. rewrite String.eqb_sym, Hv. done. Qed.

Lemma set_options_one n v x ns o ty :
  store_option n = Some (o, ty) -> get_values py_float o ty [v] = POk x ->
  set_options py_float [(n, v)] ns = POk (<[n := x]> ns).
Proof. intros Hs Hg. simpl. rewrite Hs, Hg. done. Qed.

Lemma set_options_opt {A} n (f : A -> string) (g : A -> pyval) (ox : option A) ns o ty :
  store_option n = Some (o, ty) ->
  (forall x, ox = Some x -> get_values py_float o ty [f x] = POk (g x)) ->
  set_options py_float (opt_field n f ox) ns = POk (set_field n g ox ns).
Proof. intros Hs Hg. destruct ox as [x|]; [|done]. eapply set_options_one; eauto. Qed.

Lemma store_ok_opt {A} n (f : A -> string) ox :
  is_Some (store_option n) -> Forall store_ok (opt_field n f ox).
Proof. intros Hn. destruct ox; repeat constructor; done. Qed.

(** C20: a run's arguments written out as [--name=value] options, [--] and
    the BAM files are read back by [parse_args] as exactly those values,
    the options not given keeping their defaults, provided no string
    value is [--] (which argparse would remove, giving an empty list)
    and the written floats read back. *)
Theorem parse_args_roundtrip c :
  c_bams c <> [] -> Forall (fun s => s <> "--") (cli_strings c) -> Forall float_ok (cli_floats c) ->
  parse_args py_float (print_cli c) = POk (ns_of_cli c).
Proof.
  intros Hb Hs Hf. unfold cli_strings, cli_floats in *. rewrite !List.Forall_app in Hs. rewrite !List.Forall_app in Hf.
  destruct Hs as (Hpo & Hr & Hl & Hc & Hi & Hd).
  apply List.Forall_cons_iff in Hpo as [Hp Ho]. apply List.Forall_cons_iff in Ho as [Ho _]. destruct Hf as (Hov & Hpt & Hg).
  assert (Str : forall o (ox : option string), Forall (fun s => s <> "--") (opt_list ox) ->
            forall x, ox = Some x -> get_values py_float o TStr [id x] = POk (PStr x)).
  { intros o ox Hx x ->. simpl in Hx. inversion Hx as [|? ? Hx1]. rewrite get_values_single by exact Hx1. done. }
  assert (Str' : forall o (ox : option string), Forall (fun s => s <> "--") (opt_list ox) ->
            forall x, ox = Some x -> get_values py_float o TNone [id x] = POk (PStr x)).
  { intros o ox Hx x ->. simpl in Hx. inversion Hx as [|? ? Hx1]. rewrite get_values_single by exact Hx1. done. }
  assert (Flt : forall o (ox : option Q), Forall float_ok (opt_list ox) ->
            forall x, ox = Some x -> get_values py_float o TFloat [py_repr_float x] = POk (PFloat x)).
  { intros o ox Hx x ->. simpl in Hx. inversion Hx as [|? ? [H1 H2]]. rewrite get_values_single by exact H2.
    unfold get_value. rewrite H1. done. }
  assert (Int : forall x o, get_values py_float o TInt [py_str_Z x] = POk (PInt x)).
  { intros x o. rewrite get_values_single; [unfold get_value; rewrite py_int_str_py_str_Z; done|].
    intros Hx. pose proof (py_int_str_py_str_Z x) as Hz. rewrite Hx in Hz. discriminate Hz. }
  unfold print_cli. rewrite parse_args_printed.
  2:{ unfold cli_opts. rewrite !List.Forall_app.
      split_and!; try apply store_ok_opt; try (repeat constructor); eexists; reflexivity. }
  unfold expected_parse. unfold cli_opts.
  rewrite ?set_options_app, (set_options_opt "reference" _ PStr _ _ _ TStr eq_refl (Str _ _ Hr)); cbn [pbind].
  rewrite ?set_options_app, (set_options_one "primers" _ _ _ _ TStr eq_refl (get_values_single _ _ _ Hp)); cbn [pbind].
  rewrite ?set_options_app, (set_options_opt "overlap" _ PFloat _ _ _ TFloat eq_refl (Flt _ _ Hov)); cbn [pbind].
  rewrite ?set_options_app, (set_options_opt "log" _ PStr _ _ _ TStr eq_refl (Str _ _ Hl)); cbn [pbind].
  rewrite ?set_options_app, (set_options_one "out" _ _ _ _ TStr eq_refl (get_values_single _ _ _ Ho)); cbn [pbind].
  rewrite ?set_options_app, (set_options_opt "proportionthresh" _ PFloat _ _ _ TFloat eq_refl (Flt _ _ Hpt)); cbn [pbind].
  rewrite ?set_options_app, (set_options_opt "absthresh" _ PInt _ _ _ TInt eq_refl (fun x _ => Int x _)); cbn [pbind].
  rewrite ?set_options_app, (set_options_opt "qualthresh" _ PInt _ _ _ TInt eq_refl (fun x _ => Int x _)); cbn [pbind].
  rewrite ?set_options_app, (set_options_opt "primercheck" _ PStr _ _ _ TStr eq_refl (Str _ _ Hc)); cbn [pbind].
  rewrite ?set_options_app, (set_options_opt "primerthresh" _ PInt _ _ _ TInt eq_refl (fun x _ => Int x _)); cbn [pbind].
  rewrite ?set_options_app, (set_options_opt "gap_penalty" _ PFloat _ _ _ TFloat eq_refl (Flt _ _ Hg)); cbn [pbind].
  rewrite ?set_options_app, (set_options_opt "id_info" _ PStr _ _ _ TStr eq_refl (Str _ _ Hi)); cbn [pbind].
  rewrite ?set_options_app, (set_options_opt "coverdir" _ PStr _ _ _ TNone eq_refl (Str' _ _ Hd)); cbn [pbind].
  rewrite bool_decide_false by done.
  rewrite (find_ext _ (fun _ => false)); [done|].
  intros o Hin. cbn in Hin.
  repeat destruct Hin as [<-|Hin]; try destruct Hin; cbn [opt_required andb opt_dest];
    try reflexivity; rewrite bool_decide_true; try reflexivity;
    rewrite list_elem_of_In, !map_app, !in_app_iff; simpl; tauto.
Qed.
End Typed.

(** ** Witnesses *)

(** A [float()] and a way of writing floats that agree on [0.5]. *)
Definition ex_float (s : string) : option Q := if String.eqb s "0.5" then Some (1 # 2) else None.
Definition ex_repr (q : Q) : string := if Qeq_bool q (1 # 2) then "0.5" else "nan".

(** [--absthresh] given twice: the second value is kept. *)
Lemma parse_args_printed_witness :
  let opts := [("absthresh", "3"); ("primers", "p.tsv"); ("out", "o.vcf"); ("absthresh", "4")] in
  Forall store_ok opts /\
  parse_args ex_float (print_argv opts ["a.bam"]) = expected_parse ex_float opts ["a.bam"] /\
  match expected_parse ex_float opts ["a.bam"] with
  | POk ns => ns !! "absthresh" = Some (PInt 4)
  | PStop _ => False
  end.
Proof.
  intros opts.
  assert (Hs : Forall store_ok opts) by (repeat constructor; eexists; reflexivity).
  split; [exact Hs|]. split; [apply (parse_args_printed ex_float opts ["a.bam"] Hs)|].
  vm_compute. reflexivity.
Defined.

(** [--primer] after [-h] and [--version]. *)
Lemma parse_args_ambiguous_witness :
  exists a, parse_args ex_float (["-h"; "--version"] ++ ("--" +:+ "primer") :: ["x"]) =
            PStop (StopError (Ambiguous a)).
Proof.
  apply (parse_args_ambiguous ex_float ["-h"; "--version"] "primer" ["x"]).
  - rewrite !elem_of_cons, elem_of_nil. intros [H|[H|H]]; [discriminate H|discriminate H|done].
  - discriminate.
  - reflexivity.
  - reflexivity.
  - vm_compute. lia.
Defined.

Definition ex_cli : cli :=
  mkCli None "primers.tsv" (Some (1 # 2)) ["s1.bam"; "s2.bam"] None "out.vcf" None (Some 3) (Some 20)
    (Some "seqs.tsv") None None None (Some "cov").

Lemma parse_args_roundtrip_witness :
  c_bams ex_cli <> [] /\ Forall (fun s => s <> "--") (cli_strings ex_cli) /\
  Forall (float_ok ex_float ex_repr) (cli_floats ex_cli) /\
  parse_args ex_float (print_cli ex_repr ex_cli) = POk (ns_of_cli ex_cli).
Proof.
  assert (H1 : c_bams ex_cli <> []) by discriminate.
  assert (H2 : Forall (fun s => s <> "--") (cli_strings ex_cli)).
  { apply List.Forall_forall. intros s Hs. vm_compute in Hs.
    repeat destruct Hs as [<-|Hs]; try destruct Hs; discriminate. }
  assert (H3 : Forall (float_ok ex_float ex_repr) (cli_floats ex_cli)).
  { apply List.Forall_forall. intros q Hq. vm_compute in Hq.
    destruct Hq as [<-|[]]. split; [reflexivity|vm_compute; discriminate]. }
  split_and!; [exact H1|exact H2|exact H3|].
  apply (parse_args_roundtrip ex_float ex_repr ex_cli H1 H2 H3).
Defined.

(** The BAM files must be given together: one after the options is left
    over, and the parse fails. *)
Example parse_args_split_bams :
  parse_args ex_float ["a.bam"; "--out"; "o.vcf"; "--primers"; "p.tsv"; "b.bam"] =
  PStop (StopError (Unrecognized ["b.bam"])).
Proof. vm_compute. reflexivity. Qed.

(** [--out=--]: argparse removes the [--], and [args.out] is an empty
    list. *)
Example parse_args_out_dashdash :
  exists ns, parse_args ex_float ["--out=--"; "--primers=p.tsv"; "a.bam"] = POk ns /\
             ns !! "out" = Some (PList []).
Proof.
  exists (match parse_args ex_float ["--out=--"; "--primers=p.tsv"; "a.bam"] with
          | POk ns => ns | PStop _ => ∅ end).
  split; vm_compute; reflexivity.
Qed.
