(* ===== verification/Runner.v ===== *)
(** * Runner: [process_bams], the run over the BAM files

    Models [process_bams] (rover.py 806-836) and what it calls besides
    [process_blocks]: the dictionary [primer_sequence] built from the
    rows of the primer sequence table ([get_primer_sequence], rover.py
    78-80 and 811-814), the VCF meta-information lines of
    [write_metadata] (rover.py 773-798) and the column header
    [output_header] (rover.py 804), the sample name taken from each BAM
    file name (rover.py 828-833) and the coverage file each sample's
    [process_blocks] writes (rover.py 758-771).

    The files of the run are a map from file names to their lines: the
    VCF file accumulates the lines of every sample, and a coverage file
    written twice keeps the second content.  The tables are given as the
    rows [csv.reader] returns; the logging and the primer histograms of
    [data.dat] and [data2.dat] are not modelled.  [datetime.date.today()]
    is an argument, [str] of a float a section variable ([py_str_float]).

    [main] (rover.py 838-852) runs [Args.parse_args] and passes the
    namespace to [process_bams]; the files it reads (the tables, the BAM
    files, the known-variant VCF) are functions of their names. *)

From S2P Require Import Prelude Bases Variants Overlap Aggregate Output Args.
From Stdlib Require Import QArith.
Open Scope Z_scope.

(** ** The primer sequence table *)

(** [for primer in primer_info: primer_sequence[primer[0]] = primer[1]]:
    the right-hand side is read first, and a later row of the same id
    replaces an earlier one. *)
Fixpoint primer_table_loop (rows : list (list string)) (d : gmap string string)
  : res (gmap string string) :=
  match rows with
  | [] => Ok d
  | primer :: rs =>
      let! v := of_option IndexError (primer !! 1%nat) in
      let! k := of_option IndexError (primer !! 0%nat) in
      primer_table_loop rs (<[k := v]> d)
  end.

Definition primer_table (rows : list (list string)) : res (gmap string string) :=
  primer_table_loop rows ∅.

(** ** File names *)

(** [s.split(sep)] on a one-character separator: never empty. *)
Fixpoint py_split (sep : ascii) (l : list ascii) : list (list ascii) :=
  match l with
  | [] => [[]]
  | c :: l' =>
      if Ascii.eqb c sep then [] :: py_split sep l'
      else match py_split sep l' with
           | x :: xs => (c :: x) :: xs
           | [] => [[c]]
           end
  end.

(** [os.path.basename(p)]: what follows the last ['/']. *)
Definition py_basename (p : string) : string :=
  string_of_list_ascii (default [] (last (py_split "/"%char (list_ascii_of_string p)))).

(** [sample = base.split('.')]; [sample[0]] when the list is not empty,
    else [exit(...)]. *)
Definition sample_of_filename (bam_filename : string) : res string :=
  match py_split "."%char (list_ascii_of_string (py_basename bam_filename)) with
  | x :: _ => Ok (string_of_list_ascii x)
  | [] => Err ValueError
  end.

(** [os.path.join(a, b)] on POSIX. *)
Definition py_path_join (a b : string) : string :=
  match list_ascii_of_string b with
  | "/"%char :: _ => b
  | _ => match last (list_ascii_of_string a) with
         | None => b
         | Some "/"%char => a +:+ b
         | Some _ => a +:+ "/" +:+ b
         end
  end.

(** [coverage_filename] (rover.py 758, 766-767). *)
Definition coverage_filename (coverdir : option string) (sample : string) : string :=
  let f := sample +:+ ".coverage" in
  match coverdir with None => f | Some d => py_path_join d f end.

(** ** The VCF header *)

Definition dq : string := String "034"%char EmptyString.
Definition nl : string := String "010"%char EmptyString.

Section Metadata.
(** [str(x)] of a float. *)
Variable py_str_float : Q -> string.

Definition qlt_line (q : Z) : string :=
  "##FILTER=<ID=qlt,Description=" +:+ dq +:+ "Variant has phred quality score below " +:+
  py_str_Z q +:+ dq +:+ ">" +:+ nl.

Definition at_line (a : Z) : string :=
  "##FILTER=<ID=at,Description=" +:+ dq +:+ "Variant does not appear in at least " +:+
  py_str_Z a +:+ " read pairs" +:+ dq +:+ ">" +:+ nl.

Definition pt_line (p : Q) : string :=
  "##FILTER=<ID=pt,Descroption=" +:+ dq +:+ "Variant does not appear in at least " +:+
  py_str_float (p * 100)%Q +:+ "% of read pairs for the given region" +:+ dq +:+ ">" +:+ nl.

Definition info_line (id number type_ description : string) : string :=
  "##INFO=<ID=" +:+ id +:+ ",Number=" +:+ number +:+ ",Type=" +:+ type_ +:+
  ",Description=" +:+ dq +:+ description +:+ dq +:+ ">" +:+ nl.

(** [write_metadata(args, file)] with [str(today)] given. *)
Definition write_metadata (args : rover_args) (reference : option string) (today : string)
  : list string :=
  let d := list_ascii_of_string today in
  ["##fileformat=VCFv4.2" +:+ nl;
   "##fileDate=" +:+ string_of_list_ascii (py_slice d 0 4 ++ py_slice d 5 7 ++
                                           py_slice d 8 (Z.of_nat (length d))) +:+ nl;
   "##source=ROVER-PCR Variant Caller" +:+ nl] ++
  (match reference with
   | Some r => if String.eqb r "" then [] else ["##reference=file:///" +:+ r +:+ nl]
   | None => []
   end) ++
  [info_line "Sample" "1" "String" "Sample Name";
   info_line "NV" "1" "Float" "Number of read pairs with variant";
   info_line "NP" "1" "Float" "Number of read pairs at POS";
   info_line "PCT" "1" "Float" "Percentage of read pairs at POS with variant";
   info_line "BS" "1" "String"
     "Context base cannot be determined as indel is located near a region not covered by the MD string";
   info_line "HC" "1" "String"
     "Context base cannot be determined due to hard clipping on the aligned sequence prior to indel event";
   info_line "SC" "1" "String"
     "Context base cannot be determined due to soft clipping on the aligned sequence prior to indel event";
   info_line "IP" "1" "String" "Misaligned or incorrect base sequence in primer region"] ++
  (match a_qualthresh args with
   | Some q => if q =? 0 then [] else [qlt_line q]
   | None => []
   end) ++
  (if a_absthresh args =? 0 then [] else [at_line (a_absthresh args)]) ++
  (if Qeq_bool (a_proportionthresh args) 0 then [] else [pt_line (a_proportionthresh args)]).
End Metadata.

(** [output_header + '\n'] (rover.py 804, 824). *)
Definition output_header : string :=
  py_join (String "009"%char EmptyString)
    ["#CHROM"; "POS"; "ID"; "REF"; "ALT"; "QUAL"; "FILTER"; "INFO"] +:+ nl.

(** ** The run *)

(** The coverage files of a run, by name. *)
Definition files := gmap string (list string).

Section Run.
Context `{BamFile B} `{VcfReader R}.
Variable check_primers :
  gmap string string -> block_row -> list Base -> Z -> Z -> Z -> res (Z * Z).
Variable py_str_float : Q -> string.
Variables (args : rover_args) (reference : option string) (today : string)
  (coverdir : option string).

(** The loop [for bam_filename in args.bams] (rover.py 827-836): the lines
    of the VCF file so far and the coverage files written. *)
Fixpoint bams_loop (block_coords : list (list string)) (primer_sequence : gmap string string)
    (id_info : option R) (bams : list (string * B)) (vcf : list string) (covs : files)
  : res (list string * files) :=
  match bams with
  | [] => Ok (vcf, covs)
  | (bam_filename, bam) :: rest =>
      let! sample := sample_of_filename bam_filename in
      let! r := process_blocks check_primers args bam sample block_coords primer_sequence id_info in
      let '(lines, coverage) := r in
      bams_loop block_coords primer_sequence id_info rest (vcf ++ lines)
        (<[coverage_filename coverdir sample := coverage]> covs)
  end.

(** [process_bams(args)]: the block table, the primer sequence table
    (read when primers are checked), the known-variant VCF and the BAM
    files are given; the result is the content of [args.out] and the
    coverage files. *)
Definition process_bams (block_coords primer_info : list (list string)) (id_info : option R)
    (bams : list (string * B)) : res (list string * files) :=
  let! primer_sequence := if a_primercheck args then primer_table primer_info else Ok ∅ in
  bams_loop block_coords primer_sequence id_info bams
    (write_metadata py_str_float args reference today ++ [output_header]) ∅.
End Run.

(** ** The primer sequence table *)

Definition primer_row_ok (r : list string) : Prop := (2 <= length r)%nat.

(** The rows of [rows] after which no row has the id [k]. *)
Definition no_later (k : string) (post : list (list string)) : Prop :=
  Forall (fun r => head r <> Some k) post.

Lemma primer_table_loop_err rows d :
  ~ Forall primer_row_ok rows -> primer_table_loop rows d = Err IndexError.
Proof.
  revert d. induction rows as [|r rs IH]; intros d Hf; [destruct Hf; constructor|].
  unfold primer_row_ok in *.
  destruct r as [|k [|v r]]; simpl; try done.
  apply IH. intros Hrs. apply Hf. constructor; [simpl; lia|done].
Qed.

Lemma primer_table_loop_ok rows d :
  Forall primer_row_ok rows ->
  exists d', primer_table_loop rows d = Ok d' /\
    forall k v, d' !! k = Some v <->
      (exists pre r post, rows = pre ++ (k :: v :: r) :: post /\ no_later k post) \/
      (d !! k = Some v /\ no_later k rows).
Proof.
  unfold no_later, primer_row_ok.
  revert d. induction rows as [|row rs IH]; intros d Hf.
  { exists d. split; [done|]. intros k v. split; [intros; right; done|].
    intros [(pre & r & post & Hr & _)|[? _]]; [by destruct pre|done]. }
  inversion Hf as [|? ? Hrow Hrs]; subst.
  destruct row as [|k0 [|v0 r0]]; simpl in Hrow; try lia.
  destruct (IH (<[k0:=v0]> d) Hrs) as (d' & Hd' & Hspec).
  exists d'. split; [done|]. intros k v. rewrite Hspec. split.
  - intros [(pre & r & post & -> & Hp)|[Hk Hn]].
    + left. exists ((k0 :: v0 :: r0) :: pre), r, post. done.
    + destruct (decide (k = k0)) as [->|Hne].
      * rewrite lookup_insert_eq in Hk. injection Hk as <-.
        left. exists [], r0, rs. done.
      * rewrite lookup_insert_ne in Hk by congruence. right. split; [done|].
        constructor; [simpl; congruence|done].
  - intros [(pre & r & post & Heq & Hp)|[Hk Hn]].
    + destruct pre as [|p pre]; simpl in Heq.
      * injection Heq as -> -> -> ->. right. rewrite lookup_insert_eq. done.
      * injection Heq as <- ->. left. exists pre, r, post. done.
    + inversion Hn as [|? ? Hh Hn']; subst. simpl in Hh.
      right. rewrite lookup_insert_ne by congruence. done.
Qed.

(** ** File names *)

Lemma py_split_nonempty sep l : py_split sep l <> [].
Proof. destruct l as [|c l]; simpl; [done|]. destruct (Ascii.eqb c sep), (py_split sep l); done. Qed.

(** A piece of a split holds characters of the string and never the
    separator. *)
Lemma py_split_pieces sep l x :
  In x (py_split sep l) -> ~ In sep x /\ forall c, In c x -> In c l.
Proof.
  revert x. induction l as [|c l IH]; intros x Hx; simpl in Hx.
  { destruct Hx as [<-|[]]. split; [intros []|intros ? []]. }
  destruct (Ascii.eqb_spec c sep) as [->|Hne].
  - destruct Hx as [<-|Hx]; [split; [intros []|intros ? []]|].
    destruct (IH x Hx) as [H1 H2]. split; [done|]. intros d Hd. right. auto.
  - destruct (py_split sep l) as [|y ys] eqn:Hs; [by destruct (py_split_nonempty sep l)|].
    destruct Hx as [<-|Hx].
    + destruct (IH y (or_introl eq_refl)) as [H1 H2].
      split; [intros [?|?]; [congruence|done]|]. intros d [<-|Hd]; [left; done|right; auto].
    + destruct (IH x (or_intror Hx)) as [H1 H2]. split; [done|]. intros d Hd. right. auto.
Qed.

Lemma last_In {A} (l : list A) x : last l = Some x -> In x l.
Proof.
  induction l as [|a l IH]; [done|]. destruct l as [|b l]; simpl.
  - intros [= ->]. left. done.
  - intros Hx. right. apply IH. done.
Qed.

(** ** The run over the BAM files *)

Section RunSpec.
Context `{BamFile B} `{VcfReader R}.
Variable check_primers :
  gmap string string -> block_row -> list Base -> Z -> Z -> Z -> res (Z * Z).
Variable py_str_float : Q -> string.
Variables (args : rover_args) (reference : option string) (today : string)
  (coverdir : option string).
Variables (block_coords : list (list string)) (primer_sequence : gmap string string)
  (id_info : option R).

(** One BAM file of the loop: its sample name, then the VCF lines and
    coverage file of its [process_blocks]. *)
Definition bam_run (fb : string * B) (o : string * list string * list string) : Prop :=
  sample_of_filename fb.1 = Ok o.1.1 /\
  process_blocks check_primers args fb.2 o.1.1 block_coords primer_sequence id_info
    = Ok (o.1.2, o.2).

(** The coverage files after the runs [outs], each written over any
    earlier file of the same name. *)
Definition write_coverages (outs : list (string * list string * list string)) (covs : files)
  : files :=
  fold_left (fun m o => <[coverage_filename coverdir o.1.1 := o.2]> m) outs covs.

Lemma bams_loop_spec bams vcf covs vcf' covs' :
  bams_loop check_primers args coverdir block_coords primer_sequence id_info bams vcf covs
    = Ok (vcf', covs') <->
  exists outs, Forall2 bam_run bams outs /\
    vcf' = vcf ++ concat (map (fun o => o.1.2) outs) /\ covs' = write_coverages outs covs.
Proof.
  unfold write_coverages.
  revert vcf covs. induction bams as [|[f bam] rest IH]; intros vcf covs; simpl.
  - split; [intros [= <- <-]; exists []; rewrite app_nil_r; done|].
    intros (outs & Hf & -> & ->). inversion Hf; subst. rewrite app_nil_r. done.
  - unfold bam_run at 1. simpl.
    destruct (sample_of_filename f) as [s|e] eqn:Hs; simpl.
    2:{ split; [done|]. intros (outs & Hf & _). inversion Hf as [|? [[s' l] c] ? ? [Hs' _]]; simpl in *; congruence. }
    destruct (process_blocks _ _ _ _ _ _ _) as [[lines cov]|e] eqn:Hp; simpl.
    2:{ split; [done|]. intros (outs & Hf & _).
        inversion Hf as [|? [[s' l] c] ? ? [Hs' Hp']]; simpl in *; simplify_eq. congruence. }
    rewrite IH. split.
    + intros (outs & Hf & -> & ->). exists ((s, lines, cov) :: outs).
      split; [constructor; [split|]; done|]. rewrite <- app_assoc. done.
    + intros (outs & Hf & -> & ->).
      destruct outs as [|[[s' l] c] outs']; [inversion Hf|].
      apply Forall2_cons_1 in Hf as [[Hs' Hp'] Hf']. simpl in *.
      rewrite Hs in Hs'. injection Hs' as <-. rewrite Hp in Hp'. injection Hp' as <- <-.
      exists outs'. rewrite <- app_assoc. done.
Qed.
End RunSpec.

Lemma Q_ratio_nonneg (a b : Z) : 0 <= a -> 0 < b -> (0 <= inject_Z a / inject_Z b)%Q.
Proof.
  intros Ha Hb. apply Qle_shift_div_l; [change (inject_Z 0 < inject_Z b)%Q; rewrite <- Zlt_Qlt; lia|].
  rewrite Qmult_0_l. change (inject_Z 0 <= inject_Z a)%Q. rewrite <- Zle_Qle. lia.
Qed.

(** ** Properties *)

(** C16: reading the primer sequence table raises IndexError exactly
    when a row has fewer than two fields; otherwise the table maps an id
    [k] to [v] exactly when some row reads [k, v, ...] and no later row
    has the id [k]: a later row of the same id replaces an earlier one. *)
Theorem primer_table_spec rows :
  (Forall primer_row_ok rows ->
   exists d, primer_table rows = Ok d /\
     forall k v, d !! k = Some v <->
       exists pre r post, rows = pre ++ (k :: v :: r) :: post /\ no_later k post) /\
  (~ Forall primer_row_ok rows -> primer_table rows = Err IndexError).
Proof.
  split; [|apply primer_table_loop_err].
  intros Hf. destruct (primer_table_loop_ok rows ∅ Hf) as (d & Hd & Hs).
  exists d. split; [done|]. intros k v. rewrite Hs, lookup_empty.
  split; [intros [Hk|[Hk _]]; [exact Hk|discriminate Hk]|intros Hk; left; exact Hk].
Qed.

(** C17: the branch [exit('Cannot deduce sample name ...')] of
    [process_bams] is dead: every BAM file name gives a sample name,
    and that name holds neither ['.'] nor ['/']. *)
Theorem sample_of_filename_total bam_filename :
  exists sample, sample_of_filename bam_filename = Ok sample /\
    ~ In "."%char (list_ascii_of_string sample) /\ ~ In "/"%char (list_ascii_of_string sample).
Proof.
  unfold sample_of_filename, py_basename. rewrite list_ascii_of_string_of_list_ascii.
  set (x := default [] _).
  assert (Hx : ~ In "/"%char x).
  { unfold x. destruct (last _) as [y|] eqn:Hl; simpl; [|intros []].
    apply (py_split_pieces _ _ _ (last_In _ _ Hl)). }
  destruct (py_split "."%char x) as [|y ys] eqn:Hs; [by destruct (py_split_nonempty "."%char x)|].
  exists (string_of_list_ascii y). rewrite list_ascii_of_string_of_list_ascii.
  destruct (py_split_pieces "."%char x y) as [H1 H2]; [rewrite Hs; left; done|].
  split_and!; [done|done|]. intros Hy. apply Hx, H2, Hy.
Qed.

(** C12: [process_bams] returns exactly when the primer table is read,
    every BAM file gives a sample name and its [process_blocks] returns;
    the output VCF is then the metadata, the column header and the lines
    of every BAM in order, and the coverage files are those of the BAMs,
    a later BAM of the same sample replacing the file of an earlier one. *)
Theorem process_bams_spec `{BamFile B} `{VcfReader R} check_primers py_str_float args reference
    today coverdir block_coords primer_info (id_info : option R) (bams : list (string * B)) vcf covs :
  process_bams check_primers py_str_float args reference today coverdir block_coords primer_info
    id_info bams = Ok (vcf, covs) <->
  exists primer_sequence outs,
    (if a_primercheck args then primer_table primer_info else Ok ∅) = Ok primer_sequence /\
    Forall2 (bam_run check_primers args block_coords primer_sequence id_info) bams outs /\
    vcf = write_metadata py_str_float args reference today ++ [output_header] ++
          concat (map (fun o => o.1.2) outs) /\
    covs = write_coverages coverdir outs ∅.
Proof.
  unfold process_bams. destruct (if a_primercheck args then _ else _) as [ps|e]; cbn [res_bind].
  - rewrite bams_loop_spec. split.
    + intros (outs & Hf & -> & ->). exists ps, outs. rewrite <- app_assoc. done.
    + intros (ps' & outs & [= <-] & Hf & -> & ->). exists outs. rewrite <- app_assoc. done.
  - split; [done|]. intros (? & ? & ? & _). done.
Qed.

(** C15: the metadata declares every filter the run can add: [;qlt] on a
    base of non-negative quality below [--qualthresh], [;at] on a count
    below [--absthresh] and [;pt] on a proportion of a non-negative count
    over a positive number of pairs below [--proportionthresh] each have
    their [##FILTER] line, since then the threshold is not zero. *)
Theorem header_declares_filters py_str_float args reference today q qual np nv :
  0 <= nv -> 0 < np ->
  (a_qualthresh args = Some q -> (0 <= qual < q) ->
   In (qlt_line q) (write_metadata py_str_float args reference today)) /\
  ((nv <? a_absthresh args) = true ->
   In (at_line (a_absthresh args)) (write_metadata py_str_float args reference today)) /\
  (py_float_lt (inject_Z nv / inject_Z np) (a_proportionthresh args) = true ->
   In (pt_line py_str_float (a_proportionthresh args))
     (write_metadata py_str_float args reference today)).
Proof.
  intros Hnv Hnp. unfold write_metadata. split_and!; intros; rewrite !in_app_iff.
  - do 3 right. left. rewrite H. cbn iota. replace (q =? 0) with false by lia. left. done.
  - do 4 right. left. replace (a_absthresh args =? 0) with false by lia. left. done.
  - revert H. unfold py_float_lt. intros Hp. do 5 right.
    destruct (Qcompare_spec (inject_Z nv / inject_Z np) (a_proportionthresh args)); try done.
    pose proof (Q_ratio_nonneg nv np Hnv Hnp).
    destruct (Qeq_bool _ _) eqn:He; [|left; done].
    apply Qeq_bool_eq in He. exfalso. rewrite He in *. eapply Qlt_not_le; eauto.
Qed.

(** ** Witnesses *)

(** The id [F] given twice: the second sequence is kept; a row with an
    id and no sequence raises. *)
Lemma primer_table_spec_witness :
  let rows := [["F"; "ACGT"]; ["R"; "AAAC"; "x"]; ["F"; "TTTT"]] in
  Forall primer_row_ok rows /\
  (exists d, primer_table rows = Ok d /\
     forall k v, d !! k = Some v <->
       exists pre r post, rows = pre ++ (k :: v :: r) :: post /\ no_later k post) /\
  ~ Forall primer_row_ok [["F"]] /\ primer_table [["F"]] = Err IndexError.
Proof.
  intros rows.
  assert (Hf : Forall primer_row_ok rows) by (repeat constructor; unfold primer_row_ok; simpl; lia).
  assert (Hn : ~ Forall primer_row_ok [["F"]]).
  { intros Hs. inversion Hs as [|? ? Hr]. unfold primer_row_ok in Hr. simpl in Hr. lia. }
  split_and!; [exact Hf| apply (proj1 (primer_table_spec rows) Hf) | exact Hn |].
  apply (proj2 (primer_table_spec [["F"]]) Hn).
Defined.

Definition ex_run_args : rover_args := mkArgs (9 # 10) (1 # 2) 2 (Some 20) false 0 0.

Lemma header_declares_filters_witness :
  0 <= 1 /\ 0 < 4 /\
  (a_qualthresh ex_run_args = Some 20 -> (0 <= 10 < 20) ->
   In (qlt_line 20) (write_metadata (fun _ => "50.0") ex_run_args None "2026-11-09")) /\
  ((1 <? a_absthresh ex_run_args) = true ->
   In (at_line (a_absthresh ex_run_args)) (write_metadata (fun _ => "50.0") ex_run_args None "2026-11-09")) /\
  (py_float_lt (inject_Z 1 / inject_Z 4) (a_proportionthresh ex_run_args) = true ->
   In (pt_line (fun _ => "50.0") (a_proportionthresh ex_run_args))
     (write_metadata (fun _ => "50.0") ex_run_args None "2026-11-09")).
Proof.
  split; [lia|]. split; [lia|].
  apply (header_declares_filters (fun _ => "50.0") ex_run_args None "2026-11-09" 20 10 4 1); lia.
Defined.

(** Two BAM files of the sample [S1] over the block [chr1:101-104]: the
    first holds one pair, the second two. *)
Definition ex_bams : list (string * list pysam_read) :=
  [("run1/S1.bam", [ex_mate "p"; ex_mate "p"]);
   ("run2/S1.sorted.bam", [ex_mate "p"; ex_mate "p"; ex_mate "q"; ex_mate "q"])].
Definition ex_coords : list (list string) := [["chr1"; "101"; "104"; "F"; "R"]].

Lemma process_bams_spec_witness :
  exists vcf covs,
    process_bams ex_check (fun _ => "10.0") ex_args None "2026-11-09" (Some "cov") ex_coords []
      (None : option (list vcf_record)) ex_bams = Ok (vcf, covs) /\
  exists primer_sequence outs,
    (if a_primercheck ex_args then primer_table [] else Ok ∅) = Ok primer_sequence /\
    Forall2 (bam_run ex_check ex_args ex_coords primer_sequence None) ex_bams outs /\
    vcf = write_metadata (fun _ => "10.0") ex_args None "2026-11-09" ++ [output_header] ++
          concat (map (fun o => o.1.2) outs) /\
    covs = write_coverages (Some "cov") outs ∅.
Proof.
  do 2 eexists. split; [vm_compute; reflexivity|].
  apply (process_bams_spec ex_check (fun _ => "10.0") ex_args None "2026-11-09" (Some "cov")
           ex_coords [] None ex_bams). vm_compute. reflexivity.
Defined.

(** The second BAM of the sample [S1] replaces the coverage file of the
    first: the run leaves one coverage file, with the two pairs of the
    second BAM. *)
Example process_bams_coverage_overwritten :
  exists vcf, process_bams ex_check (fun _ => "10.0") ex_args None "2026-11-09" (Some "cov")
      ex_coords [] (None : option (list vcf_record)) ex_bams =
    Ok (vcf, {[ "cov/S1.coverage" := coverage_file [("chr1", 101, 104, 2)] ]}).
Proof. eexists. vm_compute. reflexivity. Qed.

(** ** The program: [main] *)

(** Reading the namespace of [parse_args] ([args.overlap] and the
    like); [None] for a value the model does not take (a list, which
    only [--name=--] produces). *)
Definition ns_float (ns : namespace) (k : string) : option Q :=
  match ns !! k with Some (PFloat q) => Some q | Some (PInt z) => Some (inject_Z z) | _ => None end.

Definition ns_int (ns : namespace) (k : string) : option Z :=
  match ns !! k with Some (PInt z) => Some z | _ => None end.

Definition ns_opt_int (ns : namespace) (k : string) : option (option Z) :=
  match ns !! k with Some PNone => Some None | Some (PInt z) => Some (Some z) | _ => None end.

Definition ns_opt_str (ns : namespace) (k : string) : option (option string) :=
  match ns !! k with Some PNone => Some None | Some (PStr s) => Some (Some s) | _ => None end.

Definition ns_bams (ns : namespace) : option (list string) :=
  match ns !! "bams" with
  | Some (PList vs) => mapM (fun v => match v with PStr s => Some s | _ => None end) vs
  | _ => None
  end.

(** [if args.primercheck:] and the like: a string is true unless empty. *)
Definition truthy (o : option string) : bool :=
  match o with Some s => negb (String.eqb s "") | None => false end.

(** The gap penalty as the whole number the model of [pairwise2] takes. *)
Definition whole (q : Q) : option Z := if Z.eqb (Zpos (Qden q)) 1 then Some (Qnum q) else None.

(** The fields of [args] that [process_blocks] reads. *)
Definition rover_args_of (ns : namespace) : option rover_args :=
  overlap ← ns_float ns "overlap";
  pt ← ns_float ns "proportionthresh";
  abs ← ns_int ns "absthresh";
  qual ← ns_opt_int ns "qualthresh";
  pc ← ns_opt_str ns "primercheck";
  pth ← ns_int ns "primerthresh";
  gapq ← ns_float ns "gap_penalty";
  gap ← whole gapq;
  Some (mkArgs overlap pt abs qual (truthy pc) pth gap).

(** What a run ends with: [parse_args] exiting, an exception of the run,
    or the files written; [UnmodelledArgs] for arguments outside the
    model (a list value, a gap penalty that is not whole). *)
Inductive main_outcome :=
| ArgsStop (s : arg_stop)
| RunError (e : rover_error)
| Ran (vcf : list string) (covs : files)
| UnmodelledArgs.

Section Main.
Context `{BamFile B} `{VcfReader R}.
Variable check_primers :
  gmap string string -> block_row -> list Base -> Z -> Z -> Z -> res (Z * Z).
Variables (py_float : string -> option Q) (py_str_float : Q -> string) (today : string).
(** The files the run reads, by name: the tables [csv.reader] returns,
    the BAM files and the known-variant VCF. *)
Variables (read_table : string -> list (list string)) (open_bam : string -> B)
  (open_vcf : string -> R).

Definition run_outcome (r : res (list string * files)) : main_outcome :=
  match r with Ok (vcf, covs) => Ran vcf covs | Err e => RunError e end.

(** [main()] (rover.py 838-852) with [process_bams(args)] (806-836):
    the logging set-up is not modelled. *)
Definition main (argv : list string) : main_outcome :=
  match parse_args py_float argv with
  | PStop s => ArgsStop s
  | POk ns =>
      match rover_args_of ns, ns_opt_str ns "reference", ns_opt_str ns "coverdir",
            ns_opt_str ns "primers", ns_opt_str ns "primercheck", ns_opt_str ns "id_info",
            ns_bams ns with
      | Some args, Some reference, Some coverdir, Some (Some primers), Some primercheck,
        Some id_info, Some bams =>
          let primer_info := match primercheck with Some f => read_table f | None => [] end in
          let vcf_reader := if truthy id_info then option_map open_vcf id_info else None in
          run_outcome (process_bams check_primers py_str_float args reference today coverdir
                         (read_table primers) primer_info vcf_reader
                         (map (fun f => (f, open_bam f)) bams))
      | _, _, _, _, _, _, _ => UnmodelledArgs
      end
  end.
End Main.

(** The arguments a typed command line gives the run. *)
Definition args_of_cli (c : cli) : rover_args :=
  mkArgs (default default_minimum_read_overlap_block (c_overlap c))
    (default default_proportion_threshold (c_proportionthresh c))
    (default default_absolute_threshold (c_absthresh c)) (c_qualthresh c)
    (truthy (c_primercheck c)) (default default_primer_threshold (c_primerthresh c))
    (match c_gap_penalty c with Some q => Qnum q | None => default_gap_penalty end).

Lemma lookup_set_field_ne {A} k n (f : A -> pyval) o ns :
  n <> k -> set_field n f o ns !! k = ns !! k.
Proof. intros Hn. destruct o; [apply lookup_insert_ne|]; done. Qed.

Lemma lookup_set_field_eq {A} n (f : A -> pyval) o ns :
  set_field n f o ns !! n = match o with Some x => Some (f x) | None => ns !! n end.
Proof. destruct o; [apply lookup_insert_eq|]; done. Qed.

(** Looking up a key of [ns_of_cli]: past the other keys, then into the
    defaults. *)
Ltac ns_skip :=
  repeat first [rewrite lookup_insert_ne by discriminate
               | rewrite lookup_set_field_ne by discriminate].

Ltac ns_key field :=
  unfold ns_of_cli; ns_skip;
  first [rewrite lookup_insert_eq; reflexivity
        | rewrite lookup_set_field_eq; destruct (field _);
          [reflexivity|ns_skip; vm_compute; reflexivity]].

Lemma ns_of_cli_lookups c :
  ns_of_cli c !! "overlap" = Some (PFloat (default default_minimum_read_overlap_block (c_overlap c))) /\
  ns_of_cli c !! "proportionthresh" =
    Some (PFloat (default default_proportion_threshold (c_proportionthresh c))) /\
  ns_of_cli c !! "absthresh" = Some (PInt (default default_absolute_threshold (c_absthresh c))) /\
  ns_of_cli c !! "qualthresh" = Some (match c_qualthresh c with Some z => PInt z | None => PNone end) /\
  ns_of_cli c !! "primercheck" = Some (match c_primercheck c with Some s => PStr s | None => PNone end) /\
  ns_of_cli c !! "primerthresh" = Some (PInt (default default_primer_threshold (c_primerthresh c))) /\
  ns_of_cli c !! "gap_penalty" =
    Some (match c_gap_penalty c with Some q => PFloat q | None => PInt default_gap_penalty end) /\
  ns_of_cli c !! "reference" = Some (match c_reference c with Some s => PStr s | None => PNone end) /\
  ns_of_cli c !! "coverdir" = Some (match c_coverdir c with Some s => PStr s | None => PNone end) /\
  ns_of_cli c !! "id_info" = Some (match c_id_info c with Some s => PStr s | None => PNone end) /\
  ns_of_cli c !! "primers" = Some (PStr (c_primers c)) /\
  ns_of_cli c !! "bams" = Some (PList (map PStr (c_bams c))).
Proof.
  split_and!.
  - ns_key c_overlap.
  - ns_key c_proportionthresh.
  - ns_key c_absthresh.
  - ns_key c_qualthresh.
  - ns_key c_primercheck.
  - ns_key c_primerthresh.
  - ns_key c_gap_penalty.
  - ns_key c_reference.
  - ns_key c_coverdir.
  - ns_key c_id_info.
  - ns_key c_primers.
  - ns_key c_bams.
Qed.

Lemma ns_of_cli_args c :
  (match c_gap_penalty c with Some q => Zpos (Qden q) = 1 | None => True end) ->
  rover_args_of (ns_of_cli c) = Some (args_of_cli c).
Proof.
  intros Hg. destruct (ns_of_cli_lookups c) as (Ho & Hp & Ha & Hq & Hc & Ht & Hgp & _).
  unfold rover_args_of, ns_float, ns_int, ns_opt_int, ns_opt_str.
  rewrite Ho, Hp, Ha, Hq, Hc, Ht, Hgp. unfold args_of_cli.
  destruct (c_qualthresh c), (c_primercheck c), (c_gap_penalty c) as [q|];
    simpl; try reflexivity; unfold whole; rewrite Hg; reflexivity.
Qed.

Lemma mapM_PStr (l : list string) :
  mapM (fun v => match v with PStr s => Some s | _ => None end) (map PStr l) = Some l.
Proof. induction l as [|s l IH]; simpl; [done|]. rewrite IH. done. Qed.

Lemma ns_opt_str_cli c k (o : option string) :
  ns_of_cli c !! k = Some (match o with Some s => PStr s | None => PNone end) ->
  ns_opt_str (ns_of_cli c) k = Some o.
Proof. unfold ns_opt_str. intros ->. destruct o; done. Qed.

Section MainSpec.
Context `{BamFile B} `{VcfReader R}.
Variable check_primers :
  gmap string string -> block_row -> list Base -> Z -> Z -> Z -> res (Z * Z).
Variables (py_float : string -> option Q) (py_repr_float : Q -> string)
  (py_str_float : Q -> string) (today : string).
Variables (read_table : string -> list (list string)) (open_bam : string -> B)
  (open_vcf : string -> R).

(** C18: [main] on the command line of a run (its options written as
    [--name=value], then [--] and the BAM files) runs [process_bams] with
    exactly the arguments of that run: the thresholds given or their
    defaults, the primer check when [--primercheck] names a file, the
    known-variant VCF when [--id_info] does, and the BAM files in order;
    its outcome is that of [process_bams]. *)
Theorem main_printed c :
  c_bams c <> [] -> Forall (fun s => s <> "--") (cli_strings c) ->
  Forall (float_ok py_float py_repr_float) (cli_floats c) ->
  (match c_gap_penalty c with Some q => Zpos (Qden q) = 1 | None => True end) ->
  main check_primers py_float py_str_float today read_table open_bam open_vcf
    (print_cli py_repr_float c) =
  run_outcome (process_bams check_primers py_str_float (args_of_cli c) (c_reference c) today
    (c_coverdir c) (read_table (c_primers c))
    (match c_primercheck c with Some f => read_table f | None => [] end)
    (if truthy (c_id_info c) then option_map open_vcf (c_id_info c) else None)
    (map (fun f => (f, open_bam f)) (c_bams c))).
Proof.
  intros Hb Hs Hf Hg. unfold main. rewrite parse_args_roundtrip by done.
  destruct (ns_of_cli_lookups c) as (_ & _ & _ & _ & Hc & _ & _ & Hr & Hd & Hi & Hp & Hbs).
  rewrite (ns_of_cli_args c Hg), (ns_opt_str_cli c _ _ Hr), (ns_opt_str_cli c _ _ Hd),
    (ns_opt_str_cli c _ _ Hc), (ns_opt_str_cli c _ _ Hi), (ns_opt_str_cli c "primers" (Some _) Hp).
  unfold ns_bams. rewrite Hbs, mapM_PStr. done.
Qed.
End MainSpec.

(** The run of [process_bams_coverage_overwritten] started from its
    command line. *)
Definition ex_cli_run : cli :=
  mkCli None "blocks.tsv" None (map fst ex_bams) None "out.vcf" None None None None None None None
    (Some "cov").
Definition ex_read_table (f : string) : list (list string) :=
  if String.eqb f "blocks.tsv" then ex_coords else [].
Definition ex_open_bam (f : string) : list pysam_read :=
  match List.find (fun p => String.eqb p.1 f) ex_bams with Some p => p.2 | None => [] end.

Lemma main_printed_witness :
  c_bams ex_cli_run <> [] /\ Forall (fun s => s <> "--") (cli_strings ex_cli_run) /\
  main ex_check ex_float (fun _ => "10.0") "2026-11-09" ex_read_table ex_open_bam
    (fun _ => ([] : list vcf_record)) (print_cli ex_repr ex_cli_run) =
  run_outcome (process_bams ex_check (fun _ => "10.0") (args_of_cli ex_cli_run) None "2026-11-09"
    (Some "cov") ex_coords [] None (map (fun f => (f, ex_open_bam f)) (map fst ex_bams))).
Proof.
  assert (H1 : c_bams ex_cli_run <> []) by discriminate.
  assert (H2 : Forall (fun s => s <> "--") (cli_strings ex_cli_run)).
  { apply List.Forall_forall. intros s Hs. vm_compute in Hs.
    repeat destruct Hs as [<-|Hs]; try destruct Hs; discriminate. }
  split_and!; [exact H1|exact H2|].
  apply (main_printed ex_check ex_float ex_repr (fun _ => "10.0") "2026-11-09" ex_read_table
           ex_open_bam (fun _ => ([] : list vcf_record)) ex_cli_run H1 H2); [constructor|exact I].
Defined.
